(** * UpsetIQ: a shallow embedding of the client code and of the pipeline contracts

  The TypeScript sources embedded here are
    - [frontend/src/types/index.ts]                       (module [Types]),
    - the sport utilities, [src/unnamed/part_013]         (module [SportUtils]),
    - [frontend/src/context/GamesContext.tsx]             (module [GamesContext]),
    - [upsetiq/frontend/src/context/GamesContext.tsx]     (module [UpsetiqGamesContext]),
    - [upsetiq/frontend/src/data/mockData.ts]             (module [MockData]),
    - the games API service, [src/unnamed/part_000]       (module [GamesApi]),
    - [frontend/src/services/api.ts]                      (module [Api]),
    - the notification service, [src/unnamed/part_011]    (module [Notifications]),
    - [upsetiq/frontend/src/context/AlertsContext.tsx]    (module [AlertsContext]),
  and table [predictions] of the database schema, [src/unnamed/part_000]
  (module [Schema]).  The backend pipeline (scorer, alert engine,
  scheduler) is not among the sources; the modules [Scorer], [AlertEngine]
  and [Scheduler] model its contracts.

  JavaScript numbers are modelled by rationals [Q]: the values that reach
  this code are decoded from JSON or written as decimal literals, so they
  are finite; the one place where the code can meet [NaN] (the time of an
  unparsable date) is modelled by [option]. *)

From Stdlib Require Import List String Ascii ZArith QArith Qabs Bool Arith Lia.
From Stdlib Require Import Permutation Sorted DecimalString Lqa RelationClasses.
From Equations Require Import Equations.
Import ListNotations.

#[local] Set Warnings "-register-all".

Open Scope string_scope.
Open Scope list_scope.

(* ===================================================================== *)
(** * Part I: definitions                                                 *)
(* ===================================================================== *)

(** ** JavaScript values and control outcomes *)

Module Js.

(** The JSON-like values the client handles at run time. *)
Inductive JsVal : Type :=
| JUndefined
| JNull
| JBool (b : bool)
| JNum (q : Q)
| JStr (s : string)
| JArr (items : list JsVal)
| JObj (fields : list (string * JsVal)).

(** The result of running an [async] function to completion: its promise
    is fulfilled with a value or rejected with the thrown value. *)
Inductive Outcome (A : Type) : Type :=
| Returned (a : A)
| Thrown (e : JsVal).
Arguments Returned {A} a.
Arguments Thrown {A} e.

Definition bind {A B} (m : Outcome A) (k : A -> Outcome B) : Outcome B :=
  match m with
  | Returned a => k a
  | Thrown e => Thrown e
  end.

(** [p.catch(h)]: a rejection is replaced by the handler's value. *)
Definition catch_with {A} (m : Outcome A) (h : JsVal -> A) : Outcome A :=
  match m with
  | Returned a => Returned a
  | Thrown e => Returned (h e)
  end.

(** ToBoolean. *)
Definition truthy (v : JsVal) : bool :=
  match v with
  | JUndefined | JNull => false
  | JBool b => b
  | JNum q => negb (Qeq_bool q 0)
  | JStr s => negb (String.eqb s "")
  | JArr _ | JObj _ => true
  end.

Fixpoint assoc (k : string) (fields : list (string * JsVal)) : option JsVal :=
  match fields with
  | [] => None
  | (k', v) :: rest => if String.eqb k' k then Some v else assoc k rest
  end.

Definition type_error (msg : string) : JsVal :=
  JObj [("name", JStr "TypeError"); ("message", JStr msg)].

(** Property read [v.k] for a data property [k]: reading from [null] or
    [undefined] throws a [TypeError]; a missing property reads as
    [undefined]; primitives have no own data properties. *)
Definition get_prop (v : JsVal) (k : string) : Outcome JsVal :=
  match v with
  | JUndefined | JNull =>
      Thrown (type_error ("Cannot read properties of null or undefined"))
  | JObj fields =>
      match assoc k fields with
      | Some x => Returned x
      | None => Returned JUndefined
      end
  | _ => Returned JUndefined
  end.

(** Total variant of a property read on a value known to be an object. *)
Definition field (v : JsVal) (k : string) : JsVal :=
  match get_prop v k with
  | Returned x => x
  | Thrown _ => JUndefined
  end.

(** [a || b] *)
Definition or_else (a b : JsVal) : JsVal := if truthy a then a else b.

(** Decimal rendering of an integer, as a template literal prints it. *)
Definition string_of_Z (z : Z) : string :=
  NilZero.string_of_int (Z.to_int z).

(** *** [Array.prototype.sort]

    The comparator's numeric result is reduced to its sign; a [NaN]
    result counts as [Eq], as the language prescribes.  The sort is
    stable (ES2019), which for a consistent comparator determines the
    result; it is modelled by a stable insertion sort.  For a comparator
    that is not consistent the language leaves the order to the
    implementation; the result is a permutation of the array in any
    case, and nothing proved below depends on more than that there. *)
Section Sort.
Context {A : Type}.
Variable cmp : A -> A -> comparison.

(** [x] came after every element of the sorted prefix [l]: it is placed
    before the first element it is strictly smaller than. *)
Fixpoint insert (x : A) (l : list A) : list A :=
  match l with
  | [] => [x]
  | y :: l' =>
      match cmp x y with
      | Lt => x :: y :: l'
      | _ => y :: insert x l'
      end
  end.

Definition sort (l : list A) : list A :=
  fold_left (fun acc x => insert x acc) l [].
End Sort.

(** Sign of a numeric comparator result. *)
Definition sign (q : Q) : comparison := (q ?= 0)%Q.

(** Sign of a possibly-[NaN] result. *)
Definition sign_opt (q : option Z) : comparison :=
  match q with
  | Some z => (z ?= 0)%Z
  | None => Eq
  end.

End Js.

(** ** [types/index.ts] *)

Module Types.

Inductive Sport : Type := NBA | NFL | MLB | NHL | Soccer | CFB.

(** The string literal a [Sport] is at run time. *)
Definition sport_literal (s : Sport) : string :=
  match s with
  | NBA => "NBA" | NFL => "NFL" | MLB => "MLB"
  | NHL => "NHL" | Soccer => "Soccer" | CFB => "CFB"
  end.

Inductive GameStatus : Type := upcoming | live | completed.

Definition status_literal (s : GameStatus) : string :=
  match s with
  | upcoming => "upcoming" | live => "live" | completed => "completed"
  end.

Record Prediction : Type := mkPrediction {
  p_id : string;
  p_game_id : string;
  upset_probability : Q;
  model_version : string;
  confidence_band : Q;
  p_created_at : string
}.

Record MarketSignal : Type := mkMarketSignal {
  m_id : string;
  m_game_id : string;
  public_bet_percentage : Q;
  line_movement : Q;
  sentiment_score : Q;
  m_created_at : string
}.

Record Driver : Type := mkDriver { label : string }.

(** [Game]: the sport of a game is the string the API sent (the cast
    [as Sport] in [transformApiGame] does not check it). *)
Record Game : Type := mkGame {
  g_id : string;
  g_sport : string;
  g_team_favorite : string;
  g_team_underdog : string;
  g_start_time : string;
  g_odds_open : Q;
  g_odds_current : Q;
  g_status : option GameStatus;
  g_isPrimeTime : option bool;
  g_spreadOpen : option Q;
  g_spreadCurrent : option Q;
  g_totalOpen : option Q;
  g_totalCurrent : option Q
}.

(** [GameWithPrediction extends Game]. *)
Record GameWithPrediction : Type := mkGameWithPrediction {
  game : Game;
  prediction : Prediction;
  marketSignal : MarketSignal;
  drivers : option (list Driver)
}.

Definition id (g : GameWithPrediction) : string := g_id (game g).
Definition sport (g : GameWithPrediction) : string := g_sport (game g).
Definition start_time (g : GameWithPrediction) : string := g_start_time (game g).
Definition isPrimeTime (g : GameWithPrediction) : option bool := g_isPrimeTime (game g).
Definition ups (g : GameWithPrediction) : Q := upset_probability (prediction g).

Definition AlertThreshold : Type := Q.

Record Alert : Type := mkAlert {
  a_id : string;
  a_game_id : string;
  a_user_id : string;
  threshold : AlertThreshold;
  triggered : bool;
  a_created_at : string
}.

(** A [Date] object: its time value, [None] when invalid. *)
Definition Date : Type := option Z.

Record FilterState : Type := mkFilterState {
  f_sport : option Sport;
  f_date : option Date;
  confidenceThreshold : Q;
  minUpsPct : option Q;
  onlyPrimeTime : option bool;
  onlyNationalTv : option bool;
  onlyHighStakes : option bool;
  onlyMarquee : option bool;
  onlyFeatured : option bool;
  onlyTopGames : option bool
}.

(** Truthiness of an optional boolean flag. *)
Definition flag (b : option bool) : bool :=
  match b with Some true => true | _ => false end.

End Types.

(** ** The sport utilities ([utils/sportUtils]) *)

Module SportUtils.
Import Js Types.

Record DayGroup : Type := mkDayGroup {
  dg_label : string;
  dg_games : list GameWithPrediction
}.

(** [byDay]: a [Map] from label to array, keys kept in insertion order. *)
Definition DayMap : Type := list (string * list GameWithPrediction).

Fixpoint map_get (k : string) (m : DayMap) : option (list GameWithPrediction) :=
  match m with
  | [] => None
  | (k', arr) :: rest => if String.eqb k' k then Some arr else map_get k rest
  end.

(** [Map.prototype.set]: an existing key keeps its position. *)
Fixpoint map_set (k : string) (arr : list GameWithPrediction) (m : DayMap) : DayMap :=
  match m with
  | [] => [(k, arr)]
  | (k', arr') :: rest =>
      if String.eqb k' k then (k', arr) :: rest else (k', arr') :: map_set k arr rest
  end.

(** [(a, b) => b.prediction.upset_probability - a.prediction.upset_probability] *)
Definition by_ups_desc (a b : GameWithPrediction) : comparison :=
  sign (ups b - ups a).

(** Non-increasing upset probability: [a] may stand before [b]. *)
Definition ups_desc (a b : GameWithPrediction) : Prop := (ups b <= ups a)%Q.

Section DateEnv.

(** [new Date(s).toLocaleDateString(undefined, {weekday, month, day})]:
    depends on the locale and time zone of the device. *)
Variable dayLabel : string -> string.

(** [new Date(s).getTime()]; [None] is [NaN] (unparsable date). *)
Variable getTime : string -> option Z.

(** One iteration of the loop body, after the sport test. *)
Definition add_game (byDay : DayMap) (g : GameWithPrediction) : DayMap :=
  let label := dayLabel (start_time g) in
  let arr := match map_get label byDay with Some a => a | None => [] end in
  map_set label (arr ++ [g]) byDay.

Definition collect (games : list GameWithPrediction) (sport : Sport) : DayMap :=
  fold_left
    (fun byDay g =>
       if negb (String.eqb (Types.sport g) (sport_literal sport)) then byDay
       else add_game byDay g)
    games [].

(** [new Date(a.games[0]?.start_time ?? 0).getTime()] *)
Definition first_time (grp : DayGroup) : option Z :=
  match dg_games grp with
  | g :: _ => getTime (start_time g)
  | [] => Some 0%Z
  end.

(** [ta - tb], which is [NaN] as soon as one of the two is. *)
Definition by_first_time (a b : DayGroup) : comparison :=
  sign_opt
    match first_time a, first_time b with
    | Some ta, Some tb => Some (ta - tb)%Z
    | _, _ => None
    end.

Definition groupGamesByDay (games : list GameWithPrediction) (sport : Sport)
  : list DayGroup :=
  let byDay := collect games sport in
  let groups :=
    map (fun entry => mkDayGroup (fst entry) (sort by_ups_desc (snd entry))) byDay in
  sort by_first_time groups.

End DateEnv.

End SportUtils.

(** ** [context/GamesContext.tsx] (both copies) *)

Module GamesContextCommon.
Import Js Types.

Definition Qltb (a b : Q) : bool := negb (Qle_bool b a).

(** The calendar of the device: day of month, month and year of a time
    value in local time. *)
Record Calendar : Type := mkCalendar {
  parseDate : string -> Date;
  getDate : Z -> Z;
  getMonth : Z -> Z;
  getFullYear : Z -> Z
}.

(** A getter applied to a possibly invalid date gives [NaN] ([None]). *)
Definition part (f : Z -> Z) (d : Date) : option Z := option_map f d.

(** [a !== b] on numbers: [NaN] differs from everything. *)
Definition strict_neq (a b : option Z) : bool :=
  match a, b with
  | Some x, Some y => negb (Z.eqb x y)
  | _, _ => true
  end.

(** The date test of [filteredGames]: [true] when the game is rejected. *)
Definition other_day (cal : Calendar) (filterDate : Date) (g : GameWithPrediction) : bool :=
  let gameDate := parseDate cal (start_time g) in
  strict_neq (part (getDate cal) gameDate) (part (getDate cal) filterDate)
  || strict_neq (part (getMonth cal) gameDate) (part (getMonth cal) filterDate)
  || strict_neq (part (getFullYear cal) gameDate) (part (getFullYear cal) filterDate).

Definition sport_mismatch (f : FilterState) (g : GameWithPrediction) : bool :=
  match f_sport f with
  | Some s => negb (String.eqb (sport g) (sport_literal s))
  | None => false
  end.

Definition wrong_day (cal : Calendar) (f : FilterState) (g : GameWithPrediction) : bool :=
  match f_date f with
  | Some d => other_day cal d g
  | None => false
  end.

End GamesContextCommon.

Module GamesContext.
Import Js Types GamesContextCommon.

(** [sorted[Math.floor(sorted.length * 0.3)]?.prediction.upset_probability ?? 0]
    over the games of one sport.  For every array length the double
    [length * 0.3] has the integer part of [3 * length / 10]. *)
Definition top30_threshold (games : list GameWithPrediction) (name : string) : Q :=
  let all := filter (fun g => String.eqb (sport g) name) games in
  let sorted := sort SportUtils.by_ups_desc all in
  match nth_error sorted (3 * List.length sorted / 10)%nat with
  | Some g => ups g
  | None => 0%Q
  end.

(** The proxy filter shared by NBA, MLB, NHL, Soccer and CFB. *)
Definition below_top30 (games : list GameWithPrediction) (name : string)
  (on : option bool) (g : GameWithPrediction) : bool :=
  String.eqb (sport g) name && flag on && Qltb (ups g) (top30_threshold games name).

(** The callback of [games.filter] in [filteredGames]. *)
Definition keep (cal : Calendar) (games : list GameWithPrediction) (f : FilterState)
  (g : GameWithPrediction) : bool :=
  if sport_mismatch f g then false
  else if match minUpsPct f with
          | Some m => Qltb (ups g) m
          | None => Qltb (ups g) (confidenceThreshold f)
          end then false
  else if String.eqb (sport g) "NFL" && flag (onlyPrimeTime f)
          && negb (flag (isPrimeTime g)) then false
  else if below_top30 games "NBA" (onlyNationalTv f) g then false
  else if below_top30 games "MLB" (onlyHighStakes f) g then false
  else if below_top30 games "NHL" (onlyMarquee f) g then false
  else if below_top30 games "Soccer" (onlyFeatured f) g then false
  else if below_top30 games "CFB" (onlyTopGames f) g then false
  else if wrong_day cal f g then false
  else true.

Definition filteredGames (cal : Calendar) (games : list GameWithPrediction)
  (f : FilterState) : list GameWithPrediction :=
  filter (keep cal games f) games.

(** The minimum the claim calls applicable. *)
Definition applicable_min (f : FilterState) : Q :=
  match minUpsPct f with
  | Some m => m
  | None => confidenceThreshold f
  end.

End GamesContext.

Module UpsetiqGamesContext.
Import Js Types GamesContextCommon.

(** The callback of [games.filter] in the older copy: [minUpsPct] is
    consulted for NFL games only. *)
Definition keep (cal : Calendar) (f : FilterState) (g : GameWithPrediction) : bool :=
  if sport_mismatch f g then false
  else if match String.eqb (sport g) "NFL", minUpsPct f with
          | true, Some m => Qltb (ups g) m
          | _, _ => Qltb (ups g) (confidenceThreshold f)
          end then false
  else if String.eqb (sport g) "NFL" && flag (onlyPrimeTime f)
          && negb (flag (isPrimeTime g)) then false
  else if wrong_day cal f g then false
  else true.

Definition filteredGames (cal : Calendar) (games : list GameWithPrediction)
  (f : FilterState) : list GameWithPrediction :=
  filter (keep cal f) games.

(** The minimum this copy applies to a game. *)
Definition applicable_min (f : FilterState) (g : GameWithPrediction) : Q :=
  match String.eqb (sport g) "NFL", minUpsPct f with
  | true, Some m => m
  | _, _ => confidenceThreshold f
  end.

End UpsetiqGamesContext.

(** ** [data/mockData.ts] *)

Module MockData.
Import Js Types.

Definition fallback_label : string := "Model confidence high".

(** [while (xs.length < 3) { xs.push(x) }] *)
Equations? pad_to_three {A : Type} (x : A) (xs : list A) : list A
  by wf (3 - List.length xs)%nat lt :=
  pad_to_three x xs with lt_dec (List.length xs) 3 => {
    | left _ := pad_to_three x (xs ++ [x]);
    | right _ := xs }.
Proof. rewrite length_app. destruct (List.length xs) as [|[|[|?]]]; simpl in *; lia. Qed.

Definition when {A : Type} (c : bool) (x : A) : list A := if c then [x] else [].

(** The spread label of an NFL game; [toFixed1] renders a number with one
    decimal. *)
Definition spread_driver (toFixed1 : Q -> string) (g : Game) : list Driver :=
  match g_spreadOpen g, g_spreadCurrent g with
  | Some open, Some current =>
      let spreadMovement := (current - open)%Q in
      when (Qle_bool 1 (Qabs spreadMovement))
        (mkDriver ("Spread moved " ++ toFixed1 (Qabs spreadMovement) ++ " points "
                   ++ (if negb (Qle_bool spreadMovement 0) then "vs" else "toward")
                   ++ " favorite")%string)
  | _, _ => []
  end.

(** The drivers pushed before the padding loop, in push order. *)
Definition signal_drivers (toFixed1 : Q -> string) (g : Game) (p : Prediction)
  (m : MarketSignal) : list Driver :=
  (if String.eqb (g_sport g) "NFL" then
     spread_driver toFixed1 g
     ++ when (Qle_bool 70 (public_bet_percentage m))
             (mkDriver "Public >= 70% on favorite") (* the sign is one character in the source *)
     ++ when (flag (g_isPrimeTime g)) (mkDriver "Prime time game")
   else [])
  ++ when (negb (Qle_bool (-10) (line_movement m)))
          (mkDriver "Line movement against favorite")
  ++ when (negb (Qle_bool (upset_probability p) 65))
          (mkDriver "Historical anomaly detected").

(** The object returned by the callback of [mockGames.map] once the
    prediction and the market signal of the game are found. *)
Definition with_drivers (toFixed1 : Q -> string) (g : Game) (p : Prediction)
  (m : MarketSignal) : GameWithPrediction :=
  let drivers := pad_to_three (mkDriver fallback_label) (signal_drivers toFixed1 g p m) in
  mkGameWithPrediction g p m (Some (firstn 6 drivers)).

Definition missing_data (i : string) : JsVal :=
  JObj [("message", JStr ("Missing data for game " ++ i)%string)].

Definition combine_game (toFixed1 : Q -> string) (predictions : list Prediction)
  (signals : list MarketSignal) (g : Game) : Outcome GameWithPrediction :=
  match find (fun p => String.eqb (p_game_id p) (g_id g)) predictions,
        find (fun m => String.eqb (m_game_id m) (g_id g)) signals with
  | Some p, Some m => Returned (with_drivers toFixed1 g p m)
  | _, _ => Thrown (missing_data (g_id g))
  end.

(** [mockGames.map(...)]: the first throw aborts the whole map. *)
Fixpoint mockGamesWithPredictions (toFixed1 : Q -> string)
  (predictions : list Prediction) (signals : list MarketSignal)
  (games : list Game) : Outcome (list GameWithPrediction) :=
  match games with
  | [] => Returned []
  | g :: rest =>
      bind (combine_game toFixed1 predictions signals g) (fun x =>
      bind (mockGamesWithPredictions toFixed1 predictions signals rest) (fun xs =>
      Returned (x :: xs)))
  end.

(** The signals [getKeySignals] derives from the market data when the game
    carries no drivers, before the padding loop. *)
Definition market_signals (g : GameWithPrediction) : list string :=
  when (negb (Qle_bool (-10) (line_movement (marketSignal g))))
       "Line movement against favorite"
  ++ when (negb (Qle_bool (public_bet_percentage (marketSignal g)) 75))
          "High public bias detected"
  ++ when (negb (Qle_bool (ups g) 65)) "Historical anomaly detected".

Definition getKeySignals (g : GameWithPrediction) : list string :=
  match drivers g with
  | Some (d :: ds) => map label (firstn 3 (d :: ds))
  | _ => firstn 3 (pad_to_three fallback_label (market_signals g))
  end.

End MockData.

(** ** The games API service ([services/gamesApi]) *)

Module GamesApi.
Import Js Types.

Record ApiGame : Type := mkApiGame {
  api_id : string;
  api_sport : string;
  api_team_favorite : string;
  api_team_underdog : string;
  api_start_time : string;
  api_odds_open : Q;
  api_odds_current : Q;
  api_status : GameStatus;
  api_isPrimeTime : option bool;
  api_spreadOpen : option Q;
  api_spreadCurrent : option Q;
  api_totalOpen : option Q;
  api_totalCurrent : option Q;
  api_venue : option string;
  api_prediction : Prediction;
  api_marketSignal : MarketSignal;
  api_drivers : option (list Driver)
}.

Record GamesApiResponse : Type := mkGamesApiResponse {
  games : list ApiGame;
  fetched_at : string;
  cached : bool
}.

Record FetchGamesResult : Type := mkFetchGamesResult {
  r_games : list GameWithPrediction;
  r_fetchedAt : string;
  r_cached : bool
}.

Definition transformApiGame (apiGame : ApiGame) : GameWithPrediction :=
  mkGameWithPrediction
    (mkGame (api_id apiGame) (api_sport apiGame)
            (api_team_favorite apiGame) (api_team_underdog apiGame)
            (api_start_time apiGame)
            (api_odds_open apiGame) (api_odds_current apiGame)
            (Some (api_status apiGame))
            (api_isPrimeTime apiGame)
            (api_spreadOpen apiGame) (api_spreadCurrent apiGame)
            (api_totalOpen apiGame) (api_totalCurrent apiGame))
    (mkPrediction
       (p_id (api_prediction apiGame)) (p_game_id (api_prediction apiGame))
       (upset_probability (api_prediction apiGame))
       (model_version (api_prediction apiGame))
       (confidence_band (api_prediction apiGame))
       (p_created_at (api_prediction apiGame)))
    (mkMarketSignal
       (m_id (api_marketSignal apiGame)) (m_game_id (api_marketSignal apiGame))
       (public_bet_percentage (api_marketSignal apiGame))
       (line_movement (api_marketSignal apiGame))
       (sentiment_score (api_marketSignal apiGame))
       (m_created_at (api_marketSignal apiGame)))
    (api_drivers apiGame).

(** [fetchGames(sport = 'NFL')], over the typed view [get] of
    [api.get<GamesApiResponse>(endpoint, params)]. *)
Definition fetchGames
  (get : string -> list (string * string) -> Outcome GamesApiResponse)
  (sport : option Sport) : Outcome FetchGamesResult :=
  let sport := match sport with Some s => s | None => NFL end in
  bind (get "/games" [("sport", sport_literal sport)]) (fun response =>
  Returned (mkFetchGamesResult
              (map transformApiGame (games response))
              (fetched_at response)
              (cached response))).

(** *** The objects behind the records

    A record is seen at run time as an object; an object is described by
    its slots, an optional value per key. *)
Definition Slots : Type := list (string * option JsVal).

(** A decoded JSON object has the keys that were sent. *)
Fixpoint decoded (slots : Slots) : list (string * JsVal) :=
  match slots with
  | [] => []
  | (k, Some v) :: rest => (k, v) :: decoded rest
  | (_, None) :: rest => decoded rest
  end.

(** An object literal has every key it names, some bound to [undefined]. *)
Definition literal (slots : Slots) : list (string * JsVal) :=
  map (fun s => (fst s, match snd s with Some v => v | None => JUndefined end)) slots.

Definition Prediction_obj (p : Prediction) : JsVal :=
  JObj [("id", JStr (p_id p)); ("game_id", JStr (p_game_id p));
        ("upset_probability", JNum (upset_probability p));
        ("model_version", JStr (model_version p));
        ("confidence_band", JNum (confidence_band p));
        ("created_at", JStr (p_created_at p))].

Definition MarketSignal_obj (m : MarketSignal) : JsVal :=
  JObj [("id", JStr (m_id m)); ("game_id", JStr (m_game_id m));
        ("public_bet_percentage", JNum (public_bet_percentage m));
        ("line_movement", JNum (line_movement m));
        ("sentiment_score", JNum (sentiment_score m));
        ("created_at", JStr (m_created_at m))].

Definition drivers_val (ds : list Driver) : JsVal :=
  JArr (map (fun d => JObj [("label", JStr (label d))]) ds).

Definition ApiGame_slots (g : ApiGame) : Slots :=
  [("id", Some (JStr (api_id g)));
   ("sport", Some (JStr (api_sport g)));
   ("team_favorite", Some (JStr (api_team_favorite g)));
   ("team_underdog", Some (JStr (api_team_underdog g)));
   ("start_time", Some (JStr (api_start_time g)));
   ("odds_open", Some (JNum (api_odds_open g)));
   ("odds_current", Some (JNum (api_odds_current g)));
   ("status", Some (JStr (status_literal (api_status g))));
   ("isPrimeTime", option_map JBool (api_isPrimeTime g));
   ("spreadOpen", option_map JNum (api_spreadOpen g));
   ("spreadCurrent", option_map JNum (api_spreadCurrent g));
   ("totalOpen", option_map JNum (api_totalOpen g));
   ("totalCurrent", option_map JNum (api_totalCurrent g));
   ("venue", option_map JStr (api_venue g));
   ("prediction", Some (Prediction_obj (api_prediction g)));
   ("marketSignal", Some (MarketSignal_obj (api_marketSignal g)));
   ("drivers", option_map drivers_val (api_drivers g))].

Definition GameWithPrediction_slots (g : GameWithPrediction) : Slots :=
  [("id", Some (JStr (id g)));
   ("sport", Some (JStr (sport g)));
   ("team_favorite", Some (JStr (g_team_favorite (game g))));
   ("team_underdog", Some (JStr (g_team_underdog (game g))));
   ("start_time", Some (JStr (start_time g)));
   ("odds_open", Some (JNum (g_odds_open (game g))));
   ("odds_current", Some (JNum (g_odds_current (game g))));
   ("status", option_map (fun s => JStr (status_literal s)) (g_status (game g)));
   ("isPrimeTime", option_map JBool (isPrimeTime g));
   ("spreadOpen", option_map JNum (g_spreadOpen (game g)));
   ("spreadCurrent", option_map JNum (g_spreadCurrent (game g)));
   ("totalOpen", option_map JNum (g_totalOpen (game g)));
   ("totalCurrent", option_map JNum (g_totalCurrent (game g)));
   ("prediction", Some (Prediction_obj (prediction g)));
   ("marketSignal", Some (MarketSignal_obj (marketSignal g)));
   ("drivers", option_map drivers_val (drivers g))].

(** The object the API sent for a game, and the object [transformApiGame]
    builds with its literal. *)
Definition ApiGame_obj (g : ApiGame) : JsVal := JObj (decoded (ApiGame_slots g)).
Definition GameWithPrediction_obj (g : GameWithPrediction) : JsVal :=
  JObj (literal (GameWithPrediction_slots g)).

Definition ApiGame_keys : list string :=
  ["id"; "sport"; "team_favorite"; "team_underdog"; "start_time"; "odds_open";
   "odds_current"; "status"; "isPrimeTime"; "spreadOpen"; "spreadCurrent";
   "totalOpen"; "totalCurrent"; "venue"; "prediction"; "marketSignal"; "drivers"].

(** What a read of key [k] finds among the fields of an object. *)
Definition lookup (k : string) (fields : list (string * JsVal)) : JsVal :=
  match assoc k fields with Some x => x | None => JUndefined end.

(** The slots of an object without those of key [v]. *)
Definition drop_key (v : string) (slots : Slots) : Slots :=
  filter (fun s => negb (String.eqb (fst s) v)) slots.

End GamesApi.

(** ** [services/api.ts] *)

Module Api.
Import Js.

(** What the client reads of a [Response]: [json] is the settlement of the
    promise [response.json()], rejected when the body is not JSON. *)
Record Response : Type := mkResponse {
  ok : bool;
  status : Z;
  json : Outcome JsVal
}.

Record Request : Type := mkRequest {
  url : string;
  method : string;
  headers : list (string * string);
  body : option string
}.

(** The run-time services the client calls. *)
Record Platform : Type := mkPlatform {
  fetch : Request -> Outcome Response;
  (** [new URL(s)]: the parsed URL, or the [TypeError] of an invalid one *)
  new_URL : string -> Outcome string;
  (** [url.searchParams.append(key, value)] *)
  searchParams_append : string -> string -> string -> string;
  (** [JSON.stringify] *)
  stringify : JsVal -> string
}.

Definition json_headers : list (string * string) :=
  [("Content-Type", "application/json"); ("Accept", "application/json")].

Definition ApiError (message status detail : JsVal) : JsVal :=
  JObj [("message", message); ("status", status); ("detail", detail)].

Definition network_error_message : string :=
  "Network error - please check your connection".

(** How a [try] block is left: by a throw, which the [catch] clause
    receives, or by [return p] with a promise [p] that was not awaited, in
    which case the [catch] clause does not see how [p] settles. *)
Inductive TryExit : Type :=
| TryThrow (e : JsVal)
| TryReturn (p : Outcome JsVal).

(** The statements of the [try] block after [fetch] has answered. *)
Definition handle_response (response : Response) : TryExit :=
  if negb (ok response) then
    match
      bind (catch_with (json response) (fun _ => JObj [])) (fun errorData =>
      get_prop errorData "detail")
    with
    | Returned detail =>
        TryThrow
          (ApiError
             (or_else detail (JStr ("HTTP " ++ string_of_Z (status response))%string))
             (JNum (inject_Z (status response)))
             detail)
    | Thrown e => TryThrow e
    end
  else TryReturn (json response).

Definition try_fetch (pf : Platform) (req : Request) : TryExit :=
  match fetch pf req with
  | Thrown e => TryThrow e
  | Returned response => handle_response response
  end.

(** The [catch (error)] clause. *)
Definition on_error (error : JsVal) : Outcome JsVal :=
  bind (get_prop error "status") (fun st =>
  if truthy st then Thrown error
  else
    bind (get_prop error "message") (fun message =>
    Thrown (ApiError (JStr network_error_message) (JNum 0) message))).

Definition try_catch (t : TryExit) : Outcome JsVal :=
  match t with
  | TryThrow e => on_error e
  | TryReturn p => p
  end.

Definition with_params (pf : Platform) (u : string)
  (params : option (list (string * string))) : string :=
  match params with
  | Some entries =>
      fold_left (fun u kv => searchParams_append pf u (fst kv) (snd kv)) entries u
  | None => u
  end.

(** [ApiClient.get] *)
Definition get (pf : Platform) (baseUrl endpoint : string)
  (params : option (list (string * string))) : Outcome JsVal :=
  bind (new_URL pf (baseUrl ++ endpoint)%string) (fun u =>
  let u := with_params pf u params in
  try_catch (try_fetch pf (mkRequest u "GET" json_headers None))).

(** [ApiClient.post] *)
Definition post (pf : Platform) (baseUrl endpoint : string) (data : JsVal)
  : Outcome JsVal :=
  try_catch
    (try_fetch pf
       (mkRequest (baseUrl ++ endpoint)%string "POST" json_headers
                  (if truthy data then Some (stringify pf data) else None))).

(** An [ApiError] with a numeric status. *)
Definition carries_numeric_status (e : JsVal) : Prop :=
  exists q, field e "status" = JNum q.

End Api.

(** ** The notification service *)

Module Notifications.
Import Js Types.

Record NotificationContent : Type := mkNotificationContent {
  title : string;
  body : string;
  data_alertId : string;
  data_gameId : string;
  sound : bool
}.

(** The notification service of the device, with state [W], and the
    rendering of a number in a template literal. *)
Record Expo (W : Type) : Type := mkExpo {
  getPermissionsAsync : W -> Outcome string * W;
  requestPermissionsAsync : W -> Outcome string * W;
  scheduleNotificationAsync : NotificationContent -> W -> Outcome string * W;
  numberToString : Q -> string
}.
Arguments mkExpo {W}.
Arguments getPermissionsAsync {W}.
Arguments requestPermissionsAsync {W}.
Arguments scheduleNotificationAsync {W}.
Arguments numberToString {W}.

Record GameInfo : Type := mkGameInfo {
  favorite : string;
  underdog : string;
  info_ups : Q
}.

Section Device.
Context {W : Type}.
Variable expo : Expo W.

(** The state threaded through the calls: the device and the log of the
    notifications it accepted. *)
Definition State : Type := (W * list NotificationContent)%type.

Definition requestPermissions (w : W) : bool * W :=
  match getPermissionsAsync expo w with
  | (Thrown _, w1) => (false, w1)
  | (Returned existingStatus, w1) =>
      if negb (String.eqb existingStatus "granted") then
        match requestPermissionsAsync expo w1 with
        | (Thrown _, w2) => (false, w2)
        | (Returned st, w2) => (String.eqb st "granted", w2)
        end
      else (true, w1)
  end.

Definition alert_content (alert : Alert) (gameInfo : GameInfo) : NotificationContent :=
  mkNotificationContent
    "Upset Alert Triggered!" (* the title's leading emoji is left out *)
    (underdog gameInfo ++ " has " ++ numberToString expo (info_ups gameInfo)
     ++ "% upset probability vs " ++ favorite gameInfo)%string
    (a_id alert) (a_game_id alert) true.

Definition scheduleAlertNotification (alert : Alert) (gameInfo : GameInfo)
  (st : State) : option string * State :=
  let (w, log) := st in
  let (hasPermission, w1) := requestPermissions w in
  if negb hasPermission then (None, (w1, log))
  else
    match scheduleNotificationAsync expo (alert_content alert gameInfo) w1 with
    | (Returned notificationId, w2) =>
        (Some notificationId, (w2, log ++ [alert_content alert gameInfo]))
    | (Thrown _, w2) => (None, (w2, log))
    end.

(** [currentUps && currentUps >= alert.threshold] *)
Definition reaches (currentUps : option Q) (alert : Alert) : bool :=
  match currentUps with
  | Some u => negb (Qeq_bool u 0) && Qle_bool (threshold alert) u
  | None => false
  end.

(** One iteration of the loop of [checkAlerts]. *)
Definition check_one (getGameUps : string -> option Q) (st : State) (alert : Alert)
  : State :=
  if triggered alert then st
  else
    match getGameUps (a_game_id alert) with
    | Some currentUps =>
        if reaches (Some currentUps) alert then
          snd (scheduleAlertNotification alert
                 (mkGameInfo "Team A" "Team B" currentUps) st)
        else st
    | None => st
    end.

Definition checkAlerts (alerts : list Alert) (getGameUps : string -> option Q)
  (st : State) : State :=
  fold_left (check_one getGameUps) alerts st.

(** [checkAlerts] run once per score of a sequence of scores, every game
    having the score of the moment. *)
Definition evaluate (alerts : list Alert) (scores : list Q) (st : State) : State :=
  fold_left (fun st s => checkAlerts alerts (fun _ => Some s) st) scores st.

End Device.

(** The condition under which an evaluation may notify for an alert. *)
Definition may_fire (alerts : list Alert) (getGameUps : string -> option Q)
  (c : NotificationContent) : Prop :=
  exists a u,
    In a alerts /\ triggered a = false
    /\ getGameUps (a_game_id a) = Some u
    /\ ~ (u == 0)%Q /\ (threshold a <= u)%Q
    /\ data_alertId c = a_id a /\ data_gameId c = a_game_id a.

End Notifications.

(** ** [context/AlertsContext.tsx] *)

Module AlertsContext.
Import Js Types.

(** [addAlert(gameId, threshold)] as a state update; [now] is [Date.now()]
    and [iso] the text of [new Date().toISOString()]. *)
Definition addAlert (now : Z) (iso : string) (gameId : string)
  (threshold : AlertThreshold) (prev : list Alert) : list Alert :=
  prev ++ [mkAlert ("alert-" ++ string_of_Z now)%string gameId "current-user"
                   threshold false iso].

Definition removeAlert (alertId : string) (prev : list Alert) : list Alert :=
  filter (fun alert => negb (String.eqb (a_id alert) alertId)) prev.

Definition getAlertsForGame (alerts : list Alert) (gameId : string) : list Alert :=
  filter (fun alert => String.eqb (a_game_id alert) gameId) alerts.

End AlertsContext.

(** ** The store: table [predictions] of the database schema *)

Module Schema.

(** A row offered to
    [INSERT INTO predictions (game_id, upset_probability, confidence_band, model_version)];
    [None] is [NULL] and, for [model_version], the default ['v1.0']. *)
Record NewPrediction : Type := mkNewPrediction {
  np_game_id : string;
  np_upset_probability : option Q;
  np_confidence_band : option Q;
  np_model_version : option string
}.

Record PredictionRow : Type := mkPredictionRow {
  pr_game_id : string;
  pr_upset_probability : Q;
  pr_confidence_band : option Q;
  pr_model_version : string
}.

Inductive SqlError : Type :=
| not_null_violation
| numeric_field_overflow
| check_violation
| unique_violation
| foreign_key_violation.

(** Rounding to the scale of [DECIMAL(5, 2)]: to the nearest hundredth,
    ties away from zero. *)
Definition round_half_away (q : Q) : Z :=
  let n := (Qnum q * 100)%Z in
  let d := Z.pos (Qden q) in
  let m := ((2 * Z.abs n + d) / (2 * d))%Z in
  (Z.sgn n * m)%Z.

Definition to_decimal_5_2 (q : Q) : Q := (round_half_away q # 100).

(** [DECIMAL(5, 2)] holds absolute values below 1000. *)
Definition fits_5_2 (q : Q) : bool := (Z.abs (round_half_away q) <? 100000)%Z.

Record Store : Type := mkStore {
  game_ids : list string;          (* primary keys of [games] *)
  predictions : list PredictionRow
}.

Definition same_version (g v : string) (r : PredictionRow) : bool :=
  String.eqb (pr_game_id r) g && String.eqb (pr_model_version r) v.

Definition insert_prediction (db : Store) (row : NewPrediction)
  : SqlError + Store :=
  match np_upset_probability row with
  | None => inl not_null_violation
  | Some p =>
      if negb (fits_5_2 p) then inl numeric_field_overflow
      else
        let p := to_decimal_5_2 p in
        let v := match np_model_version row with Some v => v | None => "v1.0" end in
        if negb (Qle_bool 0 p && Qle_bool p 100) then inl check_violation
        else if existsb (same_version (np_game_id row) v) (predictions db)
        then inl unique_violation
        else if negb (existsb (String.eqb (np_game_id row)) (game_ids db))
        then inl foreign_key_violation
        else inr (mkStore (game_ids db)
                          (predictions db
                           ++ [mkPredictionRow (np_game_id row) p
                                               (np_confidence_band row) v]))
  end.

Definition in_range (r : PredictionRow) : Prop :=
  (0 <= pr_upset_probability r <= 100)%Q.

(** A sequence of insertions, the refused ones leaving the store as it is. *)
Definition insert_all (db : Store) (rows : list NewPrediction) : Store :=
  fold_left
    (fun db row => match insert_prediction db row with
                   | inr db' => db'
                   | inl _ => db
                   end)
    rows db.

End Schema.

(** ** The Model Scorer *)

Module Scorer.

Inductive SignalGroup : Type :=
| MarketMovement | InjuryImpact | SentimentContrarian | FormStreak.

Definition signal_groups : list SignalGroup :=
  [MarketMovement; InjuryImpact; SentimentContrarian; FormStreak].

Record Prediction : Type := mkPrediction {
  game_id : string;
  ups_score : Q;
  ups_confidence : Q;
  model_version : string
}.

Inductive ScoringError : Type := ScoringInputInvalid.

Definition clamp (lo hi x : Q) : Q :=
  if Qle_bool x lo then lo else if Qle_bool hi x then hi else x.

Section Model.

(** The feature vector, its mandatory identity fields
    (game, favorite, underdog) and the signed delta each signal group
    derives from it, absent when the features of the group are missing. *)
Variable GameFeatures : Type.
Variable identity : GameFeatures -> option (string * string * string).
Variable version : GameFeatures -> string.
Variable group_delta : SignalGroup -> GameFeatures -> option Q.

(** The weight table is configuration. *)
Variable weight : SignalGroup -> Q.

(** Modelled from the spec: the weighted sum of the Model Scorer, which is
    not among the sources; the contributions of the groups that are
    available, the missing ones being left out. *)
Definition contributions (f : GameFeatures) : list (SignalGroup * Q) :=
  flat_map
    (fun g => match group_delta g f with
              | Some d => [(g, (weight g * d)%Q)]
              | None => []
              end)
    signal_groups.

Definition total (cs : list (SignalGroup * Q)) : Q :=
  fold_right (fun c acc => (snd c + acc)%Q) 0%Q cs.

(** Modelled from the spec: the Model Scorer, [services/pipeline/model_scorer.py],
    which is not among the sources.  Each available signal group adds its
    weighted signed delta to a baseline of 50, missing groups are left out
    of the sum and lower the confidence in proportion, the final score is
    clamped to [0, 100], and the scorer raises only when the identity
    fields are missing. *)
Definition score (f : GameFeatures) : ScoringError + Prediction :=
  match identity f with
  | None => inl ScoringInputInvalid
  | Some (gid, _, _) =>
      let cs := contributions f in
      inr (mkPrediction gid
             (clamp 0 100 (50 + total cs))
             (inject_Z (Z.of_nat (List.length cs)) / 4)
             (version f))
  end.

(** The row the scoring job offers to the store for a prediction. *)
Definition to_row (p : Prediction) : Schema.NewPrediction :=
  Schema.mkNewPrediction (game_id p) (Some (ups_score p)) None (Some (model_version p)).

End Model.

Arguments contributions {GameFeatures}.
Arguments score {GameFeatures}.

End Scorer.

(** ** The Alert Engine *)

Module AlertEngine.

Inductive AlertStatus : Type := pending | sent | delivered | failed | expired.

(** The alert types of table [alert_queue]. *)
Inductive AlertType : Type :=
| ups_threshold | injury_update | odds_movement
| sentiment_shift | game_starting | upset_occurred.

(** A row of [alert_queue]; [attempts] and [failures] count the delivery
    attempts made for the alert and those that failed. *)
Record QueuedAlert : Type := mkQueuedAlert {
  id : nat;
  user_id : option string;            (* [None]: broadcast *)
  game_id : string;
  alert_type : AlertType;
  ups_score : Q;
  previous_ups : Q;
  threshold : Q;
  status : AlertStatus;
  priority : Z;
  retry_count : Z;
  max_retries : Z;
  expires_at : option Z;
  created_at : Z;
  next_attempt_at : Z;
  attempts : Z;
  failures : Z
}.

(** A qualifying event: a new Prediction matched a subscription. *)
Record Qualifying : Type := mkQualifying {
  ev_user_id : option string;
  ev_game_id : string;
  ev_alert_type : AlertType;
  ev_ups_score : Q;
  ev_previous_ups : Q;
  ev_threshold : Q;
  ev_priority : Z;
  ev_expires_at : option Z;
  ev_now : Z
}.

Record Config : Type := mkConfig {
  cfg_max_retries : Z;                (* 3 by default *)
  cfg_backoff_base : Z
}.

Definition Key : Type := (option string * string * AlertType)%type.

Definition key (a : QueuedAlert) : Key := (user_id a, game_id a, alert_type a).
Definition ev_key (e : Qualifying) : Key := (ev_user_id e, ev_game_id e, ev_alert_type e).

Definition AlertType_eqb (x y : AlertType) : bool :=
  match x, y with
  | ups_threshold, ups_threshold | injury_update, injury_update
  | odds_movement, odds_movement | sentiment_shift, sentiment_shift
  | game_starting, game_starting | upset_occurred, upset_occurred => true
  | _, _ => false
  end.

Definition user_eqb (x y : option string) : bool :=
  match x, y with
  | Some a, Some b => String.eqb a b
  | None, None => true
  | _, _ => false
  end.

Definition Key_eqb (x y : Key) : bool :=
  let '(u1, g1, t1) := x in
  let '(u2, g2, t2) := y in
  user_eqb u1 u2 && String.eqb g1 g2 && AlertType_eqb t1 t2.

(** Modelled from the spec: the terminal statuses of a QueuedAlert,
    [delivered] and [expired] (the engine itself is not among the
    sources). *)
Definition terminal (s : AlertStatus) : bool :=
  match s with delivered | expired => true | _ => false end.

Definition non_terminal (a : QueuedAlert) : bool := negb (terminal (status a)).

(** The statuses the deduplication invariant names. *)
Definition pending_or_sent (a : QueuedAlert) : bool :=
  match status a with pending | sent => true | _ => false end.

Definition set_status (s : AlertStatus) (a : QueuedAlert) : QueuedAlert :=
  mkQueuedAlert (id a) (user_id a) (game_id a) (alert_type a) (ups_score a)
    (previous_ups a) (threshold a) s (priority a) (retry_count a) (max_retries a)
    (expires_at a) (created_at a) (next_attempt_at a) (attempts a) (failures a).

Definition refresh (e : Qualifying) (a : QueuedAlert) : QueuedAlert :=
  mkQueuedAlert (id a) (user_id a) (game_id a) (alert_type a) (ev_ups_score e)
    (ev_previous_ups e) (threshold a) (status a) (priority a) (retry_count a)
    (max_retries a) (expires_at a) (created_at a) (next_attempt_at a)
    (attempts a) (failures a).

Definition new_alert (cfg : Config) (i : nat) (e : Qualifying) : QueuedAlert :=
  mkQueuedAlert i (ev_user_id e) (ev_game_id e) (ev_alert_type e) (ev_ups_score e)
    (ev_previous_ups e) (ev_threshold e) pending (ev_priority e) 0
    (cfg_max_retries cfg) (ev_expires_at e) (ev_now e) (ev_now e) 0 0.

Record Engine : Type := mkEngine {
  queue : list QueuedAlert;
  next_id : nat
}.

Definition empty : Engine := mkEngine [] 0.

(** Modelled from the spec: the conditional upsert of the Alert Engine,
    which is not among the sources; the first non-terminal alert of the key
    is refreshed; without one, a new pending alert is added. *)
Fixpoint upsert (cfg : Config) (i : nat) (e : Qualifying) (q : list QueuedAlert)
  : list QueuedAlert :=
  match q with
  | [] => [new_alert cfg i e]
  | a :: rest =>
      if Key_eqb (key a) (ev_key e) && non_terminal a then refresh e a :: rest
      else a :: upsert cfg i e rest
  end.

Definition past (deadline : option Z) (now : Z) : bool :=
  match deadline with
  | Some t => (t <? now)%Z
  | None => false
  end.

(** Modelled from the spec: the start of a delivery attempt of the Alert
    Engine; [pending] becomes [sent], or [expired] when [expires_at] has
    passed. *)
Definition dispatch (now : Z) (a : QueuedAlert) : QueuedAlert :=
  match status a with
  | pending =>
      if past (expires_at a) now then set_status expired a
      else
        mkQueuedAlert (id a) (user_id a) (game_id a) (alert_type a) (ups_score a)
          (previous_ups a) (threshold a) sent (priority a) (retry_count a)
          (max_retries a) (expires_at a) (created_at a) (next_attempt_at a)
          (attempts a + 1) (failures a)
  | _ => a
  end.

Definition transport_ok (a : QueuedAlert) : QueuedAlert :=
  match status a with
  | sent => set_status delivered a
  | _ => a
  end.

(** Modelled from the spec: a failed transport in the Alert Engine; while
    [retry_count < max_retries] the retry is counted and scheduled after an
    exponential backoff; otherwise the retries are exhausted and the alert
    expires. *)
Definition transport_failed (cfg : Config) (now : Z) (a : QueuedAlert) : QueuedAlert :=
  match status a with
  | sent =>
      if (retry_count a <? max_retries a)%Z then
        mkQueuedAlert (id a) (user_id a) (game_id a) (alert_type a) (ups_score a)
          (previous_ups a) (threshold a) failed (priority a) (retry_count a + 1)
          (max_retries a) (expires_at a) (created_at a)
          (now + cfg_backoff_base cfg * 2 ^ retry_count a)
          (attempts a) (failures a + 1)
      else
        mkQueuedAlert (id a) (user_id a) (game_id a) (alert_type a) (ups_score a)
          (previous_ups a) (threshold a) expired (priority a) (retry_count a)
          (max_retries a) (expires_at a) (created_at a) (next_attempt_at a)
          (attempts a) (failures a + 1)
  | _ => a
  end.

(** Modelled from the spec: the retry of the Alert Engine; a failed alert
    becomes [pending] again once its backoff has elapsed, or [expired] when
    [expires_at] has passed. *)
Definition requeue (now : Z) (a : QueuedAlert) : QueuedAlert :=
  match status a with
  | failed =>
      if past (expires_at a) now then set_status expired a
      else if (next_attempt_at a <=? now)%Z then set_status pending a
      else a
  | _ => a
  end.

Definition on_alert (i : nat) (f : QueuedAlert -> QueuedAlert) (q : list QueuedAlert)
  : list QueuedAlert :=
  map (fun a => if Nat.eqb (id a) i then f a else a) q.

Inductive Event : Type :=
| Qualify (e : Qualifying)
| Dispatch (i : nat) (now : Z)
| TransportOk (i : nat)
| TransportFailed (i : nat) (now : Z)
| Requeue (i : nat) (now : Z).

(** Modelled from the spec: the Alert Engine, [services/pipeline/alert_engine.py],
    which is not among the sources.  The state machine of a QueuedAlert is
    [pending -> sent -> delivered], [pending -> sent -> failed -> pending]
    while [retry_count < max_retries], [failed -> expired] when the retries
    are exhausted and [pending -> expired] past [expires_at]; a qualifying
    event refreshes the existing alert of its (user, game, type) unless
    that alert reached a terminal state. *)
Definition step (cfg : Config) (s : Engine) (ev : Event) : Engine :=
  match ev with
  | Qualify e => mkEngine (upsert cfg (next_id s) e (queue s)) (S (next_id s))
  | Dispatch i now => mkEngine (on_alert i (dispatch now) (queue s)) (next_id s)
  | TransportOk i => mkEngine (on_alert i transport_ok (queue s)) (next_id s)
  | TransportFailed i now =>
      mkEngine (on_alert i (transport_failed cfg now) (queue s)) (next_id s)
  | Requeue i now => mkEngine (on_alert i (requeue now) (queue s)) (next_id s)
  end.

Definition run (cfg : Config) (evs : list Event) : Engine :=
  fold_left (step cfg) evs empty.

(** The alerts of a key that are pending or sent. *)
Definition live (k : Key) (q : list QueuedAlert) : list QueuedAlert :=
  filter (fun a => Key_eqb (key a) k && pending_or_sent a) q.

(** The keys of the alerts that are not terminal. *)
Definition open_keys (q : list QueuedAlert) : list Key :=
  map key (filter non_terminal q).

(** The facts of a transition [f] that the invariants use: the key and
    the terminal alerts are left as they are, and no alert leaves a
    terminal state. *)
Definition gentle (f : QueuedAlert -> QueuedAlert) : Prop :=
  forall a,
    key (f a) = key a
    /\ (non_terminal (f a) = true -> non_terminal a = true)
    /\ (terminal (status a) = true -> f a = a).

(** The transition a delivery event applies to the alerts of the queue. *)
Definition transition (cfg : Config) (ev : Event) : QueuedAlert -> QueuedAlert :=
  match ev with
  | Qualify _ => fun a => a
  | Dispatch i now => fun a => if Nat.eqb (id a) i then dispatch now a else a
  | TransportOk i => fun a => if Nat.eqb (id a) i then transport_ok a else a
  | TransportFailed i now =>
      fun a => if Nat.eqb (id a) i then transport_failed cfg now a else a
  | Requeue i now => fun a => if Nat.eqb (id a) i then requeue now a else a
  end.

(** The bookkeeping of an alert: the retries are within their bound and
    the attempts, failures and retries counted agree with the status. *)
Definition counted (a : QueuedAlert) : Prop :=
  (0 <= retry_count a <= max_retries a)%Z
  /\ match status a with
     | sent | delivered =>
         (attempts a = failures a + 1 /\ failures a = retry_count a)%Z
     | pending | failed =>
         (attempts a = failures a /\ failures a = retry_count a)%Z
     | expired =>
         (attempts a = failures a
          /\ retry_count a <= failures a <= retry_count a + 1)%Z
     end.

End AlertEngine.

(** ** The Job Scheduler *)

Module Scheduler.

Inductive RunStatus : Type := running | completed | failed | skipped.

(** A row of [pipeline_runs]. *)
Record JobRun : Type := mkJobRun {
  job_name : string;
  status : RunStatus;
  started_at : Z;
  completed_at : option Z;
  records_processed : Z;
  records_created : Z;
  records_updated : Z;
  error_message : option string
}.

Record Counts : Type := mkCounts {
  processed : Z;
  created : Z;
  updated : Z
}.

Record State : Type := mkState {
  registered : list string;
  runs : list JobRun;
  max_duration : Z                    (* staleness timeout of a running JobRun *)
}.

Inductive Decision : Type :=
| Invoke            (* a JobRun was opened and the handler is started *)
| Skip              (* the tick was skipped: a run is in progress *)
| AlreadyRunning    (* [run_now] refused *)
| UnknownJob.

Definition is_running (name : string) (r : JobRun) : bool :=
  String.eqb (job_name r) name
  && match status r with running => true | _ => false end.

Definition in_progress (name : string) (s : State) : bool :=
  existsb (is_running name) (runs s).

Definition open_run (name : string) (st : RunStatus) (now : Z) : JobRun :=
  mkJobRun name st now
           (match st with running => None | _ => Some now end) 0 0 0 None.

Definition add_run (r : JobRun) (s : State) : State :=
  mkState (registered s) (runs s ++ [r]) (max_duration s).

Definition register (name : string) (s : State) : State :=
  mkState (name :: registered s) (runs s) (max_duration s).

(** Modelled from the spec: a cadence tick of job [name] in the Job
    Scheduler, which is not among the sources; the tick is skipped, and a
    skipped JobRun recorded, while a JobRun of the job is running. *)
Definition tick (name : string) (now : Z) (s : State) : State * Decision :=
  if negb (existsb (String.eqb name) (registered s)) then (s, UnknownJob)
  else if in_progress name s then (add_run (open_run name skipped now) s, Skip)
  else (add_run (open_run name running now) s, Invoke).

(** Modelled from the spec: [run_now(job_name)] of the Job Scheduler; it
    fails with AlreadyRunning while a JobRun of the job is running. *)
Definition run_now (name : string) (now : Z) (s : State) : State * Decision :=
  if negb (existsb (String.eqb name) (registered s)) then (s, UnknownJob)
  else if in_progress name s then (s, AlreadyRunning)
  else (add_run (open_run name running now) s, Invoke).

Definition finalize (name : string) (st : RunStatus) (now : Z) (c : Counts)
  (err : option string) (r : JobRun) : JobRun :=
  if is_running name r then
    mkJobRun (job_name r) st (started_at r) (Some now)
             (processed c) (created c) (updated c) err
  else r.

(** Modelled from the spec: the end of an execution in the Job Scheduler;
    the handler of job [name] returned, or raised, or was cancelled. *)
Definition finish (name : string) (ok : bool) (now : Z) (c : Counts)
  (err : option string) (s : State) : State :=
  mkState (registered s)
          (map (finalize name (if ok then completed else failed) now c
                         (if ok then None else err)) (runs s))
          (max_duration s).

(** Modelled from the spec: the staleness timeout of the Job Scheduler; a
    run that has been running for longer than [max_duration] is finalized
    as failed. *)
Definition reap_one (now max : Z) (r : JobRun) : JobRun :=
  match status r with
  | running =>
      if (started_at r + max <? now)%Z then
        mkJobRun (job_name r) failed (started_at r) (Some now)
                 (records_processed r) (records_created r) (records_updated r)
                 (Some "stale run")
      else r
  | _ => r
  end.

Definition reap (now : Z) (s : State) : State :=
  mkState (registered s) (map (reap_one now (max_duration s)) (runs s))
          (max_duration s).

Inductive Event : Type :=
| Register (name : string)
| Tick (name : string) (now : Z)
| RunNow (name : string) (now : Z)
| Finish (name : string) (ok : bool) (now : Z) (c : Counts) (err : option string)
| Reap (now : Z).

(** Modelled from the spec: the Job Scheduler, [services/pipeline/scheduler.py],
    which is not among the sources.  A tick of a job whose JobRun is still
    running records a skipped JobRun and does not invoke the handler;
    [run_now] fails with AlreadyRunning in that case; otherwise a running
    JobRun is opened, the handler is invoked, and the run is finalized as
    completed or failed. *)
Definition step (s : State) (ev : Event) : State * option Decision :=
  match ev with
  | Register name => (register name s, None)
  | Tick name now => let (s', d) := tick name now s in (s', Some d)
  | RunNow name now => let (s', d) := run_now name now s in (s', Some d)
  | Finish name ok now c err => (finish name ok now c err s, None)
  | Reap now => (reap now s, None)
  end.

Definition run (max : Z) (evs : list Event) : State :=
  fold_left (fun s ev => fst (step s ev)) evs (mkState [] [] max).

(** The JobRuns of job [name] that are running. *)
Definition running_runs (name : string) (s : State) : list JobRun :=
  filter (is_running name) (runs s).

(** What the runs of a reachable state satisfy: one running JobRun per
    job at most, and only for registered jobs. *)
Definition well_formed (s : State) : Prop :=
  (forall n, (List.length (running_runs n s) <= 1)%nat)
  /\ (forall r, In r (runs s) -> In (job_name r) (registered s)).

End Scheduler.

(** ** Sample data used by the examples *)

Module Samples.
Import Js Types GamesContextCommon.

Definition sample_game (i sp start : string) (p : Q) (prime : option bool)
  : GameWithPrediction :=
  mkGameWithPrediction
    (mkGame i sp "Favorites" "Underdogs" start 150 140 (Some upcoming)
            prime None None None None)
    (mkPrediction i i p "v1.0" 5 start)
    (mkMarketSignal i i 60 (-5) 0 start)
    None.

Definition nfl_a : GameWithPrediction := sample_game "1" "NFL" "mon" 58 (Some true).
Definition nfl_b : GameWithPrediction := sample_game "2" "NFL" "mon" 71 None.
Definition nfl_c : GameWithPrediction := sample_game "3" "NFL" "tue" 64 None.
Definition nba_a : GameWithPrediction := sample_game "4" "NBA" "mon" 30 None.

Definition sample_games : list GameWithPrediction := [nfl_a; nba_a; nfl_b; nfl_c].

(** A device on which the label of a date is its text and no date parses. *)
Definition plain_label (s : string) : string := s.
Definition no_time (s : string) : option Z := None.

Definition plain_calendar : Calendar :=
  mkCalendar (fun _ => None) (fun z => z) (fun z => z) (fun z => z).

(** The state the home screen reaches when an NFL slider value is kept
    while the sport is switched to NBA. *)
Definition nba_filter : FilterState :=
  mkFilterState (Some NBA) None 0 (Some 55) None None None None None None.

Definition nfl_filter : FilterState :=
  mkFilterState (Some NFL) None 0 (Some 60) None None None None None None.

Definition plain_fixed (q : Q) : string := "1.0".

Definition quiet_game : Game :=
  mkGame "7" "NBA" "Favorites" "Underdogs" "mon" 150 140 (Some upcoming)
         None None None None None.
Definition quiet_prediction : Prediction := mkPrediction "7" "7" 40 "v1.0" 5 "mon".
Definition quiet_signal : MarketSignal := mkMarketSignal "7" "7" 60 (-5) 0 "mon".

Definition arrowhead_game : GamesApi.ApiGame :=
  GamesApi.mkApiGame "9" "NFL" "Chiefs" "Raiders" "sun" (-250) (-220) upcoming
    (Some true) (Some (-65 # 10)) (Some (-55 # 10)) None None
    (Some "Arrowhead Stadium")
    (mkPrediction "p9" "9" 62 "v2.1" 8 "sat")
    (mkMarketSignal "m9" "9" 74 (-10) (-2 # 10) "sat")
    (Some [mkDriver "Prime time game"]).

(** A client whose request for the games of a sport succeeds. *)
Definition one_game_client (endpoint : string) (params : list (string * string))
  : Outcome GamesApi.GamesApiResponse :=
  Returned (GamesApi.mkGamesApiResponse [arrowhead_game] "2024-11-03T18:00:00Z" true).

Definition syntax_error : JsVal :=
  JObj [("name", JStr "SyntaxError"); ("message", JStr "Unexpected end of JSON input")].

Definition plain_platform (answer : Api.Response) : Api.Platform :=
  Api.mkPlatform (fun _ => Returned answer) (fun u => Returned u)
                 (fun u k v => (u ++ "?" ++ k ++ "=" ++ v)%string)
                 (fun _ => "{}").

(** A server that answers [204 No Content]: the response is ok and its
    body is empty, so [response.json()] rejects. *)
Definition no_content : Api.Response := Api.mkResponse true 204 (Thrown syntax_error).

(** A server that answers [500] with the JSON body [null]. *)
Definition null_body : Api.Response := Api.mkResponse false 500 (Returned JNull).

(** A server that answers [404] with a FastAPI error body. *)
Definition not_found : Api.Response :=
  Api.mkResponse false 404 (Returned (JObj [("detail", JStr "Game not found")])).

(** An unreachable server: [fetch] rejects with a [TypeError]. *)
Definition offline_platform : Api.Platform :=
  Api.mkPlatform (fun _ => Thrown (type_error "Network request failed"))
                 (fun u => Returned u)
                 (fun u k v => (u ++ "?" ++ k ++ "=" ++ v)%string)
                 (fun _ => "{}").

(** A device that has granted the permission and accepts every request,
    numbering the notifications. *)
Definition granting_expo : Notifications.Expo nat :=
  Notifications.mkExpo
    (fun w => (Returned "granted", w))
    (fun w => (Returned "granted", w))
    (fun _ w => (Returned "scheduled", S w))
    (fun _ => "70").

Definition watch_65 : Alert := mkAlert "alert-1" "9" "current-user" 65 false "now".

(** Feature vectors for the scorer examples: the identity fields and the
    deltas of the four groups. *)
Record ToyFeatures : Type := mkToyFeatures {
  toy_identity : option (string * string * string);
  toy_market : option Q;
  toy_injury : option Q;
  toy_sentiment : option Q;
  toy_form : option Q
}.

Definition toy_delta (g : Scorer.SignalGroup) (f : ToyFeatures) : option Q :=
  match g with
  | Scorer.MarketMovement => toy_market f
  | Scorer.InjuryImpact => toy_injury f
  | Scorer.SentimentContrarian => toy_sentiment f
  | Scorer.FormStreak => toy_form f
  end.

Definition toy_weight (g : Scorer.SignalGroup) : Q :=
  match g with
  | Scorer.MarketMovement => 3
  | Scorer.InjuryImpact => 2
  | Scorer.SentimentContrarian => 1
  | Scorer.FormStreak => 1
  end.

Definition toy_score (f : ToyFeatures) : Scorer.ScoringError + Scorer.Prediction :=
  Scorer.score toy_identity (fun _ => "v2.1") toy_delta toy_weight f.

(** Strong signals on two groups, the two others missing. *)
Definition lopsided : ToyFeatures :=
  mkToyFeatures (Some ("9", "Chiefs", "Raiders")) (Some 30) (Some 15) None None.

Definition default_config : AlertEngine.Config := AlertEngine.mkConfig 3 60.

Definition crossing (score previous : Q) (now : Z) : AlertEngine.Qualifying :=
  AlertEngine.mkQualifying (Some "u1") "9" AlertEngine.ups_threshold
                           score previous 65 5 None now.

(** One failed delivery of alert 0 followed by its retry being queued. *)
Definition failed_round (now : Z) : list AlertEngine.Event :=
  [AlertEngine.Dispatch 0 now; AlertEngine.TransportFailed 0 now;
   AlertEngine.Requeue 0 (now + 1000)].

(** An alert whose delivery fails four times with [max_retries = 3]. *)
Definition four_failures : list AlertEngine.Event :=
  [AlertEngine.Qualify (crossing 70 60 0)]
  ++ failed_round 1000 ++ failed_round 3000 ++ failed_round 5000
  ++ [AlertEngine.Dispatch 0 7000; AlertEngine.TransportFailed 0 7000].

(** The alert of the queue after the four failures. *)
Definition exhausted_alert : AlertEngine.QueuedAlert :=
  hd (AlertEngine.new_alert default_config 0 (crossing 70 60 0))
     (AlertEngine.queue (AlertEngine.run default_config four_failures)).

Definition no_counts : Scheduler.Counts := Scheduler.mkCounts 0 0 0.

(** [odds_snapshot] is registered and its first run has not returned. *)
Definition odds_running : list Scheduler.Event :=
  [Scheduler.Register "odds_snapshot"; Scheduler.Tick "odds_snapshot" 0].

End Samples.

(** ** The sport utilities, continued *)

Module SportUtilsMore.
Import Js Types SportUtils.

(** [arr.slice(0, limit)] for an integer [limit]; a negative end counts
    from the end of the array. *)
Definition slice0 {A : Type} (limit : Z) (l : list A) : list A :=
  if (limit <? 0)%Z then firstn (Z.to_nat (Z.of_nat (List.length l) + limit)) l
  else firstn (Z.to_nat limit) l.

(** The body shared, up to the name of the sport, by [getNationalTvGames],
    [getHighStakesGames], [getMarqueeGames], [getFeaturedMatches] and
    [getTopGames]; [limit] defaults to 5. *)
Definition top_games (name : string) (games : list GameWithPrediction)
  (limit : option Z) : list GameWithPrediction :=
  slice0 (match limit with Some n => n | None => 5%Z end)
         (sort by_ups_desc (filter (fun g => String.eqb (sport g) name) games)).

Definition getNationalTvGames (games : list GameWithPrediction) (limit : option Z)
  : list GameWithPrediction := top_games "NBA" games limit.
Definition getHighStakesGames (games : list GameWithPrediction) (limit : option Z)
  : list GameWithPrediction := top_games "MLB" games limit.
Definition getMarqueeGames (games : list GameWithPrediction) (limit : option Z)
  : list GameWithPrediction := top_games "NHL" games limit.
Definition getFeaturedMatches (games : list GameWithPrediction) (limit : option Z)
  : list GameWithPrediction := top_games "Soccer" games limit.
Definition getTopGames (games : list GameWithPrediction) (limit : option Z)
  : list GameWithPrediction := top_games "CFB" games limit.

Definition week_ms : Z := (7 * 24 * 60 * 60 * 1000)%Z.

(** The callback of [games.filter] in [groupGamesByDayThisWeek]; [now] is
    the time of [new Date()], and a date that does not parse compares
    false with everything. *)
Definition this_week (getTime : string -> option Z) (now : Z) (sport : Sport)
  (g : GameWithPrediction) : bool :=
  if negb (String.eqb (Types.sport g) (sport_literal sport)) then false
  else
    match getTime (start_time g) with
    | Some t => (now <=? t)%Z && (t <=? now + week_ms)%Z
    | None => false
    end.

Definition groupGamesByDayThisWeek (dayLabel : string -> string)
  (getTime : string -> option Z) (now : Z)
  (games : list GameWithPrediction) (sport : Sport) : list DayGroup :=
  groupGamesByDay dayLabel getTime (filter (this_week getTime now sport) games) sport.

Definition groupNbaGamesByDay (dayLabel : string -> string)
  (getTime : string -> option Z) (now : Z) (games : list GameWithPrediction)
  : list DayGroup := groupGamesByDayThisWeek dayLabel getTime now games NBA.

(** The labels of [byDay] are pairwise different, and each of them labels
    a non-empty array of games of that day. *)
Definition labelled (dayLabel : string -> string) (m : DayMap) : Prop :=
  NoDup (map fst m)
  /\ forall e, In e m ->
       snd e <> []
       /\ Forall (fun g => dayLabel (start_time g) = fst e) (snd e).

(** The games of a list that are of a sport. *)
Definition of_sport (sport : Sport) (games : list GameWithPrediction)
  : list GameWithPrediction :=
  filter (fun g => String.eqb (Types.sport g) (sport_literal sport)) games.

End SportUtilsMore.

(** ** [GamesContext]: lookup and refresh *)

Module GamesContextMore.
Import Js Types GamesApi.

(** [getGameById] *)
Definition getGameById (games : list GameWithPrediction) (i : string)
  : option GameWithPrediction :=
  find (fun game => String.eqb (id game) i) games.

Definition USE_API : bool := true.

(** The state of the provider. *)
Record ContextState : Type := mkContextState {
  cs_games : list GameWithPrediction;
  cs_filter : FilterState;
  cs_loading : bool;
  cs_error : option JsVal;
  cs_fetchedAt : option string;
  cs_cached : bool
}.

(** [err instanceof Error]: an [Error] object is represented, as by
    [type_error], with its class name under [name]; an object literal
    without that key, such as the [ApiError] the client throws, is not
    one. *)
Definition instanceofError (err : JsVal) : bool :=
  match err with
  | JObj fields =>
      match assoc "name" fields with
      | Some (JStr _) => true
      | _ => false
      end
  | _ => false
  end.

(** [err instanceof Error ? err.message : 'Failed to fetch games'] *)
Definition errorMessage (err : JsVal) : JsVal :=
  if instanceofError err then field err "message" else JStr "Failed to fetch games".

(** The state after [refreshGames], once the promise of [fetchGames] has
    settled with outcome [o]. *)
Definition settle (mock : list GameWithPrediction)
  (o : Outcome FetchGamesResult) (s : ContextState) : ContextState :=
  match o with
  | Returned result =>
      mkContextState (r_games result) (cs_filter s) false None
                     (Some (r_fetchedAt result)) (r_cached result)
  | Thrown err =>
      mkContextState
        (if Nat.eqb (List.length (cs_games s)) 0 then mock else cs_games s)
        (cs_filter s) false (Some (errorMessage err))
        (cs_fetchedAt s) (cs_cached s)
  end.

(** [refreshGames], with [fetch] for [fetchGames] and [mock] for
    [mockGamesWithPredictions]. *)
Definition refreshGames (fetch : option Sport -> Outcome FetchGamesResult)
  (mock : list GameWithPrediction) (s : ContextState) : ContextState :=
  if negb USE_API then s
  else
    let sport := match f_sport (cs_filter s) with Some sp => sp | None => NFL end in
    settle mock (fetch (Some sport)) s.

(** [filter.sport || 'NFL'] *)
Definition filter_sport (s : ContextState) : Sport :=
  match f_sport (cs_filter s) with Some sp => sp | None => NFL end.




End GamesContextMore.

(** ** The screens *)

Module Screens.
Import Js Types GamesContextMore.

Inductive RiskLevel : Type := high | medium | low.

(** [ups > 65 ? 'high' : ups > 50 ? 'medium' : 'low'], as in the alerts
    screen, the game detail screen and the upset card. *)
Definition riskLevel (ups : Q) : RiskLevel :=
  if negb (Qle_bool ups 65) then high
  else if negb (Qle_bool ups 50) then medium
  else low.

(** What [renderAlert] shows of an alert: the pill and the warning line. *)
Record AlertCard : Type := mkAlertCard {
  card_riskLevel : RiskLevel;
  card_text : string;
  card_exceeded : bool
}.

(** [renderAlert] of the alerts screen; [None] is the [null] rendered for
    an alert whose game is not found. *)
Definition renderAlert (games : list GameWithPrediction) (item : Alert)
  : option AlertCard :=
  match getGameById games (a_game_id item) with
  | None => None
  | Some game =>
      let ups := Types.ups game in
      let isTriggered := Qle_bool (threshold item) ups in
      Some (mkAlertCard (riskLevel ups)
                        (if isTriggered then "TRIGGERED" else "WATCHING")
                        isTriggered)
  end.

(** [handleAlert] of the home screen, as a state update of the alerts. *)
Definition handleAlert (now : Z) (iso : string)
  (filteredGames : list GameWithPrediction) (gameId : string)
  (alerts : list Alert) : list Alert :=
  match find (fun g => String.eqb (id g) gameId) filteredGames with
  | Some game => AlertsContext.addAlert now iso gameId (ups game) alerts
  | None => alerts
  end.

(** The button of the game detail screen: the alerts of the game are
    removed one by one when there are any, and an alert at 65 is added
    otherwise. *)
Definition toggleAlert (now : Z) (iso : string) (gameId : string)
  (alerts : list Alert) : list Alert :=
  let mine := AlertsContext.getAlertsForGame alerts gameId in
  if Nat.ltb 0 (List.length mine) then
    fold_left (fun prev alert => AlertsContext.removeAlert (a_id alert) prev) mine alerts
  else AlertsContext.addAlert now iso gameId 65 alerts.

(** Whether alert [a] has the id of one of the alerts of [l]. *)
Definition removed_by (l : list Alert) (a : Alert) : bool :=
  existsb (fun b => String.eqb (a_id a) (a_id b)) l.

(** [filter.minUpsPct ?? 55] and [filter.onlyX ?? false]: what the home
    screen shows on the slider and on the switch. *)
Definition shown_minUpsPct (f : FilterState) : Q :=
  match minUpsPct f with Some m => m | None => 55 end.
Definition shown (b : option bool) : bool :=
  match b with Some v => v | None => false end.

Definition handleNflFilterChange (f : FilterState) (newMinUpsPct : Q)
  (newOnlyPrimeTime : bool) : FilterState :=
  mkFilterState (f_sport f) (f_date f) (confidenceThreshold f) (Some newMinUpsPct)
    (Some newOnlyPrimeTime) (onlyNationalTv f) (onlyHighStakes f) (onlyMarquee f)
    (onlyFeatured f) (onlyTopGames f).

Definition handleNbaFilterChange (f : FilterState) (newMinUpsPct : Q)
  (newOnlyNationalTv : bool) : FilterState :=
  mkFilterState (f_sport f) (f_date f) (confidenceThreshold f) (Some newMinUpsPct)
    (onlyPrimeTime f) (Some newOnlyNationalTv) (onlyHighStakes f) (onlyMarquee f)
    (onlyFeatured f) (onlyTopGames f).

Definition handleMlbFilterChange (f : FilterState) (newMinUpsPct : Q)
  (newOnlyHighStakes : bool) : FilterState :=
  mkFilterState (f_sport f) (f_date f) (confidenceThreshold f) (Some newMinUpsPct)
    (onlyPrimeTime f) (onlyNationalTv f) (Some newOnlyHighStakes) (onlyMarquee f)
    (onlyFeatured f) (onlyTopGames f).

Definition handleNhlFilterChange (f : FilterState) (newMinUpsPct : Q)
  (newOnlyMarquee : bool) : FilterState :=
  mkFilterState (f_sport f) (f_date f) (confidenceThreshold f) (Some newMinUpsPct)
    (onlyPrimeTime f) (onlyNationalTv f) (onlyHighStakes f) (Some newOnlyMarquee)
    (onlyFeatured f) (onlyTopGames f).

Definition handleSoccerFilterChange (f : FilterState) (newMinUpsPct : Q)
  (newOnlyFeatured : bool) : FilterState :=
  mkFilterState (f_sport f) (f_date f) (confidenceThreshold f) (Some newMinUpsPct)
    (onlyPrimeTime f) (onlyNationalTv f) (onlyHighStakes f) (onlyMarquee f)
    (Some newOnlyFeatured) (onlyTopGames f).

Definition handleCfbFilterChange (f : FilterState) (newMinUpsPct : Q)
  (newOnlyTopGames : bool) : FilterState :=
  mkFilterState (f_sport f) (f_date f) (confidenceThreshold f) (Some newMinUpsPct)
    (onlyPrimeTime f) (onlyNationalTv f) (onlyHighStakes f) (onlyMarquee f)
    (onlyFeatured f) (Some newOnlyTopGames).

(** The switches of the sport-specific filter bars. *)
Inductive Switch : Type :=
| PrimeTime | NationalTv | HighStakes | Marquee | Featured | TopGames.

(** The callback each filter bar receives for its switch, e.g.
    [(value) => handleNflFilterChange(minUpsPct, value)]. *)
Definition setSwitch (sw : Switch) (f : FilterState) (value : bool) : FilterState :=
  match sw with
  | PrimeTime => handleNflFilterChange f (shown_minUpsPct f) value
  | NationalTv => handleNbaFilterChange f (shown_minUpsPct f) value
  | HighStakes => handleMlbFilterChange f (shown_minUpsPct f) value
  | Marquee => handleNhlFilterChange f (shown_minUpsPct f) value
  | Featured => handleSoccerFilterChange f (shown_minUpsPct f) value
  | TopGames => handleCfbFilterChange f (shown_minUpsPct f) value
  end.

(** [handleSportSelect] of the filter bar: the local selection and the
    filter passed to [onFilterChange]. *)
Definition Sport_eqb (a b : Sport) : bool :=
  String.eqb (sport_literal a) (sport_literal b).

Definition handleSportSelect (selectedSport : option Sport) (sport : Sport)
  (currentFilter : FilterState) : option Sport * FilterState :=
  let newSport :=
    match selectedSport with
    | Some s => if Sport_eqb s sport then None else Some sport
    | None => Some sport
    end in
  (newSport,
   mkFilterState newSport (f_date currentFilter) (confidenceThreshold currentFilter)
     (minUpsPct currentFilter) (onlyPrimeTime currentFilter)
     (onlyNationalTv currentFilter) (onlyHighStakes currentFilter)
     (onlyMarquee currentFilter) (onlyFeatured currentFilter)
     (onlyTopGames currentFilter)).

End Screens.

(** ** [api.ts], continued *)

Module ApiMore.
Import Js Api.

(** [await response.json().catch(() => ({}))] *)
Definition errorData (r : Response) : JsVal :=
  match json r with
  | Returned v => v
  | Thrown _ => JObj []
  end.

(** A value whose properties can be read. *)
Definition readable (v : JsVal) : Prop := v <> JNull /\ v <> JUndefined.

Definition get_request (pf : Platform) (u : string)
  (params : option (list (string * string))) : Request :=
  mkRequest (with_params pf u params) "GET" json_headers None.

Definition post_request (pf : Platform) (baseUrl endpoint : string) (data : JsVal)
  : Request :=
  mkRequest (baseUrl ++ endpoint)%string "POST" json_headers
            (if truthy data then Some (stringify pf data) else None).

(** [healthCheck] *)
Definition healthCheck (pf : Platform) (baseUrl : string) : Outcome JsVal :=
  get pf baseUrl "/health" None.

End ApiMore.

(** ** The notification service, continued *)

Module NotificationsMore.
Import Js Types Notifications.

(** A device on which the permission is not granted, asked or not. *)
Definition refusing {W : Type} (expo : Expo W) : Prop :=
  (forall w, fst (getPermissionsAsync expo w) <> Returned "granted")
  /\ (forall w, fst (requestPermissionsAsync expo w) <> Returned "granted").

(** A device on which the permission is granted and every request to
    schedule a notification is accepted. *)
Definition accepting {W : Type} (expo : Expo W) : Prop :=
  (forall w, fst (getPermissionsAsync expo w) = Returned "granted")
  /\ (forall c w, exists i, fst (scheduleNotificationAsync expo c w) = Returned i).

(** The test [checkAlerts] makes for an alert. *)
Definition due (getGameUps : string -> option Q) (alert : Alert) : bool :=
  negb (triggered alert) && reaches (getGameUps (a_game_id alert)) alert.

(** The notification [checkAlerts] asks for when an alert is due. *)
Definition notice {W : Type} (expo : Expo W) (getGameUps : string -> option Q)
  (alert : Alert) : list NotificationContent :=
  match getGameUps (a_game_id alert) with
  | Some currentUps =>
      if due getGameUps alert
      then [alert_content expo alert (mkGameInfo "Team A" "Team B" currentUps)]
      else []
  | None => []
  end.

End NotificationsMore.

(** ** [mockData.ts] and the store, continued *)

Module MockDataMore.
Import Js Types MockData.

(** A game has its prediction and its market signal in the mock tables. *)
Definition has_data (predictions : list Prediction) (signals : list MarketSignal)
  (g : Game) : Prop :=
  (exists p, In p predictions /\ p_game_id p = g_id g)
  /\ (exists m, In m signals /\ m_game_id m = g_id g).

(** The prediction and the market signal joined to a game are its own. *)
Definition joined (x : GameWithPrediction) : Prop :=
  p_game_id (prediction x) = g_id (game x)
  /\ m_game_id (marketSignal x) = g_id (game x).

End MockDataMore.

Module SchemaMore.
Import Schema.

(** The key of the constraint [UNIQUE(game_id, model_version)]. *)
Definition version_key (r : PredictionRow) : string * string :=
  (pr_game_id r, pr_model_version r).

(** The constraints of [predictions] that relate rows: the unique key and
    the reference to [games]. *)
Definition consistent (db : Store) : Prop :=
  NoDup (map version_key (predictions db))
  /\ forall r, In r (predictions db) -> In (pr_game_id r) (game_ids db).

(** The model version a row is stored under: the one given, or the default
    of the column, [DEFAULT 'v1.0']. *)
Definition stored_version (row : NewPrediction) : string :=
  match np_model_version row with Some v => v | None => "v1.0" end.

(** The declared lengths: [game_id VARCHAR(50)] and
    [model_version VARCHAR(20)]. *)
Definition within_lengths (row : NewPrediction) : bool :=
  (String.length (np_game_id row) <=? 50)%nat
  && (String.length (stored_version row) <=? 20)%nat.

End SchemaMore.

(** ** More sample data *)

Module MoreSamples.
Import Js Types Samples.

(** A device on which the permission is denied. *)
Definition denying_expo : Notifications.Expo nat :=
  Notifications.mkExpo
    (fun w => (Returned "undetermined", w))
    (fun w => (Returned "denied", S w))
    (fun _ w => (Returned "scheduled", S w))
    (fun _ => "70").

Definition all_off : FilterState :=
  mkFilterState (Some NFL) None 0 None None None None None None None.

Definition day_filter : FilterState :=
  mkFilterState (Some NFL) (Some (Some 5%Z)) 0 None None None None None None None.

(** A calendar in which the start time "mon" is day 5 of month 5 of year 5. *)
Definition toy_calendar : GamesContextCommon.Calendar :=
  GamesContextCommon.mkCalendar
    (fun s => if String.eqb s "mon" then Some 5%Z else None)
    (fun z => z) (fun z => z) (fun z => z).

Definition prime_filter : FilterState :=
  mkFilterState (Some NFL) None 0 None (Some true) None None None None None.

(** A gateway that answers [502] with an HTML page. *)
Definition bad_gateway : Api.Response :=
  Api.mkResponse false 502 (Thrown syntax_error).

Definition loaded_state : GamesContextMore.ContextState :=
  GamesContextMore.mkContextState sample_games all_off false None
    (Some "2024-11-03T18:00:00Z") true.

(** The typed view of a client whose server answers [404]. *)
Definition not_found_client (endpoint : string) (params : list (string * string))
  : Outcome GamesApi.GamesApiResponse :=
  match Api.get (plain_platform not_found) "https://api.upsetiq.com" endpoint
                (Some params) with
  | Returned _ => Returned (GamesApi.mkGamesApiResponse [] "" false)
  | Thrown e => Thrown e
  end.

Definition one_driver_game : GameWithPrediction :=
  mkGameWithPrediction quiet_game quiet_prediction quiet_signal
                       (Some [mkDriver "Sharp money on underdog"]).

(** A database with one game and no prediction. *)
Definition one_game_store : Schema.Store := Schema.mkStore ["9"] [].

(** A row whose probability, 12.345, lies halfway between two hundredths. *)
Definition halfway_row : Schema.NewPrediction :=
  Schema.mkNewPrediction "9" (Some (12345 # 1000)) None None.

Definition halfway_stored : Schema.PredictionRow :=
  Schema.mkPredictionRow "9" (1235 # 100) None "v1.0".

End MoreSamples.

(* ===================================================================== *)
(** * Part II: theorems                                                   *)
(* ===================================================================== *)

(** ** Facts about [Array.prototype.sort] *)

Module JsFacts.
Import Js.

Section SortPerm.
Context {A : Type}.
Variable cmp : A -> A -> comparison.

Lemma insert_perm (x : A) (l : list A) : Permutation (insert cmp x l) (x :: l).
Proof.
  induction l as [|y l IH]; simpl.
  - reflexivity.
  - destruct (cmp x y); try reflexivity;
      (rewrite perm_swap; apply perm_skip; exact IH).
Qed.

Lemma fold_insert_perm (l acc : list A) :
  Permutation (fold_left (fun a x => insert cmp x a) l acc) (acc ++ l).
Proof.
  revert acc; induction l as [|x l IH]; intros acc; simpl.
  - rewrite app_nil_r. reflexivity.
  - rewrite IH, insert_perm.
    change (x :: acc) with ([x] ++ acc).
    rewrite (Permutation_app_comm [x] acc), <- app_assoc. reflexivity.
Qed.

Lemma sort_perm (l : list A) : Permutation (sort cmp l) l.
Proof. unfold sort. rewrite fold_insert_perm. reflexivity. Qed.

Lemma sort_In (l : list A) (x : A) : In x (sort cmp l) <-> In x l.
Proof.
  split; apply Permutation_in; [apply sort_perm | symmetry; apply sort_perm].
Qed.

Lemma sort_length (l : list A) : List.length (sort cmp l) = List.length l.
Proof. apply Permutation_length, sort_perm. Qed.

End SortPerm.

Section SortSorted.
Context {A : Type}.
Variable cmp : A -> A -> comparison.
Variable R : A -> A -> Prop.
Hypothesis cmp_lt : forall x y, cmp x y = Lt -> R x y.
Hypothesis cmp_ge : forall x y, cmp x y <> Lt -> R y x.

Lemma insert_HdRel (a x : A) (l : list A) :
  R a x -> HdRel R a l -> HdRel R a (insert cmp x l).
Proof.
  intros Hax Hal. destruct l as [|y l]; simpl.
  - constructor; exact Hax.
  - inversion Hal; subst. destruct (cmp x y); constructor; assumption.
Qed.

Lemma insert_sorted (x : A) (l : list A) :
  Sorted R l -> Sorted R (insert cmp x l).
Proof.
  induction 1 as [|y l Hs IH Hh]; simpl.
  - repeat constructor.
  - destruct (cmp x y) eqn:E.
    + constructor; [exact IH|].
      apply insert_HdRel; [apply cmp_ge; congruence | exact Hh].
    + constructor; [constructor; assumption|].
      constructor. apply cmp_lt; exact E.
    + constructor; [exact IH|].
      apply insert_HdRel; [apply cmp_ge; congruence | exact Hh].
Qed.

Lemma fold_insert_sorted (l acc : list A) :
  Sorted R acc -> Sorted R (fold_left (fun a x => insert cmp x a) l acc).
Proof.
  revert acc; induction l as [|x l IH]; intros acc Hacc; simpl.
  - exact Hacc.
  - apply IH, insert_sorted, Hacc.
Qed.

Lemma sort_sorted (l : list A) : Sorted R (sort cmp l).
Proof. apply fold_insert_sorted. constructor. Qed.

End SortSorted.

End JsFacts.

(** ** [groupGamesByDay] *)

Module SportUtilsFacts.
Import Js Types SportUtils JsFacts.

Lemma ups_desc_trans : Transitive ups_desc.
Proof. unfold ups_desc; intros a b c Hab Hbc. lra. Qed.

Lemma by_ups_desc_lt (x y : GameWithPrediction) :
  by_ups_desc x y = Lt -> ups_desc x y.
Proof.
  unfold by_ups_desc, sign, ups_desc. intros H.
  apply Qlt_alt in H. lra.
Qed.

Lemma by_ups_desc_ge (x y : GameWithPrediction) :
  by_ups_desc x y <> Lt -> ups_desc y x.
Proof.
  unfold by_ups_desc, sign, ups_desc. intros H.
  destruct (Qlt_le_dec (ups y - ups x) 0) as [Hlt|Hle].
  - apply Qlt_alt in Hlt. contradiction.
  - lra.
Qed.

Lemma sort_by_ups_desc_sorted (l : list GameWithPrediction) :
  StronglySorted ups_desc (sort by_ups_desc l).
Proof.
  apply Sorted_StronglySorted; [exact ups_desc_trans|].
  apply sort_sorted; [exact by_ups_desc_lt | exact by_ups_desc_ge].
Qed.

Lemma map_get_In (k : string) (m : DayMap) (arr : list GameWithPrediction) :
  map_get k m = Some arr -> exists k', In (k', arr) m.
Proof.
  induction m as [|[k' a] m IH]; simpl; [discriminate|].
  destruct (String.eqb k' k).
  - intros [= <-]. exists k'. now left.
  - intros H. destruct (IH H) as [k'' Hin]. exists k''. now right.
Qed.

Lemma map_set_In (k : string) (arr : list GameWithPrediction) (m : DayMap)
  (e : string * list GameWithPrediction) :
  In e (map_set k arr m) -> snd e = arr \/ In e m.
Proof.
  induction m as [|[k' a] m IH]; simpl.
  - intros [<-|[]]. now left.
  - destruct (String.eqb k' k); simpl.
    + intros [<-|H]; [now left | right; now right].
    + intros [<-|H]; [right; now left|].
      destruct (IH H) as [?|?]; [now left | right; now right].
Qed.

Section Collect.
Variable dayLabel : string -> string.
Variable sport : Sport.
Variable P : GameWithPrediction -> Prop.

Lemma add_game_inv (m : DayMap) (g : GameWithPrediction) :
  P g ->
  (forall e, In e m -> Forall P (snd e)) ->
  forall e, In e (add_game dayLabel m g) -> Forall P (snd e).
Proof.
  intros Hg Hm e He. unfold add_game in He.
  apply map_set_In in He. destruct He as [-> | He]; [|now apply Hm].
  apply Forall_app; split; [|now repeat constructor].
  destruct (map_get _ m) as [a|] eqn:E; [|constructor].
  destruct (map_get_In _ _ _ E) as [k' Hin]. exact (Hm _ Hin).
Qed.

Lemma collect_inv (l : list GameWithPrediction) (m : DayMap) :
  (forall g, In g l -> Types.sport g = sport_literal sport -> P g) ->
  (forall e, In e m -> Forall P (snd e)) ->
  forall e,
    In e (fold_left
            (fun byDay g =>
               if negb (String.eqb (Types.sport g) (sport_literal sport)) then byDay
               else add_game dayLabel byDay g) l m) ->
    Forall P (snd e).
Proof.
  revert m; induction l as [|g l IH]; intros m Hl Hm e; simpl.
  - apply Hm.
  - apply IH.
    + intros g' Hg'. apply Hl. now right.
    + destruct (String.eqb (Types.sport g) (sport_literal sport)) eqn:E; simpl.
      * apply add_game_inv; [|exact Hm].
        apply Hl; [now left | now apply String.eqb_eq].
      * exact Hm.
Qed.

End Collect.

(** C9. Every group returned by [groupGamesByDay games sport] holds only
    games of [games] whose sport is the requested one, and lists them by
    non-increasing [prediction.upset_probability]: each game stands before
    all games of its group with a lower or equal probability. *)
Theorem groupGamesByDay_sport_and_order :
  forall (dayLabel : string -> string) (getTime : string -> option Z)
         (games : list GameWithPrediction) (sport : Sport) (grp : DayGroup),
    In grp (groupGamesByDay dayLabel getTime games sport) ->
    (forall g, In g (dg_games grp) ->
               Types.sport g = sport_literal sport /\ In g games)
    /\ StronglySorted ups_desc (dg_games grp).
Proof.
  intros dayLabel getTime games sport grp Hin.
  unfold groupGamesByDay in Hin.
  apply sort_In in Hin. apply in_map_iff in Hin.
  destruct Hin as [[k arr] [<- He]]; simpl.
  split.
  - intros g Hg. apply sort_In in Hg.
    pose proof (collect_inv dayLabel sport
                  (fun g => Types.sport g = sport_literal sport /\ In g games)
                  games []) as Hinv.
    unfold collect in He.
    specialize (Hinv (fun g Hg Hs => conj Hs Hg) (fun e (F : In e []) => match F with end)
                     _ He).
    simpl in Hinv. rewrite Forall_forall in Hinv. now apply Hinv.
  - apply sort_by_ups_desc_sorted.
Qed.

End SportUtilsFacts.

Module SportUtilsExamples.
Import Js Types SportUtils SportUtilsFacts Samples.

Example groupGamesByDay_sample :
  groupGamesByDay plain_label no_time sample_games NFL
  = [mkDayGroup "mon" [nfl_b; nfl_a]; mkDayGroup "tue" [nfl_c]].
Proof. vm_compute. reflexivity. Qed.

Lemma groupGamesByDay_sport_and_order_witness :
  In (mkDayGroup "mon" [nfl_b; nfl_a])
     (groupGamesByDay plain_label no_time sample_games NFL)
  /\ ((forall g, In g [nfl_b; nfl_a] ->
                 Types.sport g = "NFL" /\ In g sample_games)
      /\ StronglySorted ups_desc [nfl_b; nfl_a]).
Proof.
  assert (Hin : In (mkDayGroup "mon" [nfl_b; nfl_a])
                   (groupGamesByDay plain_label no_time sample_games NFL))
    by (vm_compute; left; reflexivity).
  split; [exact Hin|].
  exact (groupGamesByDay_sport_and_order plain_label no_time sample_games NFL _ Hin).
Defined.

End SportUtilsExamples.

(** ** [AlertsContext]: the watches of the client *)

Module AlertsContextFacts.
Import Js Types AlertsContext.

(** The client keeps one watch per call of [addAlert]: a second call for
    the same game adds a second watch. *)
Lemma addAlert_appends (now : Z) (iso gameId : string) (t : AlertThreshold)
  (prev : list Alert) :
  List.length (getAlertsForGame (addAlert now iso gameId t prev) gameId)
  = S (List.length (getAlertsForGame prev gameId)).
Proof.
  unfold getAlertsForGame, addAlert. rewrite filter_app, length_app. simpl.
  rewrite String.eqb_refl. simpl. lia.
Qed.

End AlertsContextFacts.

(** ** [filteredGames] *)

Module GamesContextFacts.
Import Js Types GamesContextCommon Samples.

Lemma Qltb_false (a b : Q) : Qltb a b = false -> (b <= a)%Q.
Proof.
  unfold Qltb. intros H. apply negb_false_iff in H. now apply Qle_bool_iff.
Qed.

Lemma sport_mismatch_false (f : FilterState) (g : GameWithPrediction) :
  sport_mismatch f g = false ->
  forall s, f_sport f = Some s -> sport g = sport_literal s.
Proof.
  unfold sport_mismatch. intros H s Hs. rewrite Hs in H.
  apply negb_false_iff in H. now apply String.eqb_eq.
Qed.

Lemma keep_sound (cal : Calendar) (games : list GameWithPrediction)
  (f : FilterState) (g : GameWithPrediction) :
  GamesContext.keep cal games f g = true ->
  (forall s, f_sport f = Some s -> sport g = sport_literal s)
  /\ (GamesContext.applicable_min f <= ups g)%Q.
Proof.
  unfold GamesContext.keep, GamesContext.applicable_min. intros H.
  destruct (sport_mismatch f g) eqn:Hs; [discriminate|].
  split; [now apply sport_mismatch_false|].
  destruct (minUpsPct f) as [m|].
  - destruct (Qltb (ups g) m) eqn:Hm; [discriminate | now apply Qltb_false].
  - destruct (Qltb (ups g) (confidenceThreshold f)) eqn:Hm;
      [discriminate | now apply Qltb_false].
Qed.

Lemma upsetiq_keep_sound (cal : Calendar) (f : FilterState) (g : GameWithPrediction) :
  UpsetiqGamesContext.keep cal f g = true ->
  (forall s, f_sport f = Some s -> sport g = sport_literal s)
  /\ (UpsetiqGamesContext.applicable_min f g <= ups g)%Q.
Proof.
  unfold UpsetiqGamesContext.keep, UpsetiqGamesContext.applicable_min. intros H.
  destruct (sport_mismatch f g) eqn:Hs; [discriminate|].
  split; [now apply sport_mismatch_false|].
  destruct (String.eqb (sport g) "NFL"), (minUpsPct f) as [m|];
    match type of H with
    | (if Qltb ?a ?b then _ else _) = _ =>
        destruct (Qltb a b) eqn:Hm; [discriminate | now apply Qltb_false]
    end.
Qed.

(** C8, as amended.  Every game of [filteredGames] is a game of the input
    list, has the sport of the filter whenever the filter names one, and has
    an upset probability at or above the minimum its copy of the context
    applies: in [frontend/], [minUpsPct] when defined and otherwise
    [confidenceThreshold]; in [upsetiq/frontend/], [minUpsPct] only when it
    is defined and the game is an NFL game, otherwise [confidenceThreshold]. *)
Theorem filteredGames_sound :
  forall (cal : Calendar) (games : list GameWithPrediction) (f : FilterState)
         (g : GameWithPrediction),
    (In g (GamesContext.filteredGames cal games f) ->
       In g games
       /\ (forall s, f_sport f = Some s -> sport g = sport_literal s)
       /\ (GamesContext.applicable_min f <= ups g)%Q)
    /\ (In g (UpsetiqGamesContext.filteredGames cal games f) ->
       In g games
       /\ (forall s, f_sport f = Some s -> sport g = sport_literal s)
       /\ (UpsetiqGamesContext.applicable_min f g <= ups g)%Q).
Proof.
  intros cal games f g. split; intros Hin; apply filter_In in Hin;
    destruct Hin as [Hin Hk]; (split; [exact Hin|]).
  - now apply (keep_sound cal games).
  - now apply (upsetiq_keep_sound cal).
Qed.

Lemma filteredGames_sound_witness :
  (In nfl_b (GamesContext.filteredGames plain_calendar sample_games nfl_filter)
   /\ In nfl_b (UpsetiqGamesContext.filteredGames plain_calendar sample_games nfl_filter))
  /\ (In nfl_b sample_games /\ sport nfl_b = "NFL" /\ (60 <= ups nfl_b)%Q).
Proof.
  assert (H1 : In nfl_b (GamesContext.filteredGames plain_calendar sample_games nfl_filter))
    by (vm_compute; left; reflexivity).
  assert (H2 : In nfl_b (UpsetiqGamesContext.filteredGames plain_calendar sample_games nfl_filter))
    by (vm_compute; left; reflexivity).
  split; [split; assumption|].
  destruct (filteredGames_sound plain_calendar sample_games nfl_filter nfl_b) as [F _].
  destruct (F H1) as [Ha [Hb Hc]].
  split; [exact Ha|]. split; [exact (Hb NFL eq_refl) | exact Hc].
Defined.

(** C8, as stated, fails on the older copy: with the sport switched to NBA
    and [minUpsPct = 55] still in the filter, an NBA game with an upset
    probability of 30 is shown, although 30 is below the minimum the claim
    calls applicable. *)
Lemma upsetiq_filteredGames_below_minUpsPct :
  In nba_a (UpsetiqGamesContext.filteredGames plain_calendar sample_games nba_filter)
  /\ minUpsPct nba_filter = Some 55%Q
  /\ ~ (GamesContext.applicable_min nba_filter <= ups nba_a)%Q.
Proof.
  split; [vm_compute; left; reflexivity|].
  split; [reflexivity|].
  vm_compute. intros H. apply H. reflexivity.
Qed.

End GamesContextFacts.

(** ** [mockData.ts]: drivers and key signals *)

Module MockDataFacts.
Import Js Types MockData Samples.

Lemma pad_to_three_spec {A : Type} (x : A) (xs : list A) :
  pad_to_three x xs = xs ++ repeat x (3 - List.length xs).
Proof.
  funelim (pad_to_three x xs).
  - match goal with IH : pad_to_three _ _ = _ ++ _ |- _ => rewrite IH end.
    rewrite length_app, <- app_assoc. f_equal.
    clear -l. revert l. generalize (List.length xs). intros k Hk.
    destruct k as [|[|[|k]]]; simpl; solve [reflexivity | lia].
  - assert (E : (3 - List.length xs = 0)%nat) by lia.
    rewrite E. simpl. now rewrite app_nil_r.
Qed.

Lemma pad_to_three_length {A : Type} (x : A) (xs : list A) :
  (3 <= List.length (pad_to_three x xs))%nat.
Proof. rewrite pad_to_three_spec, length_app, repeat_length. lia. Qed.

Lemma firstn_three_nonempty {A : Type} (l : list A) :
  (3 <= List.length l)%nat -> List.length (firstn 3 l) = 3%nat.
Proof. intros H. rewrite length_firstn. lia. Qed.

(** C6. The key signals shown for a game are never empty, and neither are
    the drivers attached to a mock game; when no individual signal clears
    its threshold, the list consists of the generic label
    "Model confidence high". *)
Theorem key_signals_never_empty :
  forall (toFixed1 : Q -> string) (g : GameWithPrediction)
         (gm : Game) (p : Prediction) (m : MarketSignal),
    getKeySignals g <> []
    /\ (exists ds, drivers (with_drivers toFixed1 gm p m) = Some ds
                   /\ (3 <= List.length ds <= 6)%nat
                   /\ (signal_drivers toFixed1 gm p m = [] ->
                       ds = repeat (mkDriver fallback_label) 3))
    /\ ((drivers g = None \/ drivers g = Some []) ->
        market_signals g = [] ->
        getKeySignals g = repeat fallback_label 3).
Proof.
  intros toFixed1 g gm p m. split; [|split].
  - unfold getKeySignals.
    assert (Hpad : firstn 3 (pad_to_three fallback_label (market_signals g)) <> []).
    { intros E. apply (f_equal (@List.length string)) in E.
      rewrite firstn_three_nonempty in E by apply pad_to_three_length.
      discriminate. }
    destruct (drivers g) as [[|d ds]|]; try exact Hpad.
    simpl. discriminate.
  - eexists. split; [reflexivity|]. split.
    + rewrite length_firstn.
      pose proof (pad_to_three_length (mkDriver fallback_label)
                    (signal_drivers toFixed1 gm p m)). lia.
    + intros ->. reflexivity.
  - intros Hd Hs. unfold getKeySignals. rewrite Hs.
    destruct Hd as [-> | ->]; reflexivity.
Qed.

Lemma key_signals_never_empty_witness :
  getKeySignals (with_drivers plain_fixed quiet_game quiet_prediction quiet_signal)
    = repeat fallback_label 3
  /\ getKeySignals (mkGameWithPrediction quiet_game quiet_prediction quiet_signal None)
    = repeat fallback_label 3.
Proof.
  destruct (key_signals_never_empty plain_fixed
              (mkGameWithPrediction quiet_game quiet_prediction quiet_signal None)
              quiet_game quiet_prediction quiet_signal) as [_ [_ H]].
  split; [vm_compute; reflexivity|].
  apply H; [left; reflexivity | vm_compute; reflexivity].
Defined.

End MockDataFacts.

(** ** The transformation of an API game *)

Module GamesApiFacts.
Import Js Types GamesApi Samples.

Lemma field_obj (fields : list (string * JsVal)) (k : string) :
  field (JObj fields) k = lookup k fields.
Proof. unfold field, lookup; simpl. now destruct (assoc k fields). Qed.

Lemma assoc_decoded_absent (k : string) (slots : Slots) :
  ~ In k (map fst slots) -> assoc k (decoded slots) = None.
Proof.
  induction slots as [|[k' [v|]] rest IH]; simpl; intros Hn; try reflexivity.
  - destruct (String.eqb k' k) eqn:E.
    + apply String.eqb_eq in E. tauto.
    + apply IH. tauto.
  - apply IH. tauto.
Qed.

Lemma lookup_decoded_literal (k : string) (slots : Slots) :
  NoDup (map fst slots) -> lookup k (decoded slots) = lookup k (literal slots).
Proof.
  unfold lookup.
  induction slots as [|[k' [v|]] rest IH]; simpl; intros Hnd; try reflexivity;
    inversion Hnd as [|? ? Hnotin Hnd']; subst.
  - destruct (String.eqb k' k); [reflexivity | now apply IH].
  - destruct (String.eqb k' k) eqn:E.
    + apply String.eqb_eq in E; subst. now rewrite assoc_decoded_absent.
    + now apply IH.
Qed.

Lemma lookup_literal_drop_key (k v : string) (slots : Slots) :
  k <> v -> lookup k (literal (drop_key v slots)) = lookup k (literal slots).
Proof.
  unfold lookup. intros Hkv.
  induction slots as [|[k' x] rest IH]; simpl; [reflexivity|].
  destruct (String.eqb k' v) eqn:Ev; simpl.
  - apply String.eqb_eq in Ev; subst k'.
    destruct (String.eqb v k) eqn:Ek; [apply String.eqb_eq in Ek; congruence|].
    exact IH.
  - destruct (String.eqb k' k); [reflexivity | exact IH].
Qed.

Lemma lookup_literal_dropped (v : string) (slots : Slots) :
  lookup v (literal (drop_key v slots)) = JUndefined.
Proof.
  unfold lookup.
  induction slots as [|[k' x] rest IH]; simpl; [reflexivity|].
  destruct (String.eqb k' v) eqn:Ev; simpl; [exact IH|].
  rewrite Ev. exact IH.
Qed.

Lemma transformApiGame_slots (g : ApiGame) :
  GameWithPrediction_slots (transformApiGame g) = drop_key "venue" (ApiGame_slots g).
Proof. reflexivity. Qed.

Lemma ApiGame_slots_NoDup (g : ApiGame) : NoDup (map fst (ApiGame_slots g)).
Proof.
  simpl. repeat (constructor; [simpl; intuition discriminate|]). constructor.
Qed.

Lemma transformApiGame_prediction (g : ApiGame) :
  prediction (transformApiGame g) = api_prediction g.
Proof. simpl. now destruct (api_prediction g). Qed.

Lemma transformApiGame_marketSignal (g : ApiGame) :
  marketSignal (transformApiGame g) = api_marketSignal g.
Proof. simpl. now destruct (api_marketSignal g). Qed.

(** C7, as amended.  When the request [GET /games?sport=S] succeeds,
    [fetchGames] returns the games of the response, each transformed, with
    the [fetched_at] timestamp and the [cached] flag of the response; the
    transformation keeps the prediction and the market signal as they are
    and every field of the API game except [venue] reads the same in the
    transformed game; [venue] is not carried over. *)
Theorem fetchGames_preserves_fields :
  forall (get : string -> list (string * string) -> Outcome GamesApiResponse)
         (S : Sport) (r : GamesApiResponse),
    get "/games" [("sport", sport_literal S)] = Returned r ->
    fetchGames get (Some S)
      = Returned (mkFetchGamesResult (map transformApiGame (games r))
                                     (fetched_at r) (cached r))
    /\ forall g, In g (games r) ->
         prediction (transformApiGame g) = api_prediction g
         /\ marketSignal (transformApiGame g) = api_marketSignal g
         /\ (forall k, k <> "venue" ->
               field (GameWithPrediction_obj (transformApiGame g)) k
               = field (ApiGame_obj g) k)
         /\ field (GameWithPrediction_obj (transformApiGame g)) "venue" = JUndefined.
Proof.
  intros get S r Hget. split.
  - unfold fetchGames. rewrite Hget. reflexivity.
  - intros g _.
    split; [apply transformApiGame_prediction|].
    split; [apply transformApiGame_marketSignal|].
    unfold GameWithPrediction_obj, ApiGame_obj.
    rewrite transformApiGame_slots. split.
    + intros k Hk. rewrite !field_obj, lookup_literal_drop_key by exact Hk.
      symmetry. apply lookup_decoded_literal, ApiGame_slots_NoDup.
    + rewrite field_obj. apply lookup_literal_dropped.
Qed.

Lemma fetchGames_preserves_fields_witness :
  one_game_client "/games" [("sport", "NFL")]
    = Returned (mkGamesApiResponse [arrowhead_game] "2024-11-03T18:00:00Z" true)
  /\ fetchGames one_game_client (Some NFL)
     = Returned (mkFetchGamesResult [transformApiGame arrowhead_game]
                                    "2024-11-03T18:00:00Z" true).
Proof.
  split; [reflexivity|].
  exact (proj1 (fetchGames_preserves_fields one_game_client NFL _ eq_refl)).
Defined.

(** C7, as stated, fails: [venue] is a field of the API game, and a game
    sent with a venue has none after the transformation. *)
Lemma transformApiGame_drops_venue :
  In "venue" ApiGame_keys
  /\ field (ApiGame_obj arrowhead_game) "venue" = JStr "Arrowhead Stadium"
  /\ field (GameWithPrediction_obj (transformApiGame arrowhead_game)) "venue"
     <> field (ApiGame_obj arrowhead_game) "venue".
Proof.
  split; [simpl; tauto|]. split; [reflexivity|].
  vm_compute. discriminate.
Qed.

End GamesApiFacts.

(** ** [api.ts]: what [get] and [post] throw *)

Module ApiFacts.
Import Js Api Samples.

Lemma on_error_without_status (fields : list (string * JsVal)) :
  truthy (field (JObj fields) "status") = false ->
  on_error (JObj fields)
  = Thrown (ApiError (JStr network_error_message) (JNum 0)
                     (field (JObj fields) "message")).
Proof.
  unfold on_error, field; simpl.
  destruct (assoc "status" fields) as [st|]; simpl; intros H; try rewrite H;
    destruct (assoc "message" fields); reflexivity.
Qed.

(** A rejected [fetch] is reported as a network error of status 0. *)
Lemma get_fetch_rejected (pf : Platform) (baseUrl endpoint u : string)
  (fields : list (string * JsVal)) :
  new_URL pf (baseUrl ++ endpoint)%string = Returned u ->
  fetch pf (mkRequest u "GET" json_headers None) = Thrown (JObj fields) ->
  truthy (field (JObj fields) "status") = false ->
  get pf baseUrl endpoint None
  = Thrown (ApiError (JStr network_error_message) (JNum 0)
                     (field (JObj fields) "message")).
Proof.
  intros Hu Hf Hs. unfold get. rewrite Hu. simpl.
  unfold try_fetch. rewrite Hf. simpl. now apply on_error_without_status.
Qed.

(** A non-ok answer with an object for a body is reported with the HTTP
    status of the answer. *)
Lemma get_not_ok (pf : Platform) (baseUrl endpoint u : string) (r : Response)
  (fields : list (string * JsVal)) :
  new_URL pf (baseUrl ++ endpoint)%string = Returned u ->
  fetch pf (mkRequest u "GET" json_headers None) = Returned r ->
  ok r = false -> status r <> 0%Z -> json r = Returned (JObj fields) ->
  exists message detail,
    get pf baseUrl endpoint None
    = Thrown (ApiError message (JNum (inject_Z (status r))) detail).
Proof.
  intros Hu Hf Hok Hst Hj. unfold get. rewrite Hu. simpl.
  unfold try_fetch. rewrite Hf. unfold handle_response. rewrite Hok, Hj. simpl.
  destruct (assoc "detail" fields) as [d|]; simpl;
    unfold on_error; simpl;
    (replace (Qeq_bool (inject_Z (status r)) 0) with false;
     [simpl; eauto |]);
    symmetry; apply not_true_is_false; intros E; apply Qeq_bool_iff in E;
    unfold Qeq in E; simpl in E; lia.
Qed.

Example get_not_found :
  get (plain_platform not_found) "https://api.upsetiq.com" "/games/0" None
  = Thrown (ApiError (JStr "Game not found") (JNum 404) (JStr "Game not found")).
Proof. reflexivity. Qed.

Example get_offline :
  get offline_platform "https://api.upsetiq.com" "/games" (Some [("sport", "NFL")])
  = Thrown (ApiError (JStr network_error_message) (JNum 0)
                     (JStr "Network request failed")).
Proof. reflexivity. Qed.

(** C10, at the failing input.  When the server answers an ok response
    whose body is not JSON (here [204 No Content]), [get] and [post] are
    rejected with the [SyntaxError] of [response.json()] itself: the
    promise is returned without being awaited, so the [catch] clause never
    sees the rejection, and the value thrown has no status.  When a non-ok
    answer has the JSON body [null], the status thrown is 0, not the HTTP
    status. *)
Theorem get_post_raw_rejection :
  get (plain_platform no_content) "https://api.upsetiq.com" "/health" None
    = Thrown syntax_error
  /\ post (plain_platform no_content) "https://api.upsetiq.com"
          "/alerts/subscribe" (JObj [("threshold", JNum 65)])
    = Thrown syntax_error
  /\ ~ carries_numeric_status syntax_error
  /\ (exists detail,
        get (plain_platform null_body) "https://api.upsetiq.com" "/games" None
        = Thrown (ApiError (JStr network_error_message) (JNum 0) detail)).
Proof.
  split; [reflexivity|]. split; [reflexivity|]. split.
  - intros [q Hq]. vm_compute in Hq. discriminate.
  - eexists. reflexivity.
Qed.

End ApiFacts.

(** ** When [checkAlerts] notifies *)

Module NotificationsFacts.
Import Js Types Notifications Samples.

Section Device.
Context {W : Type}.
Variable expo : Expo W.

Lemma scheduleAlertNotification_log (alert : Alert) (info : GameInfo) (st : State) :
  snd (snd (scheduleAlertNotification expo alert info st)) = snd st
  \/ snd (snd (scheduleAlertNotification expo alert info st))
     = snd st ++ [alert_content expo alert info].
Proof.
  destruct st as [w log]. unfold scheduleAlertNotification.
  destruct (requestPermissions expo w) as [has w1].
  destruct has; simpl; [|now left].
  destruct (scheduleNotificationAsync expo _ w1) as [[i|e] w2]; simpl;
    [now right | now left].
Qed.

Lemma check_one_log (alerts : list Alert) (getGameUps : string -> option Q)
  (st : State) (a : Alert) :
  In a alerts ->
  exists added,
    snd (check_one expo getGameUps st a) = snd st ++ added
    /\ Forall (may_fire alerts getGameUps) added.
Proof.
  intros Hin. unfold check_one.
  destruct (triggered a) eqn:Ht; [exists []; now rewrite app_nil_r|].
  destruct (getGameUps (a_game_id a)) as [u|] eqn:Hu; [|exists []; now rewrite app_nil_r].
  destruct (reaches (Some u) a) eqn:Hr; [|exists []; now rewrite app_nil_r].
  destruct (scheduleAlertNotification_log a (mkGameInfo "Team A" "Team B" u) st)
    as [E|E]; rewrite E.
  - exists []. now rewrite app_nil_r.
  - eexists. split; [reflexivity|]. constructor; [|constructor].
    simpl in Hr. apply andb_prop in Hr. destruct Hr as [Hnz Hle].
    exists a, u. repeat split; try assumption; try reflexivity.
    + intros Hz. apply Qeq_bool_iff in Hz. rewrite Hz in Hnz. discriminate.
    + now apply Qle_bool_iff.
Qed.

Lemma fold_check_one_log (alerts : list Alert) (getGameUps : string -> option Q)
  (l : list Alert) (st : State) :
  incl l alerts ->
  exists added,
    snd (fold_left (check_one expo getGameUps) l st) = snd st ++ added
    /\ Forall (may_fire alerts getGameUps) added.
Proof.
  revert st; induction l as [|a l IH]; intros st Hincl; simpl.
  - exists []. now rewrite app_nil_r.
  - destruct (check_one_log alerts getGameUps st a) as [add1 [E1 F1]];
      [apply Hincl; now left|].
    destruct (IH (check_one expo getGameUps st a)) as [add2 [E2 F2]];
      [intros x Hx; apply Hincl; now right|].
    exists (add1 ++ add2). rewrite E2, E1, app_assoc. split; [reflexivity|].
    apply Forall_app; now split.
Qed.

End Device.

(** C2, as amended.  Whatever the device, the notifications one run of
    [checkAlerts] adds to those already sent each belong to an alert of the
    list that is not marked triggered and whose game has, at this
    evaluation, a score that is non-zero and at or above the threshold of
    the alert.  The score of the previous evaluation plays no part. *)
Theorem checkAlerts_fires_only_at_or_above :
  forall (W : Type) (expo : Expo W) (alerts : list Alert)
         (getGameUps : string -> option Q) (st : State),
    exists added,
      snd (checkAlerts expo alerts getGameUps st) = snd st ++ added
      /\ Forall (may_fire alerts getGameUps) added.
Proof.
  intros W expo alerts getGameUps st.
  apply fold_check_one_log. apply incl_refl.
Qed.

(** C2, as stated, fails: with a threshold of 65 and the scores 60, 70, 72
    a notification is sent at 70 and another one at 72, although the score
    before 72 was not below the threshold. *)
Lemma checkAlerts_fires_again_above :
  List.length (snd (evaluate granting_expo [watch_65] [60; 70] (0%nat, []))) = 1%nat
  /\ List.length (snd (evaluate granting_expo [watch_65] [60; 70; 72] (0%nat, []))) = 2%nat
  /\ ~ (70 < threshold watch_65)%Q.
Proof.
  split; [reflexivity|]. split; [reflexivity|].
  vm_compute. discriminate.
Qed.

End NotificationsFacts.

(** ** The score of a Prediction *)

Module ScoreFacts.
Import Schema Scorer Samples.

Lemma clamp_bounds (lo hi x : Q) :
  (lo <= hi)%Q -> (lo <= clamp lo hi x <= hi)%Q.
Proof.
  intros Hlh. unfold clamp.
  destruct (Qle_bool x lo) eqn:E1; [lra|].
  destruct (Qle_bool hi x) eqn:E2; [lra|].
  assert (N1 : ~ (x <= lo)%Q) by (intros F; apply Qle_bool_iff in F; congruence).
  assert (N2 : ~ (hi <= x)%Q) by (intros F; apply Qle_bool_iff in F; congruence).
  lra.
Qed.

Lemma round_half_away_nonneg (q : Q) : (0 <= q)%Q -> (0 <= round_half_away q)%Z.
Proof.
  unfold Qle; simpl. intros H. unfold round_half_away.
  assert (Hn : (0 <= Qnum q * 100)%Z) by lia.
  apply Z.mul_nonneg_nonneg.
  - apply Z.sgn_nonneg. exact Hn.
  - apply Z.div_pos; lia.
Qed.

Lemma round_half_away_le_100 (q : Q) :
  (0 <= q)%Q -> (q <= 100)%Q -> (round_half_away q <= 10000)%Z.
Proof.
  unfold Qle; simpl. intros H0 H. unfold round_half_away.
  set (d := Z.pos (Qden q)) in *.
  assert (Hd : (0 < d)%Z) by (unfold d; lia).
  assert (Hn : (0 <= Qnum q * 100)%Z) by lia.
  assert (Hm : ((2 * Z.abs (Qnum q * 100) + d) / (2 * d) <= 10000)%Z).
  { apply Z.lt_succ_r. apply Z.div_lt_upper_bound; [lia|].
    rewrite Z.abs_eq by exact Hn. nia. }
  assert (Hm0 : (0 <= (2 * Z.abs (Qnum q * 100) + d) / (2 * d))%Z)
    by (apply Z.div_pos; lia).
  destruct (Z.eq_dec (Qnum q * 100) 0) as [E|E].
  - rewrite E. simpl. lia.
  - rewrite Z.sgn_pos by lia. lia.
Qed.

Lemma to_decimal_in_range (q : Q) :
  (0 <= q <= 100)%Q -> (0 <= to_decimal_5_2 q <= 100)%Q /\ fits_5_2 q = true.
Proof.
  intros [H0 H1].
  pose proof (round_half_away_nonneg q H0) as Ha.
  pose proof (round_half_away_le_100 q H0 H1) as Hb.
  unfold to_decimal_5_2, fits_5_2. repeat split.
  - unfold Qle; simpl. lia.
  - unfold Qle; simpl. lia.
  - apply Z.ltb_lt. lia.
Qed.

Lemma insert_prediction_in_range (db db' : Store) (row : NewPrediction) :
  insert_prediction db row = inr db' ->
  Forall in_range (predictions db) -> Forall in_range (predictions db').
Proof.
  unfold insert_prediction. intros H Hdb.
  destruct (np_upset_probability row) as [p|]; [|discriminate].
  destruct (fits_5_2 p); simpl in H; [|discriminate].
  destruct (Qle_bool 0 (to_decimal_5_2 p) && Qle_bool (to_decimal_5_2 p) 100) eqn:Hc;
    simpl in H; [|discriminate].
  destruct (existsb _ (predictions db)); [discriminate|].
  destruct (existsb _ (game_ids db)); simpl in H; [|discriminate].
  injection H as <-. simpl. apply Forall_app. split; [exact Hdb|].
  constructor; [|constructor].
  apply andb_prop in Hc. destruct Hc as [Ha Hb].
  unfold in_range; simpl. split; now apply Qle_bool_iff.
Qed.

Lemma insert_all_in_range (rows : list NewPrediction) (db : Store) :
  Forall in_range (predictions db) ->
  Forall in_range (predictions (insert_all db rows)).
Proof.
  revert db. induction rows as [|row rows IH]; intros db Hdb; simpl; [exact Hdb|].
  apply IH. destruct (insert_prediction db row) as [e|db'] eqn:E; [exact Hdb|].
  now apply (insert_prediction_in_range db db' row).
Qed.

(** C1.  The scorer produces a Prediction whenever the identity fields are
    present, whatever feature groups are missing, and the score it carries
    lies in [0, 100]; the store accepts that score as it passes the range
    check of [predictions]; and every row stored in [predictions] by any
    sequence of insertions carries an upset probability in [0, 100]. *)
Theorem ups_score_in_range :
  forall (GameFeatures : Type)
         (identity : GameFeatures -> option (string * string * string))
         (version : GameFeatures -> string)
         (group_delta : SignalGroup -> GameFeatures -> option Q)
         (weight : SignalGroup -> Q)
         (f : GameFeatures) (ids : list string) (rows : list NewPrediction),
    (identity f <> None ->
       exists p, score identity version group_delta weight f = inr p)
    /\ (forall p, score identity version group_delta weight f = inr p ->
          (0 <= ups_score p <= 100)%Q
          /\ (0 <= to_decimal_5_2 (ups_score p) <= 100)%Q
          /\ fits_5_2 (ups_score p) = true)
    /\ Forall in_range (predictions (insert_all (mkStore ids []) rows)).
Proof.
  intros GameFeatures identity version group_delta weight f ids rows.
  split; [|split].
  - unfold score. destruct (identity f) as [[[gid fav] dog]|]; [|congruence].
    intros _. eexists. reflexivity.
  - unfold score. intros p Hp.
    destruct (identity f) as [[[gid fav] dog]|]; [|discriminate].
    injection Hp as <-. simpl.
    assert (Hr : (0 <= clamp 0 100 (50 + total (contributions group_delta weight f)) <= 100)%Q)
      by (apply clamp_bounds; lra).
    split; [exact Hr|]. apply to_decimal_in_range. exact Hr.
  - apply insert_all_in_range. constructor.
Qed.

Example toy_score_lopsided :
  toy_score lopsided = inr (mkPrediction "9" 100 (2 / 4) "v2.1").
Proof. reflexivity. Qed.

Lemma ups_score_in_range_witness :
  toy_identity lopsided <> None
  /\ toy_score lopsided = inr (mkPrediction "9" 100 (2 / 4) "v2.1")
  /\ (0 <= 100 <= 100)%Q.
Proof.
  split; [discriminate|]. split; [reflexivity|].
  destruct (ups_score_in_range ToyFeatures toy_identity (fun _ => "v2.1")
              toy_delta toy_weight lopsided [] []) as [_ [H _]].
  exact (proj1 (H (mkPrediction "9" 100 (2 / 4) "v2.1") eq_refl)).
Defined.

End ScoreFacts.

(** ** The queue of the Alert Engine *)

Module AlertEngineFacts.
Import AlertEngine Samples.

#[local] Arguments Key_eqb : simpl never.
#[local] Arguments key : simpl never.
#[local] Arguments ev_key : simpl never.

Lemma user_eqb_eq (x y : option string) : user_eqb x y = true <-> x = y.
Proof.
  destruct x as [a|], y as [b|]; simpl; split; intros H;
    try discriminate; try reflexivity.
  - apply String.eqb_eq in H. now subst.
  - injection H as ->. apply String.eqb_refl.
Qed.

Lemma AlertType_eqb_eq (x y : AlertType) : AlertType_eqb x y = true <-> x = y.
Proof. destruct x, y; simpl; split; intros H; congruence. Qed.

Lemma Key_eqb_eq (x y : Key) : Key_eqb x y = true <-> x = y.
Proof.
  destruct x as [[u1 g1] t1], y as [[u2 g2] t2]. unfold Key_eqb.
  rewrite !andb_true_iff, user_eqb_eq, String.eqb_eq, AlertType_eqb_eq.
  split; [intros [[-> ->] ->]; reflexivity | intros [= -> -> ->]; auto].
Qed.

Lemma non_terminal_refresh (e : Qualifying) (a : QueuedAlert) :
  non_terminal (refresh e a) = non_terminal a.
Proof. reflexivity. Qed.

Lemma upsert_open_keys (cfg : Config) (i : nat) (e : Qualifying) (q : list QueuedAlert) :
  open_keys (upsert cfg i e q) = open_keys q
  \/ (open_keys (upsert cfg i e q) = open_keys q ++ [ev_key e]
      /\ ~ In (ev_key e) (open_keys q)).
Proof.
  unfold open_keys. induction q as [|a q IH]; simpl.
  - right. split; [reflexivity | tauto].
  - destruct (Key_eqb (key a) (ev_key e)) eqn:Ek; simpl.
    + destruct (non_terminal a) eqn:Ea; simpl.
      * left. rewrite non_terminal_refresh, Ea. reflexivity.
      * rewrite Ea. exact IH.
    + destruct IH as [IH | [IH Hn]].
      * left. destruct (non_terminal a); simpl; congruence.
      * right. destruct (non_terminal a); simpl; rewrite IH; (split; [reflexivity|]);
          [|exact Hn].
        intros [H|H]; [|tauto].
        apply Key_eqb_eq in H. congruence.
Qed.

Lemma upsert_NoDup (cfg : Config) (i : nat) (e : Qualifying) (q : list QueuedAlert) :
  NoDup (open_keys q) -> NoDup (open_keys (upsert cfg i e q)).
Proof.
  intros H. destruct (upsert_open_keys cfg i e q) as [-> | [-> Hn]]; [exact H|].
  apply (Permutation_NoDup (l := ev_key e :: open_keys q)).
  - apply Permutation_cons_append.
  - now constructor.
Qed.

Section Transitions.
Variable f : QueuedAlert -> QueuedAlert.
Hypothesis f_key : forall a, key (f a) = key a.
Hypothesis f_closed : forall a, non_terminal (f a) = true -> non_terminal a = true.

Lemma map_open_keys_In (k : Key) (q : list QueuedAlert) :
  In k (open_keys (map f q)) -> In k (open_keys q).
Proof.
  unfold open_keys. induction q as [|a q IH]; simpl; [tauto|].
  destruct (non_terminal (f a)) eqn:E; simpl.
  - rewrite (f_closed a E). simpl. rewrite f_key. tauto.
  - intros H. destruct (non_terminal a); simpl; auto.
Qed.

Lemma map_open_keys_NoDup (q : list QueuedAlert) :
  NoDup (open_keys q) -> NoDup (open_keys (map f q)).
Proof.
  unfold open_keys. induction q as [|a q IH]; simpl; [auto|].
  destruct (non_terminal (f a)) eqn:E; simpl.
  - rewrite (f_closed a E). simpl. intros H. inversion H as [|? ? Hn Hd]; subst.
    constructor; [|now apply IH].
    rewrite f_key. intros Hin. apply Hn. now apply map_open_keys_In.
  - destruct (non_terminal a); simpl; intros H; [|now apply IH].
    inversion H; subst. now apply IH.
Qed.

End Transitions.

Lemma dispatch_gentle (now : Z) : gentle (dispatch now).
Proof.
  intros a. unfold dispatch, non_terminal, key.
  destruct (status a) eqn:E; try (rewrite ?E; repeat split; congruence).
  destruct (past (expires_at a) now); simpl; rewrite ?E;
    repeat split; simpl; congruence.
Qed.

Lemma transport_ok_gentle : gentle transport_ok.
Proof.
  intros a. unfold transport_ok, non_terminal, key.
  destruct (status a) eqn:E; simpl; rewrite ?E; repeat split; simpl; congruence.
Qed.

Lemma transport_failed_gentle (cfg : Config) (now : Z) : gentle (transport_failed cfg now).
Proof.
  intros a. unfold transport_failed, non_terminal, key.
  destruct (status a) eqn:E; try (rewrite ?E; repeat split; congruence).
  destruct (retry_count a <? max_retries a)%Z; simpl; rewrite ?E;
    repeat split; simpl; congruence.
Qed.

Lemma requeue_gentle (now : Z) : gentle (requeue now).
Proof.
  intros a. unfold requeue, non_terminal, key.
  destruct (status a) eqn:E; try (rewrite ?E; repeat split; congruence).
  destruct (past (expires_at a) now); [|destruct (next_attempt_at a <=? now)%Z];
    simpl; rewrite ?E; repeat split; simpl; congruence.
Qed.

Lemma on_alert_gentle (i : nat) (f : QueuedAlert -> QueuedAlert) :
  gentle f -> gentle (fun a => if Nat.eqb (id a) i then f a else a).
Proof.
  intros Hf a. destruct (Nat.eqb (id a) i); [apply Hf | repeat split; auto].
Qed.

Lemma transition_gentle (cfg : Config) (ev : Event) : gentle (transition cfg ev).
Proof.
  destruct ev; simpl;
    [intros a; repeat split; auto
    | apply on_alert_gentle, dispatch_gentle
    | apply on_alert_gentle, transport_ok_gentle
    | apply on_alert_gentle, transport_failed_gentle
    | apply on_alert_gentle, requeue_gentle].
Qed.

Lemma step_queue (cfg : Config) (s : Engine) (ev : Event) :
  queue (step cfg s ev)
  = match ev with
    | Qualify e => upsert cfg (next_id s) e (queue s)
    | _ => map (transition cfg ev) (queue s)
    end.
Proof. destruct ev; reflexivity. Qed.

Lemma step_NoDup (cfg : Config) (s : Engine) (ev : Event) :
  NoDup (open_keys (queue s)) -> NoDup (open_keys (queue (step cfg s ev))).
Proof.
  intros H. rewrite step_queue.
  destruct ev; try (apply map_open_keys_NoDup; [apply transition_gentle
                                               | apply transition_gentle | exact H]).
  now apply upsert_NoDup.
Qed.

Lemma fold_step_NoDup (cfg : Config) (evs : list Event) (s : Engine) :
  NoDup (open_keys (queue s)) ->
  NoDup (open_keys (queue (fold_left (step cfg) evs s))).
Proof.
  revert s. induction evs as [|ev evs IH]; intros s H; simpl; [exact H|].
  apply IH. now apply step_NoDup.
Qed.

Lemma run_NoDup (cfg : Config) (evs : list Event) :
  NoDup (open_keys (queue (run cfg evs))).
Proof. apply fold_step_NoDup. constructor. Qed.

Lemma pending_or_sent_open (a : QueuedAlert) :
  pending_or_sent a = true -> non_terminal a = true.
Proof. unfold pending_or_sent, non_terminal. now destruct (status a). Qed.

Lemma live_none (k : Key) (q : list QueuedAlert) :
  ~ In k (open_keys q) -> live k q = [].
Proof.
  unfold open_keys, live. induction q as [|a q IH]; simpl; [reflexivity|].
  intros Hn.
  destruct (Key_eqb (key a) k && pending_or_sent a) eqn:E.
  - apply andb_prop in E. destruct E as [Ek Ep].
    apply Key_eqb_eq in Ek. rewrite (pending_or_sent_open a Ep) in Hn.
    simpl in Hn. tauto.
  - apply IH. intros H. apply Hn. destruct (non_terminal a); simpl; auto.
Qed.

Lemma live_at_most_one (k : Key) (q : list QueuedAlert) :
  NoDup (open_keys q) -> (List.length (live k q) <= 1)%nat.
Proof.
  unfold open_keys. induction q as [|a q IH]; simpl; [lia|].
  intros H. fold (live k q).
  destruct (Key_eqb (key a) k && pending_or_sent a) eqn:E.
  - apply andb_prop in E. destruct E as [Ek Ep].
    apply Key_eqb_eq in Ek. rewrite (pending_or_sent_open a Ep) in H.
    simpl in H. inversion H as [|? ? Hn Hd]; subst.
    rewrite (live_none (key a) q Hn). simpl. lia.
  - apply IH. destruct (non_terminal a); simpl in H; [now inversion H | exact H].
Qed.

Lemma upsert_refreshes (cfg : Config) (i : nat) (e : Qualifying)
  (q : list QueuedAlert) (a : QueuedAlert) :
  NoDup (open_keys q) ->
  In a q -> key a = ev_key e -> non_terminal a = true ->
  List.length (upsert cfg i e q) = List.length q
  /\ In (refresh e a) (upsert cfg i e q).
Proof.
  unfold open_keys. induction q as [|b q IH]; simpl; [tauto|].
  intros Hnd Hin Hk Ha.
  destruct (Key_eqb (key b) (ev_key e)) eqn:Ek; simpl.
  - destruct (non_terminal b) eqn:Eb; simpl.
    + split; [reflexivity|]. left.
      destruct Hin as [->|Hin]; [reflexivity|].
      exfalso. simpl in Hnd. inversion Hnd as [|? ? Hn _]; subst.
      apply Hn. apply Key_eqb_eq in Ek. rewrite Ek, <- Hk.
      apply in_map, filter_In. now split.
    + destruct Hin as [->|Hin]; [congruence|].
      destruct (IH Hnd Hin Hk Ha) as [Hl Hi].
      split; [now rewrite Hl | now right].
  - destruct Hin as [->|Hin].
    + apply Key_eqb_eq in Hk. congruence.
    + assert (Hnd' : NoDup (map key (filter non_terminal q)))
        by (destruct (non_terminal b); simpl in Hnd; [now inversion Hnd | exact Hnd]).
      destruct (IH Hnd' Hin Hk Ha) as [Hl Hi].
      split; [now rewrite Hl | now right].
Qed.

(** C3.  In every state the engine reaches, each (user, game, alert type)
    has at most one alert that is pending or sent; and a qualifying event
    that arrives while an alert of its key has not reached a terminal state
    adds no alert to the queue: it refreshes the [ups_score] and the
    [previous_ups] of that alert. *)
Theorem at_most_one_live_alert :
  forall (cfg : Config) (evs : list Event) (k : Key),
    (List.length (live k (queue (run cfg evs))) <= 1)%nat
    /\ forall (e : Qualifying) (a : QueuedAlert),
         In a (queue (run cfg evs)) ->
         key a = ev_key e -> non_terminal a = true ->
         List.length (queue (step cfg (run cfg evs) (Qualify e)))
           = List.length (queue (run cfg evs))
         /\ In (refresh e a) (queue (step cfg (run cfg evs) (Qualify e)))
         /\ ups_score (refresh e a) = ev_ups_score e
         /\ previous_ups (refresh e a) = ev_previous_ups e
         /\ (List.length (live k (queue (step cfg (run cfg evs) (Qualify e)))) <= 1)%nat.
Proof.
  intros cfg evs k. split.
  - apply live_at_most_one, run_NoDup.
  - intros e a Hin Hk Ha.
    destruct (upsert_refreshes cfg (next_id (run cfg evs)) e _ a
                (run_NoDup cfg evs) Hin Hk Ha) as [Hl Hi].
    simpl. repeat split; try assumption.
    apply live_at_most_one. apply (step_NoDup cfg _ (Qualify e)), run_NoDup.
Qed.

Example two_crossings_one_alert :
  map (fun a => (id a, ups_score a, previous_ups a, status a))
      (queue (run default_config
                [Qualify (crossing 70 60 0); Dispatch 0 10; Qualify (crossing 75 70 20)]))
  = [(0%nat, 75, 70, sent)].
Proof. reflexivity. Qed.

Lemma at_most_one_live_alert_witness :
  List.length
    (queue (run default_config [Qualify (crossing 70 60 0); Qualify (crossing 75 70 20)]))
  = 1%nat.
Proof.
  destruct (at_most_one_live_alert default_config [Qualify (crossing 70 60 0)]
              (Some "u1", "9", ups_threshold)) as [_ H].
  destruct (H (crossing 75 70 20)
              (new_alert default_config 0 (crossing 70 60 0))
              (or_introl eq_refl) eq_refl eq_refl) as [Hl _].
  exact Hl.
Defined.

End AlertEngineFacts.

(** ** Retries of the Alert Engine *)

Module RetryFacts.
Import AlertEngine AlertEngineFacts Samples.

#[local] Arguments Key_eqb : simpl never.
#[local] Arguments key : simpl never.
#[local] Arguments ev_key : simpl never.

Lemma new_alert_counted (cfg : Config) (i : nat) (e : Qualifying) :
  (0 <= cfg_max_retries cfg)%Z -> counted (new_alert cfg i e).
Proof. intros H. unfold counted; simpl. lia. Qed.

Lemma refresh_counted (e : Qualifying) (a : QueuedAlert) :
  counted a -> counted (refresh e a).
Proof. intros H. exact H. Qed.

Lemma dispatch_counted (now : Z) (a : QueuedAlert) :
  counted a -> counted (dispatch now a).
Proof.
  unfold counted, dispatch. intros [Hr Hs].
  destruct (status a) eqn:E; rewrite ?E; try (split; assumption).
  destruct (past (expires_at a) now); simpl; lia.
Qed.

Lemma transport_ok_counted (a : QueuedAlert) :
  counted a -> counted (transport_ok a).
Proof.
  unfold counted, transport_ok. intros [Hr Hs].
  destruct (status a) eqn:E; rewrite ?E; try (split; assumption); simpl; lia.
Qed.

Lemma transport_failed_counted (cfg : Config) (now : Z) (a : QueuedAlert) :
  counted a -> counted (transport_failed cfg now a).
Proof.
  unfold counted, transport_failed. intros [Hr Hs].
  destruct (status a) eqn:E; rewrite ?E; try (split; assumption).
  destruct (retry_count a <? max_retries a)%Z eqn:El; simpl.
  - apply Z.ltb_lt in El. lia.
  - lia.
Qed.

Lemma requeue_counted (now : Z) (a : QueuedAlert) :
  counted a -> counted (requeue now a).
Proof.
  unfold counted, requeue. intros [Hr Hs].
  destruct (status a) eqn:E; rewrite ?E; try (split; assumption).
  destruct (past (expires_at a) now); [|destruct (next_attempt_at a <=? now)%Z];
    simpl; rewrite ?E; lia.
Qed.

Lemma transition_counted (cfg : Config) (ev : Event) (a : QueuedAlert) :
  counted a -> counted (transition cfg ev a).
Proof.
  intros H. destruct ev; simpl; try exact H;
    destruct (Nat.eqb (id a) i); try exact H.
  - now apply dispatch_counted.
  - now apply transport_ok_counted.
  - now apply transport_failed_counted.
  - now apply requeue_counted.
Qed.

Lemma upsert_counted (cfg : Config) (i : nat) (e : Qualifying) (q : list QueuedAlert) :
  (0 <= cfg_max_retries cfg)%Z ->
  Forall counted q -> Forall counted (upsert cfg i e q).
Proof.
  intros Hc. induction 1 as [|a q Ha Hq IH]; simpl.
  - constructor; [now apply new_alert_counted | constructor].
  - destruct (Key_eqb (key a) (ev_key e) && non_terminal a);
      constructor; auto using refresh_counted.
Qed.

Lemma step_counted (cfg : Config) (s : Engine) (ev : Event) :
  (0 <= cfg_max_retries cfg)%Z ->
  Forall counted (queue s) -> Forall counted (queue (step cfg s ev)).
Proof.
  intros Hc H. rewrite step_queue.
  destruct ev; try (apply Forall_map; eapply Forall_impl; [|exact H];
                    intros a; apply transition_counted).
  now apply upsert_counted.
Qed.

Lemma run_counted (cfg : Config) (evs : list Event) :
  (0 <= cfg_max_retries cfg)%Z -> Forall counted (queue (run cfg evs)).
Proof.
  intros Hc. unfold run.
  assert (G : forall s, Forall counted (queue s) ->
                        Forall counted (queue (fold_left (step cfg) evs s))).
  { induction evs as [|ev evs IH]; intros s H; simpl; [exact H|].
    apply IH. now apply step_counted. }
  apply G. constructor.
Qed.

Lemma upsert_keeps_terminal (cfg : Config) (i : nat) (e : Qualifying)
  (q : list QueuedAlert) (a : QueuedAlert) :
  terminal (status a) = true -> In a q -> In a (upsert cfg i e q).
Proof.
  intros Ht. induction q as [|b q IH]; simpl; [tauto|].
  intros [->|Hin].
  - unfold non_terminal. rewrite Ht, andb_false_r. now left.
  - destruct (Key_eqb (key b) (ev_key e) && non_terminal b); right; auto.
Qed.

Lemma step_keeps_terminal (cfg : Config) (s : Engine) (ev : Event) (a : QueuedAlert) :
  terminal (status a) = true -> In a (queue s) -> In a (queue (step cfg s ev)).
Proof.
  intros Ht Hin. rewrite step_queue.
  destruct ev; try (apply in_map_iff; exists a; split; [|exact Hin];
                    now apply transition_gentle).
  now apply upsert_keeps_terminal.
Qed.

(** C4.  With a non-negative retry bound, every alert of every state the
    engine reaches has [retry_count <= max_retries]; at most
    [max_retries + 1] deliveries were attempted for it, the initial one and
    one per retry; an alert whose delivery failed [max_retries + 1] times
    (a 4th failure when [max_retries = 3]) is expired; and an expired alert
    is left as it is by every later event, so that no further delivery is
    attempted for it. *)
Theorem retries_bounded :
  forall (cfg : Config) (evs : list Event) (a : QueuedAlert),
    (0 <= cfg_max_retries cfg)%Z ->
    In a (queue (run cfg evs)) ->
    (0 <= retry_count a <= max_retries a)%Z
    /\ (attempts a <= max_retries a + 1)%Z
    /\ (failures a <= max_retries a + 1)%Z
    /\ (failures a = (max_retries a + 1)%Z -> status a = expired)
    /\ (status a = expired ->
        forall ev, In a (queue (step cfg (run cfg evs) ev))).
Proof.
  intros cfg evs a Hc Hin.
  pose proof (run_counted cfg evs Hc) as Hall.
  rewrite Forall_forall in Hall. destruct (Hall a Hin) as [Hr Hs].
  repeat split; try lia.
  - destruct (status a); lia.
  - destruct (status a); lia.
  - intros Hf. destruct (status a); try reflexivity; lia.
  - intros He ev. apply step_keeps_terminal; [now rewrite He | exact Hin].
Qed.

Example four_failures_expire :
  map (fun a => (status a, retry_count a, attempts a, failures a))
      (queue (run default_config four_failures))
  = [(expired, 3%Z, 4%Z, 4%Z)].
Proof. vm_compute. reflexivity. Qed.

Example no_fifth_attempt :
  queue (run default_config (four_failures ++ [Requeue 0 9000; Dispatch 0 9000]))
  = queue (run default_config four_failures).
Proof. vm_compute. reflexivity. Qed.

Lemma retries_bounded_witness :
  (0 <= cfg_max_retries default_config)%Z
  /\ In exhausted_alert (queue (run default_config four_failures))
  /\ status exhausted_alert = expired
  /\ (retry_count exhausted_alert <= 3)%Z
  /\ In exhausted_alert
        (queue (step default_config (run default_config four_failures)
                     (Dispatch 0 9000))).
Proof.
  assert (Hc : (0 <= cfg_max_retries default_config)%Z) by (simpl; lia).
  assert (Hin : In exhausted_alert (queue (run default_config four_failures)))
    by (vm_compute; left; reflexivity).
  destruct (retries_bounded default_config four_failures exhausted_alert Hc Hin)
    as [[_ Hr] [_ [_ [_ He]]]].
  split; [exact Hc|]. split; [exact Hin|].
  assert (Hs : status exhausted_alert = expired) by (vm_compute; reflexivity).
  split; [exact Hs|]. split; [exact Hr|].
  exact (He Hs (Dispatch 0 9000)).
Defined.

End RetryFacts.

(** ** The runs of the Job Scheduler *)

Module SchedulerFacts.
Import Scheduler Samples.

Lemma existsb_filter_nil {A : Type} (p : A -> bool) (l : list A) :
  existsb p l = false <-> filter p l = [].
Proof.
  induction l as [|x l IH]; simpl; [tauto|].
  destruct (p x); simpl; [split; discriminate | exact IH].
Qed.

Lemma filter_map_length {A : Type} (p : A -> bool) (g : A -> A) (l : list A) :
  (forall x, p (g x) = true -> p x = true) ->
  (List.length (filter p (map g l)) <= List.length (filter p l))%nat.
Proof.
  intros Hg. induction l as [|x l IH]; simpl; [lia|].
  destruct (p (g x)) eqn:E.
  - rewrite (Hg x E). simpl. lia.
  - destruct (p x); simpl; lia.
Qed.

Lemma finalize_closed (n name : string) (st : RunStatus) (now : Z) (c : Counts)
  (err : option string) (r : JobRun) :
  st <> running ->
  is_running n (finalize name st now c err r) = true -> is_running n r = true.
Proof.
  intros Hst. unfold finalize.
  destruct (is_running name r) eqn:E; [|tauto].
  unfold is_running at 1. simpl. destruct st; try congruence;
    rewrite andb_false_r; discriminate.
Qed.

Lemma reap_one_closed (n : string) (now max : Z) (r : JobRun) :
  is_running n (reap_one now max r) = true -> is_running n r = true.
Proof.
  unfold reap_one. destruct (status r) eqn:E; try tauto.
  destruct (started_at r + max <? now)%Z; [|tauto].
  unfold is_running at 1. simpl. rewrite andb_false_r. discriminate.
Qed.

Lemma running_runs_add (n : string) (r : JobRun) (s : State) :
  running_runs n (add_run r s)
  = running_runs n s ++ (if is_running n r then [r] else []).
Proof. unfold running_runs, add_run; simpl. now rewrite filter_app. Qed.

Lemma open_run_running (n name : string) (now : Z) :
  is_running n (open_run name running now) = String.eqb name n.
Proof. unfold is_running; simpl. now rewrite andb_true_r. Qed.

Lemma open_run_skipped (n name : string) (now : Z) :
  is_running n (open_run name skipped now) = false.
Proof. unfold is_running; simpl. now rewrite andb_false_r. Qed.

Lemma registered_In (name : string) (s : State) :
  existsb (String.eqb name) (registered s) = true <-> In name (registered s).
Proof.
  rewrite existsb_exists. split.
  - intros [x [Hx E]]. apply String.eqb_eq in E. now subst.
  - intros H. exists name. split; [exact H | apply String.eqb_refl].
Qed.

Lemma start_well_formed (name : string) (now : Z) (s : State) :
  In name (registered s) -> in_progress name s = false ->
  well_formed s -> well_formed (add_run (open_run name running now) s).
Proof.
  intros Hreg Hp [Hone Hnames]. split.
  - intros n. rewrite running_runs_add, open_run_running, length_app.
    destruct (String.eqb name n) eqn:E; simpl.
    + apply String.eqb_eq in E; subst n.
      apply existsb_filter_nil in Hp. unfold running_runs. rewrite Hp. simpl. lia.
    + specialize (Hone n). lia.
  - intros r Hin. unfold add_run in Hin; simpl in *.
    apply in_app_or in Hin. destruct Hin as [Hin|[<-|[]]]; auto.
Qed.

Lemma skip_well_formed (name : string) (now : Z) (s : State) :
  In name (registered s) ->
  well_formed s -> well_formed (add_run (open_run name skipped now) s).
Proof.
  intros Hreg [Hone Hnames]. split.
  - intros n. rewrite running_runs_add, open_run_skipped, app_nil_r. apply Hone.
  - intros r Hin. unfold add_run in Hin; simpl in *.
    apply in_app_or in Hin. destruct Hin as [Hin|[<-|[]]]; auto.
Qed.

Lemma step_well_formed (s : State) (ev : Event) :
  well_formed s -> well_formed (fst (step s ev)).
Proof.
  intros Hwf. destruct ev as [name|name now|name now|name ok now c err|now]; simpl.
  - destruct Hwf as [Hone Hnames]. split; [exact Hone|].
    intros r Hin. right. now apply Hnames.
  - unfold tick.
    destruct (existsb (String.eqb name) (registered s)) eqn:Er; simpl; [|exact Hwf].
    apply registered_In in Er.
    destruct (in_progress name s) eqn:Ep; simpl.
    + now apply skip_well_formed.
    + now apply start_well_formed.
  - unfold run_now.
    destruct (existsb (String.eqb name) (registered s)) eqn:Er; simpl; [|exact Hwf].
    apply registered_In in Er.
    destruct (in_progress name s) eqn:Ep; simpl; [exact Hwf|].
    now apply start_well_formed.
  - destruct Hwf as [Hone Hnames]. split.
    + intros n. unfold running_runs, finish; simpl.
      eapply Nat.le_trans; [|apply (Hone n)].
      apply filter_map_length. intros r. apply finalize_closed.
      destruct ok; discriminate.
    + intros r Hin. unfold finish in Hin; simpl in *.
      apply in_map_iff in Hin. destruct Hin as [r0 [<- Hin]].
      unfold finalize. destruct (is_running name r0); simpl; now apply Hnames.
  - destruct Hwf as [Hone Hnames]. split.
    + intros n. unfold running_runs, reap; simpl.
      eapply Nat.le_trans; [|apply (Hone n)].
      apply filter_map_length. intros r. apply reap_one_closed.
    + intros r Hin. unfold reap in Hin; simpl in *.
      apply in_map_iff in Hin. destruct Hin as [r0 [<- Hin]].
      unfold reap_one. destruct (status r0); try now apply Hnames.
      destruct (started_at r0 + max_duration s <? now)%Z; simpl; now apply Hnames.
Qed.

Lemma run_well_formed (max : Z) (evs : list Event) : well_formed (run max evs).
Proof.
  unfold run.
  assert (G : forall s, well_formed s ->
                        well_formed (fold_left (fun s ev => fst (step s ev)) evs s)).
  { induction evs as [|ev evs IH]; intros s H; simpl; [exact H|].
    apply IH. now apply step_well_formed. }
  apply G. split; [intros n; simpl; lia | intros r []].
Qed.

Lemma in_progress_registered (name : string) (s : State) :
  well_formed s -> in_progress name s = true ->
  existsb (String.eqb name) (registered s) = true.
Proof.
  intros [_ Hnames] Hp. apply registered_In.
  unfold in_progress in Hp. apply existsb_exists in Hp.
  destruct Hp as [r [Hin Hr]]. unfold is_running in Hr.
  apply andb_prop in Hr. destruct Hr as [Hn _]. apply String.eqb_eq in Hn.
  subst name. now apply Hnames.
Qed.

Lemma finalize_keeps_closed (name : string) (st : RunStatus) (now : Z)
  (c : Counts) (err : option string) (r : JobRun) :
  status r <> running -> finalize name st now c err r = r.
Proof.
  intros Hr. unfold finalize, is_running.
  destruct (status r); try congruence; now rewrite andb_false_r.
Qed.

Lemma reap_one_keeps_closed (now max : Z) (r : JobRun) :
  status r <> running -> reap_one now max r = r.
Proof. intros Hr. unfold reap_one. destruct (status r); congruence. Qed.

(** A JobRun that is not running is a closed record: no event changes or
    removes it. *)
Lemma step_keeps_closed_run (s : State) (ev : Event) (r : JobRun) :
  status r <> running -> In r (runs s) -> In r (runs (fst (step s ev))).
Proof.
  intros Hr Hin.
  destruct ev as [name|name now|name now|name ok now c err|now]; simpl.
  - exact Hin.
  - unfold tick.
    destruct (existsb (String.eqb name) (registered s)); simpl; [|exact Hin].
    destruct (in_progress name s); simpl; apply in_or_app; now left.
  - unfold run_now.
    destruct (existsb (String.eqb name) (registered s)); simpl; [|exact Hin].
    destruct (in_progress name s); simpl; [exact Hin|].
    apply in_or_app; now left.
  - apply in_map_iff. exists r. split; [|exact Hin].
    now apply finalize_keeps_closed.
  - apply in_map_iff. exists r. split; [|exact Hin].
    now apply reap_one_keeps_closed.
Qed.

Lemma later_keeps_closed_run (later : list Event) (s : State) (r : JobRun) :
  status r <> running -> In r (runs s) ->
  In r (runs (fold_left (fun s ev => fst (step s ev)) later s)).
Proof.
  intros Hr. revert s. induction later as [|ev later IH]; intros s Hin; simpl.
  - exact Hin.
  - apply IH. now apply step_keeps_closed_run.
Qed.

Lemma run_app (max : Z) (evs later : list Event) :
  run max (evs ++ later)
  = fold_left (fun s ev => fst (step s ev)) later (run max evs).
Proof. unfold run. apply fold_left_app. Qed.

(** C5.  In every state the scheduler reaches, each job name has at most
    one running JobRun.  While a JobRun of a job is running, a cadence tick
    of that job does not invoke the handler and records a skipped JobRun:
    the rows of the new state are the rows there were followed by one row
    of that job with status skipped, started and completed at the time of
    the tick; the running JobRuns of the job are the same as before, and
    the skipped row is still among the rows after any later events.
    [run_now] fails with AlreadyRunning then and leaves the state as it
    is.  When no JobRun of a registered job is running, a tick and
    [run_now] invoke the handler; and whenever the handler is invoked, no
    JobRun of the job was running and the rows of the new state are the
    rows there were followed by one running row of the job, the only
    running one. *)
Theorem at_most_one_running :
  forall (max : Z) (evs : list Event) (name : string) (now : Z),
    (List.length (running_runs name (run max evs)) <= 1)%nat
    /\ (in_progress name (run max evs) = true ->
        tick name now (run max evs)
          = (add_run (open_run name skipped now) (run max evs), Skip)
        /\ runs (fst (tick name now (run max evs)))
           = runs (run max evs)
             ++ [mkJobRun name skipped now (Some now) 0 0 0 None]
        /\ registered (fst (tick name now (run max evs)))
           = registered (run max evs)
        /\ running_runs name (add_run (open_run name skipped now) (run max evs))
           = running_runs name (run max evs)
        /\ (forall later : list Event,
              In (mkJobRun name skipped now (Some now) 0 0 0 None)
                 (runs (run max (evs ++ Tick name now :: later))))
        /\ run_now name now (run max evs) = (run max evs, AlreadyRunning))
    /\ (In name (registered (run max evs)) ->
        in_progress name (run max evs) = false ->
        snd (tick name now (run max evs)) = Invoke
        /\ snd (run_now name now (run max evs)) = Invoke)
    /\ (forall s', tick name now (run max evs) = (s', Invoke)
                   \/ run_now name now (run max evs) = (s', Invoke) ->
                   in_progress name (run max evs) = false
                   /\ runs s'
                      = runs (run max evs)
                        ++ [mkJobRun name running now None 0 0 0 None]
                   /\ List.length (running_runs name s') = 1%nat).
Proof.
  intros max evs name now.
  pose proof (run_well_formed max evs) as Hwf.
  pose proof (run_app max evs) as Happ.
  set (s := run max evs) in *. split; [apply Hwf|]. split; [|split].
  - intros Hp. pose proof (in_progress_registered name s Hwf Hp) as Hr.
    assert (Ht : tick name now s = (add_run (open_run name skipped now) s, Skip))
      by (unfold tick; rewrite Hr, Hp; reflexivity).
    split; [exact Ht|]. rewrite Ht.
    split; [reflexivity|]. split; [reflexivity|]. split.
    { rewrite running_runs_add, open_run_skipped. apply app_nil_r. }
    split.
    + intros later. rewrite Happ. simpl fold_left.
      apply later_keeps_closed_run; [discriminate|].
      simpl. rewrite Ht. simpl. apply in_or_app. right. now left.
    + unfold run_now. rewrite Hr, Hp. reflexivity.
  - intros Hreg Hp. apply registered_In in Hreg.
    unfold tick, run_now. rewrite Hreg, Hp. split; reflexivity.
  - intros s' H.
    assert (G : in_progress name s = false
                /\ s' = add_run (open_run name running now) s).
    { unfold tick, run_now in H.
      destruct (existsb (String.eqb name) (registered s)); simpl in H;
        [|destruct H as [H|H]; discriminate].
      destruct (in_progress name s); simpl in H;
        destruct H as [H|H]; try discriminate; injection H as <-; auto. }
    destruct G as [Hp ->]. split; [exact Hp|]. split; [reflexivity|].
    rewrite running_runs_add, open_run_running, String.eqb_refl, length_app.
    apply existsb_filter_nil in Hp. unfold running_runs. rewrite Hp. reflexivity.
Qed.

Example odds_tick_skipped :
  map (fun r => (job_name r, status r))
      (runs (run 3600 (odds_running ++ [Tick "odds_snapshot" 900])))
  = [("odds_snapshot", running); ("odds_snapshot", skipped)].
Proof. reflexivity. Qed.

Lemma at_most_one_running_witness :
  in_progress "odds_snapshot" (run 3600 odds_running) = true
  /\ snd (tick "odds_snapshot" 900 (run 3600 odds_running)) = Skip
  /\ runs (fst (tick "odds_snapshot" 900 (run 3600 odds_running)))
     = [mkJobRun "odds_snapshot" running 0 None 0 0 0 None;
        mkJobRun "odds_snapshot" skipped 900 (Some 900%Z) 0 0 0 None]
  /\ In (mkJobRun "odds_snapshot" skipped 900 (Some 900%Z) 0 0 0 None)
        (runs (run 3600 (odds_running
                         ++ [Tick "odds_snapshot" 900;
                             Finish "odds_snapshot" true 1000 no_counts None;
                             Reap 9000])))
  /\ snd (run_now "odds_snapshot" 900 (run 3600 odds_running)) = AlreadyRunning.
Proof.
  split; [reflexivity|].
  destruct (at_most_one_running 3600 odds_running "odds_snapshot" 900)
    as [_ [H _]].
  destruct (H eq_refl) as [Ht [Hruns [_ [_ [Hlater Hr]]]]].
  split; [now rewrite Ht|]. split; [rewrite Hruns; reflexivity|].
  split; [apply (Hlater [Finish "odds_snapshot" true 1000 no_counts None;
                         Reap 9000])|].
  now rewrite Hr.
Defined.

End SchedulerFacts.

(** ** More on the sport utilities *)

Module SportUtilsMoreFacts.
Import Js Types SportUtils SportUtilsMore JsFacts SportUtilsFacts Samples.

Lemma Permutation_concat {A : Type} (l l' : list (list A)) :
  Permutation l l' -> Permutation (List.concat l) (List.concat l').
Proof.
  induction 1; simpl.
  - reflexivity.
  - now apply Permutation_app_head.
  - rewrite !app_assoc. apply Permutation_app_tail, Permutation_app_comm.
  - etransitivity; eassumption.
Qed.

Lemma concat_sorted_entries (m : DayMap) :
  Permutation
    (List.concat (map dg_games
               (map (fun e => mkDayGroup (fst e) (sort by_ups_desc (snd e))) m)))
    (List.concat (map snd m)).
Proof.
  induction m as [|[k arr] m IH]; simpl; [reflexivity|].
  apply Permutation_app; [apply sort_perm | exact IH].
Qed.

Lemma map_set_concat (k : string) (arr x : list GameWithPrediction) (m : DayMap) :
  map_get k m = Some arr ->
  Permutation (List.concat (map snd (map_set k (arr ++ x) m))) (List.concat (map snd m) ++ x).
Proof.
  induction m as [|[k' a] m IH]; simpl; [discriminate|].
  destruct (String.eqb k' k); simpl.
  - intros [= <-]. rewrite <- !app_assoc. apply Permutation_app_head.
    apply Permutation_app_comm.
  - intros H. rewrite <- app_assoc. apply Permutation_app_head. now apply IH.
Qed.

Lemma map_set_concat_new (k : string) (x : list GameWithPrediction) (m : DayMap) :
  map_get k m = None ->
  List.concat (map snd (map_set k x m)) = List.concat (map snd m) ++ x.
Proof.
  induction m as [|[k' a] m IH]; simpl.
  - intros _. now rewrite app_nil_r.
  - destruct (String.eqb k' k); [discriminate|]. simpl.
    intros H. now rewrite IH, app_assoc.
Qed.

Lemma add_game_concat (dayLabel : string -> string) (m : DayMap)
  (g : GameWithPrediction) :
  Permutation (List.concat (map snd (add_game dayLabel m g))) (List.concat (map snd m) ++ [g]).
Proof.
  unfold add_game. destruct (map_get _ m) as [arr|] eqn:E.
  - now apply map_set_concat.
  - now rewrite map_set_concat_new.
Qed.

Lemma collect_concat (dayLabel : string -> string) (sport : Sport)
  (l : list GameWithPrediction) (m : DayMap) :
  Permutation
    (List.concat (map snd
       (fold_left
          (fun byDay g =>
             if negb (String.eqb (Types.sport g) (sport_literal sport)) then byDay
             else add_game dayLabel byDay g) l m)))
    (List.concat (map snd m) ++ of_sport sport l).
Proof.
  revert m. induction l as [|g l IH]; intros m; simpl.
  - now rewrite app_nil_r.
  - rewrite IH. unfold of_sport at 2. simpl.
    destruct (String.eqb (Types.sport g) (sport_literal sport)); simpl.
    + rewrite add_game_concat, <- app_assoc. reflexivity.
    + reflexivity.
Qed.

Lemma groups_concat (dayLabel : string -> string) (getTime : string -> option Z)
  (games : list GameWithPrediction) (sport : Sport) :
  Permutation
    (List.concat (map dg_games (groupGamesByDay dayLabel getTime games sport)))
    (of_sport sport games).
Proof.
  unfold groupGamesByDay.
  rewrite (Permutation_concat _ _ (Permutation_map dg_games (sort_perm _ _))).
  rewrite concat_sorted_entries. unfold collect.
  rewrite collect_concat. reflexivity.
Qed.

(** X1.  [groupGamesByDay] neither loses nor repeats a game: the games of
    its groups, taken together, are the games of the requested sport of the
    input, each as often as it occurs there. *)
Theorem groupGamesByDay_partition :
  forall (dayLabel : string -> string) (getTime : string -> option Z)
         (games : list GameWithPrediction) (sport : Sport),
    Permutation
      (List.concat (map dg_games (groupGamesByDay dayLabel getTime games sport)))
      (of_sport sport games).
Proof. intros. apply groups_concat. Qed.

(** *** Labels of the groups *)

Lemma map_get_None (k : string) (m : DayMap) :
  map_get k m = None <-> ~ In k (map fst m).
Proof.
  induction m as [|[k' a] m IH]; simpl; [tauto|].
  destruct (String.eqb k' k) eqn:E.
  - apply String.eqb_eq in E. split; [discriminate | tauto].
  - apply String.eqb_neq in E. rewrite IH. tauto.
Qed.

Lemma map_set_entries (k : string) (v : list GameWithPrediction) (m : DayMap)
  (e : string * list GameWithPrediction) :
  In e (map_set k v m) -> e = (k, v) \/ In e m.
Proof.
  induction m as [|[k' a] m IH]; simpl.
  - intros [<-|[]]. now left.
  - destruct (String.eqb k' k) eqn:E; simpl.
    + apply String.eqb_eq in E; subst k'. intros [<-|H]; [now left | right; now right].
    + intros [<-|H]; [right; now left|].
      destruct (IH H) as [?|?]; [now left | right; now right].
Qed.

Lemma map_set_keys (k : string) (v : list GameWithPrediction) (m : DayMap) :
  map fst (map_set k v m)
  = match map_get k m with
    | Some _ => map fst m
    | None => map fst m ++ [k]
    end.
Proof.
  induction m as [|[k' a] m IH]; simpl; [reflexivity|].
  destruct (String.eqb k' k) eqn:E; simpl; [reflexivity|].
  rewrite IH. now destruct (map_get k m).
Qed.

Section Labels.
Variable dayLabel : string -> string.

(** What [byDay] satisfies throughout the loop. *)
Lemma add_game_labelled (m : DayMap) (g : GameWithPrediction) :
  labelled dayLabel m -> labelled dayLabel (add_game dayLabel m g).
Proof.
  intros [Hnd Hm]. unfold add_game. split.
  - rewrite map_set_keys.
    destruct (map_get (dayLabel (start_time g)) m) eqn:E; [exact Hnd|].
    apply map_get_None in E.
    apply (Permutation_NoDup (l := dayLabel (start_time g) :: map fst m));
      [apply Permutation_cons_append | now constructor].
  - intros e He. apply map_set_entries in He. destruct He as [->|He]; [|now apply Hm].
    simpl. split.
    + intros F. apply app_eq_nil in F. destruct F as [_ F]. discriminate.
    + apply Forall_app. split; [|now repeat constructor].
      destruct (map_get _ m) as [arr|] eqn:E; [|constructor].
      destruct (map_get_In _ _ _ E) as [k' Hin].
      assert (Hk : In (dayLabel (start_time g), arr) m).
      { clear -E. induction m as [|[k0 a0] m IH]; simpl in *; [discriminate|].
        destruct (String.eqb k0 (dayLabel (start_time g))) eqn:Ek.
        - apply String.eqb_eq in Ek. injection E as <-. left. now subst.
        - right. now apply IH. }
      exact (proj2 (Hm _ Hk)).
Qed.

Lemma collect_labelled (sport : Sport) (l : list GameWithPrediction) (m : DayMap) :
  labelled dayLabel m ->
  labelled dayLabel
    (fold_left
       (fun byDay g =>
          if negb (String.eqb (Types.sport g) (sport_literal sport)) then byDay
          else add_game dayLabel byDay g) l m).
Proof.
  revert m. induction l as [|g l IH]; intros m Hm; simpl; [exact Hm|].
  apply IH. destruct (negb _); [exact Hm | now apply add_game_labelled].
Qed.

End Labels.

(** X2.  The groups of [groupGamesByDay] have pairwise different labels,
    none of them is empty, and every game of a group has the label of the
    group as the label of its day. *)
Theorem groupGamesByDay_labels :
  forall (dayLabel : string -> string) (getTime : string -> option Z)
         (games : list GameWithPrediction) (sport : Sport),
    NoDup (map dg_label (groupGamesByDay dayLabel getTime games sport))
    /\ forall grp, In grp (groupGamesByDay dayLabel getTime games sport) ->
         dg_games grp <> []
         /\ forall g, In g (dg_games grp) -> dayLabel (start_time g) = dg_label grp.
Proof.
  intros dayLabel getTime games sport.
  assert (Hl : labelled dayLabel (collect dayLabel games sport)).
  { apply collect_labelled. split; [constructor | intros e []]. }
  destruct Hl as [Hnd Hm]. unfold groupGamesByDay. split.
  - apply (Permutation_NoDup (l := map fst (collect dayLabel games sport))); [|exact Hnd].
    rewrite (Permutation_map dg_label (sort_perm _ _)), map_map. simpl. reflexivity.
  - intros grp Hin. apply sort_In in Hin. apply in_map_iff in Hin.
    destruct Hin as [e [<- He]]. simpl. destruct (Hm e He) as [Hne Hall]. split.
    + intros F. apply Hne.
      apply (Permutation_nil (l := snd e)). rewrite <- F. apply sort_perm.
    + intros g Hg. apply sort_In in Hg. rewrite Forall_forall in Hall. now apply Hall.
Qed.

Lemma groupGamesByDay_labels_witness :
  In (mkDayGroup "mon" [nfl_b; nfl_a])
     (groupGamesByDay plain_label no_time sample_games NFL)
  /\ plain_label (start_time nfl_b) = "mon".
Proof.
  assert (Hin : In (mkDayGroup "mon" [nfl_b; nfl_a])
                   (groupGamesByDay plain_label no_time sample_games NFL))
    by (vm_compute; left; reflexivity).
  split; [exact Hin|].
  destruct (groupGamesByDay_labels plain_label no_time sample_games NFL) as [_ H].
  exact (proj2 (H _ Hin) nfl_b (or_introl eq_refl)).
Defined.

(** *** The featured games of a sport *)

Lemma StronglySorted_app_dominates {A : Type} (R : A -> A -> Prop) (l1 l2 : list A) :
  StronglySorted R (l1 ++ l2) ->
  forall x y, In x l1 -> In y l2 -> R x y.
Proof.
  induction l1 as [|a l1 IH]; simpl; intros Hs x y Hx Hy; [tauto|].
  inversion Hs as [|? ? Hs' Hall]; subst.
  destruct Hx as [<-|Hx].
  - rewrite Forall_forall in Hall. apply Hall, in_or_app. now right.
  - now apply IH.
Qed.

Lemma StronglySorted_firstn {A : Type} (R : A -> A -> Prop) (n : nat) (l : list A) :
  StronglySorted R l -> StronglySorted R (firstn n l).
Proof.
  revert n. induction l as [|a l IH]; intros [|n] Hs; simpl; try constructor.
  - apply IH. now inversion Hs.
  - inversion Hs as [|? ? _ Hall]; subst.
    rewrite Forall_forall in *. intros x Hx. apply Hall.
    rewrite <- (firstn_skipn n l). apply in_or_app. now left.
Qed.

Lemma slice0_prefix {A : Type} (limit : Z) (l : list A) :
  exists n, slice0 limit l = firstn n l
            /\ ((0 <= limit)%Z -> n = Z.to_nat limit).
Proof.
  unfold slice0. destruct (limit <? 0)%Z eqn:E.
  - eexists. split; [reflexivity|]. apply Z.ltb_lt in E. lia.
  - eexists. split; [reflexivity|]. reflexivity.
Qed.

(** X3.  The featured games of a sport ([getNationalTvGames],
    [getHighStakesGames], [getMarqueeGames], [getFeaturedMatches],
    [getTopGames]) are games of that sport from the input, listed by
    non-increasing upset probability, and they are the top ones: together
    with the games left out they make up all games of the sport, and no
    game left out has a higher probability than a game returned.  With a
    non-negative limit, as many games are returned as the limit allows. *)
Theorem top_games_are_top :
  forall (name : string) (games : list GameWithPrediction) (limit : option Z),
    StronglySorted ups_desc (top_games name games limit)
    /\ (exists rest,
          Permutation (top_games name games limit ++ rest)
                      (filter (fun g => String.eqb (sport g) name) games)
          /\ forall x y, In x (top_games name games limit) -> In y rest ->
                         (ups y <= ups x)%Q)
    /\ (forall n, (0 <= n)%Z ->
          List.length (top_games name games (Some n))
          = Nat.min (Z.to_nat n)
                    (List.length (filter (fun g => String.eqb (sport g) name) games)))
    /\ getNationalTvGames games limit = top_games "NBA" games limit
    /\ getHighStakesGames games limit = top_games "MLB" games limit
    /\ getMarqueeGames games limit = top_games "NHL" games limit
    /\ getFeaturedMatches games limit = top_games "Soccer" games limit
    /\ getTopGames games limit = top_games "CFB" games limit.
Proof.
  intros name games limit.
  set (all := filter (fun g => String.eqb (sport g) name) games).
  pose proof (sort_by_ups_desc_sorted all) as Hs.
  split; [|split; [|split; [|repeat split]]].
  - unfold top_games. fold all.
    destruct (slice0_prefix (match limit with Some n => n | None => 5%Z end)
                (sort by_ups_desc all)) as [n [-> _]].
    now apply StronglySorted_firstn.
  - unfold top_games. fold all.
    destruct (slice0_prefix (match limit with Some n => n | None => 5%Z end)
                (sort by_ups_desc all)) as [n [-> _]].
    exists (skipn n (sort by_ups_desc all)). split.
    + rewrite firstn_skipn. apply sort_perm.
    + intros x y Hx Hy.
      rewrite <- (firstn_skipn n (sort by_ups_desc all)) in Hs.
      exact (StronglySorted_app_dominates ups_desc _ _ Hs x y Hx Hy).
  - intros n Hn. unfold top_games. fold all.
    destruct (slice0_prefix n (sort by_ups_desc all)) as [k [-> Hk]].
    rewrite (Hk Hn), length_firstn, sort_length. reflexivity.
Qed.

Example getNationalTvGames_sample :
  getNationalTvGames sample_games (Some 1%Z) = [nba_a]
  /\ top_games "NFL" sample_games (Some 2%Z) = [nfl_b; nfl_c]
  /\ top_games "NFL" sample_games (Some (-1)%Z) = [nfl_b; nfl_c].
Proof. vm_compute. repeat split. Qed.

Lemma top_games_are_top_witness :
  List.length (top_games "NFL" sample_games (Some 2%Z)) = 2%nat.
Proof.
  destruct (top_games_are_top "NFL" sample_games (Some 2%Z)) as [_ [_ [H _]]].
  exact (H 2%Z ltac:(lia)).
Defined.

(** *** The games of the week *)

Lemma groups_members (dayLabel : string -> string) (getTime : string -> option Z)
  (games : list GameWithPrediction) (sport : Sport) (g : GameWithPrediction) :
  (exists grp, In grp (groupGamesByDay dayLabel getTime games sport)
               /\ In g (dg_games grp))
  <-> In g (of_sport sport games).
Proof.
  rewrite <- (Permutation_in' eq_refl (groups_concat dayLabel getTime games sport)).
  rewrite in_concat. split.
  - intros [grp [Hgrp Hg]]. exists (dg_games grp). split; [now apply in_map | exact Hg].
  - intros [l [Hl Hg]]. apply in_map_iff in Hl. destruct Hl as [grp [<- Hgrp]].
    now exists grp.
Qed.

(** X4.  [groupGamesByDayThisWeek] shows exactly the games of the requested
    sport that start between now and seven days from now: a game is in one
    of the groups if and only if it is a game of the input of that sport
    whose start time parses and lies in that window. *)
Theorem groupGamesByDayThisWeek_window :
  forall (dayLabel : string -> string) (getTime : string -> option Z) (now : Z)
         (games : list GameWithPrediction) (sport : Sport) (g : GameWithPrediction),
    (exists grp,
        In grp (groupGamesByDayThisWeek dayLabel getTime now games sport)
        /\ In g (dg_games grp))
    <-> (In g games
         /\ Types.sport g = sport_literal sport
         /\ exists t, getTime (start_time g) = Some t
                      /\ (now <= t <= now + 7 * 24 * 60 * 60 * 1000)%Z).
Proof.
  intros dayLabel getTime now games sport g.
  unfold groupGamesByDayThisWeek. rewrite groups_members.
  unfold of_sport. rewrite !filter_In. unfold this_week.
  destruct (String.eqb (Types.sport g) (sport_literal sport)) eqn:Es; simpl.
  - apply String.eqb_eq in Es.
    destruct (getTime (start_time g)) as [t|]; split.
    + intros [[Hin Hw] _]. apply andb_prop in Hw. destruct Hw as [H1 H2].
      apply Z.leb_le in H1, H2. unfold week_ms in H2.
      repeat split; try assumption. exists t. split; [reflexivity | lia].
    + intros [Hin [_ [t' [[= <-] [H1 H2]]]]]. repeat split; try assumption.
      apply andb_true_intro. split; apply Z.leb_le; unfold week_ms; lia.
    + intros [[_ F] _]. discriminate.
    + intros [_ [_ [t' [F _]]]]. discriminate.
  - apply String.eqb_neq in Es. split.
    + intros [[_ F] _]. discriminate.
    + intros [_ [F _]]. contradiction.
Qed.

End SportUtilsMoreFacts.

(** ** More on [filteredGames] *)

Module GamesContextMoreFacts.
Import Js Types GamesContextCommon GamesContextMore Screens JsFacts SportUtilsFacts
       GamesContextFacts Samples MoreSamples.

Lemma Qltb_true (a b : Q) : Qltb a b = true <-> (a < b)%Q.
Proof.
  unfold Qltb. rewrite negb_true_iff. split.
  - intros H. apply Qnot_le_lt. intros F. apply Qle_bool_iff in F. congruence.
  - intros H. apply not_true_is_false. intros F. apply Qle_bool_iff in F.
    apply (Qlt_not_le _ _ H F).
Qed.

Lemma Qltb_false_iff (a b : Q) : Qltb a b = false <-> (b <= a)%Q.
Proof.
  split; [apply Qltb_false|].
  intros H. apply not_true_is_false. intros F. apply Qltb_true in F.
  apply (Qlt_not_le _ _ F H).
Qed.

Lemma below_top30_off (games : list GameWithPrediction) (name : string)
  (on : option bool) (g : GameWithPrediction) :
  flag on = false -> GamesContext.below_top30 games name on g = false.
Proof.
  intros H. unfold GamesContext.below_top30. rewrite H.
  now rewrite andb_false_r.
Qed.

Lemma below_top30_other (games : list GameWithPrediction) (name : string)
  (on : option bool) (g : GameWithPrediction) :
  String.eqb (sport g) name = false ->
  GamesContext.below_top30 games name on g = false.
Proof. intros H. unfold GamesContext.below_top30. now rewrite H. Qed.

Lemma sport_mismatch_spec (f : FilterState) (g : GameWithPrediction) :
  sport_mismatch f g = false
  <-> forall s, f_sport f = Some s -> sport g = sport_literal s.
Proof.
  split; [apply sport_mismatch_false|].
  unfold sport_mismatch. intros H. destruct (f_sport f) as [s|]; [|reflexivity].
  rewrite (H s eq_refl). now rewrite String.eqb_refl.
Qed.

(** X5.  With the six switches off and no date chosen, the games shown by
    the context of [frontend/] are exactly the games of the list that have
    the sport of the filter, when it names one, and an upset probability
    at or above [minUpsPct], or [confidenceThreshold] when [minUpsPct] is
    not defined. *)
Theorem filteredGames_plain :
  forall (cal : Calendar) (games : list GameWithPrediction) (f : FilterState)
         (g : GameWithPrediction),
    flag (onlyPrimeTime f) = false -> flag (onlyNationalTv f) = false ->
    flag (onlyHighStakes f) = false -> flag (onlyMarquee f) = false ->
    flag (onlyFeatured f) = false -> flag (onlyTopGames f) = false ->
    f_date f = None ->
    (In g (GamesContext.filteredGames cal games f)
     <-> In g games
         /\ (forall s, f_sport f = Some s -> sport g = sport_literal s)
         /\ (GamesContext.applicable_min f <= ups g)%Q).
Proof.
  intros cal games f g H1 H2 H3 H4 H5 H6 Hd.
  unfold GamesContext.filteredGames. rewrite filter_In.
  rewrite <- sport_mismatch_spec.
  unfold GamesContext.keep, GamesContext.applicable_min, wrong_day.
  rewrite H1, Hd, !below_top30_off by assumption.
  rewrite andb_false_r. simpl.
  destruct (sport_mismatch f g); [intuition discriminate|].
  destruct (minUpsPct f) as [m|].
  - destruct (Qltb (ups g) m) eqn:E.
    + apply Qltb_true in E. split; [intuition discriminate|].
      intros [_ [_ F]]. exfalso. apply (Qlt_not_le _ _ E F).
    + apply Qltb_false in E. tauto.
  - destruct (Qltb (ups g) (confidenceThreshold f)) eqn:E.
    + apply Qltb_true in E. split; [intuition discriminate|].
      intros [_ [_ F]]. exfalso. apply (Qlt_not_le _ _ E F).
    + apply Qltb_false in E. tauto.
Qed.

Lemma filteredGames_plain_witness :
  In nfl_b (GamesContext.filteredGames plain_calendar sample_games all_off).
Proof.
  apply (filteredGames_plain plain_calendar sample_games all_off nfl_b);
    try reflexivity.
  split; [vm_compute; tauto|]. split.
  - intros s [= <-]. reflexivity.
  - vm_compute. discriminate.
Defined.

(** X6.  On the NFL tab the two copies of the context show the same
    games, whatever the rest of the filter. *)
Theorem filteredGames_copies_agree_on_NFL :
  forall (cal : Calendar) (games : list GameWithPrediction) (f : FilterState),
    f_sport f = Some NFL ->
    GamesContext.filteredGames cal games f
    = UpsetiqGamesContext.filteredGames cal games f.
Proof.
  intros cal games f Hs.
  unfold GamesContext.filteredGames, UpsetiqGamesContext.filteredGames.
  apply filter_ext. intros g.
  unfold GamesContext.keep, UpsetiqGamesContext.keep.
  destruct (sport_mismatch f g) eqn:Em; [reflexivity|].
  pose proof (sport_mismatch_false f g Em NFL Hs) as Hg. simpl in Hg.
  assert (En : String.eqb (sport g) "NFL" = true) by (rewrite Hg; reflexivity).
  rewrite En.
  rewrite !below_top30_other by (rewrite Hg; reflexivity).
  reflexivity.
Qed.

Lemma filteredGames_copies_agree_on_NFL_witness :
  GamesContext.filteredGames plain_calendar sample_games nfl_filter
  = UpsetiqGamesContext.filteredGames plain_calendar sample_games nfl_filter.
Proof.
  exact (filteredGames_copies_agree_on_NFL plain_calendar sample_games nfl_filter
           eq_refl).
Defined.

(** X7.  With the prime-time switch on, every NFL game shown is a prime
    time game, in both copies of the context. *)
Theorem filteredGames_prime_time :
  forall (cal : Calendar) (games : list GameWithPrediction) (f : FilterState)
         (g : GameWithPrediction),
    onlyPrimeTime f = Some true -> sport g = "NFL" ->
    (In g (GamesContext.filteredGames cal games f) -> isPrimeTime g = Some true)
    /\ (In g (UpsetiqGamesContext.filteredGames cal games f) ->
        isPrimeTime g = Some true).
Proof.
  intros cal games f g Hp Hs.
  assert (E : String.eqb (sport g) "NFL" && flag (onlyPrimeTime f) = true)
    by (rewrite Hs, Hp; reflexivity).
  split; intros Hin; apply filter_In in Hin; destruct Hin as [_ Hk].
  - unfold GamesContext.keep in Hk.
    destruct (sport_mismatch f g); [discriminate|].
    destruct (match minUpsPct f with Some m => _ | None => _ end); [discriminate|].
    rewrite E in Hk. simpl in Hk.
    destruct (isPrimeTime g) as [[|]|]; simpl in Hk; try discriminate. reflexivity.
  - unfold UpsetiqGamesContext.keep in Hk.
    destruct (sport_mismatch f g); [discriminate|].
    destruct (match String.eqb (sport g) "NFL", minUpsPct f with
              | true, Some m => _ | _, _ => _ end); [discriminate|].
    rewrite E in Hk. simpl in Hk.
    destruct (isPrimeTime g) as [[|]|]; simpl in Hk; try discriminate. reflexivity.
Qed.

Lemma filteredGames_prime_time_witness :
  In nfl_a (GamesContext.filteredGames plain_calendar sample_games prime_filter)
  /\ isPrimeTime nfl_a = Some true.
Proof.
  assert (H : In nfl_a (GamesContext.filteredGames plain_calendar sample_games
                          prime_filter))
    by (vm_compute; left; reflexivity).
  split; [exact H|].
  exact (proj1 (filteredGames_prime_time plain_calendar sample_games prime_filter
                  nfl_a eq_refl eq_refl) H).
Defined.

Lemma top30_threshold_reached (games : list GameWithPrediction) (name : string)
  (g : GameWithPrediction) :
  In g games -> sport g = name ->
  exists h, In h games /\ sport h = name
            /\ GamesContext.top30_threshold games name = ups h.
Proof.
  intros Hin Hs. unfold GamesContext.top30_threshold.
  set (all := filter (fun g => String.eqb (sport g) name) games).
  assert (Hall : In g all)
    by (apply filter_In; split; [exact Hin | subst; apply String.eqb_refl]).
  assert (Hlen : (0 < List.length (sort SportUtils.by_ups_desc all))%nat).
  { rewrite sort_length. destruct all; [destruct Hall | simpl; lia]. }
  destruct (nth_error (sort SportUtils.by_ups_desc all)
              (3 * List.length (sort SportUtils.by_ups_desc all) / 10)) as [h|] eqn:E.
  - exists h. apply nth_error_In in E. apply sort_In in E.
    apply filter_In in E. destruct E as [Hh Hn]. apply String.eqb_eq in Hn.
    repeat split; assumption.
  - exfalso. apply nth_error_None in E.
    assert ((3 * List.length (sort SportUtils.by_ups_desc all) / 10
             < List.length (sort SportUtils.by_ups_desc all))%nat)
      by (apply Nat.Div0.div_lt_upper_bound; lia).
    lia.
Qed.

(** X8.  The top-30% stand-in used for the national TV, high-stakes,
    marquee, featured and top-games switches never hides the best game of
    its sport: a game whose upset probability is the highest among the
    games of its sport is not below the cut-off. *)
Theorem below_top30_keeps_best :
  forall (games : list GameWithPrediction) (name : string) (on : option bool)
         (g : GameWithPrediction),
    In g games -> sport g = name ->
    (forall h, In h games -> sport h = name -> (ups h <= ups g)%Q) ->
    GamesContext.below_top30 games name on g = false.
Proof.
  intros games name on g Hin Hs Hbest.
  destruct (top30_threshold_reached games name g Hin Hs) as [h [Hh [Hn Ht]]].
  unfold GamesContext.below_top30. rewrite Ht.
  rewrite (proj2 (Qltb_false_iff (ups g) (ups h)) (Hbest h Hh Hn)).
  now rewrite andb_false_r.
Qed.

Lemma below_top30_keeps_best_witness :
  GamesContext.below_top30 sample_games "NFL" (Some true) nfl_b = false.
Proof.
  apply below_top30_keeps_best.
  - vm_compute. tauto.
  - reflexivity.
  - intros h Hh Hs. simpl in Hh.
    destruct Hh as [<-|[<-|[<-|[<-|[]]]]]; vm_compute; discriminate.
Defined.

Lemma strict_neq_false (a b : option Z) :
  strict_neq a b = false -> exists x, a = Some x /\ b = Some x.
Proof.
  destruct a as [x|], b as [y|]; simpl; try discriminate.
  intros H. apply negb_false_iff, Z.eqb_eq in H. subst. now exists y.
Qed.

Lemma wrong_day_false (cal : Calendar) (f : FilterState) (g : GameWithPrediction)
  (d : Date) :
  f_date f = Some d -> wrong_day cal f g = false ->
  exists t td,
    parseDate cal (start_time g) = Some t /\ d = Some td
    /\ getDate cal t = getDate cal td
    /\ getMonth cal t = getMonth cal td
    /\ getFullYear cal t = getFullYear cal td.
Proof.
  unfold wrong_day, other_day. intros -> H.
  apply orb_false_elim in H. destruct H as [H Hy].
  apply orb_false_elim in H. destruct H as [Hd Hm].
  apply strict_neq_false in Hd, Hm, Hy.
  destruct Hd as [x [Hx1 Hx2]], Hm as [y [Hy1 Hy2]], Hy as [z [Hz1 Hz2]].
  unfold part in *.
  destruct (parseDate cal (start_time g)) as [t|]; [|discriminate].
  destruct d as [td|]; [|discriminate].
  simpl in *. exists t, td. repeat split; congruence.
Qed.

(** X9.  When a date is chosen, a game is shown only if its start time
    parses as a date, the chosen date is a valid one, and the two have the
    same day of the month, month and year in the calendar of the device;
    this holds in both copies of the context.  A game whose start time does
    not parse is never shown then. *)
Theorem filteredGames_same_day :
  forall (cal : Calendar) (games : list GameWithPrediction) (f : FilterState)
         (g : GameWithPrediction) (d : Date),
    f_date f = Some d ->
    In g (GamesContext.filteredGames cal games f)
    \/ In g (UpsetiqGamesContext.filteredGames cal games f) ->
    exists t td,
      parseDate cal (start_time g) = Some t /\ d = Some td
      /\ getDate cal t = getDate cal td
      /\ getMonth cal t = getMonth cal td
      /\ getFullYear cal t = getFullYear cal td.
Proof.
  intros cal games f g d Hd Hin.
  apply (wrong_day_false cal f g d Hd).
  destruct Hin as [Hin|Hin]; apply filter_In in Hin; destruct Hin as [_ Hk].
  - unfold GamesContext.keep in Hk.
    repeat match type of Hk with
           | (if ?c then false else _) = true =>
               destruct c eqn:?; [discriminate|]
           end.
    destruct (wrong_day cal f g); [discriminate | reflexivity].
  - unfold UpsetiqGamesContext.keep in Hk.
    repeat match type of Hk with
           | (if ?c then false else _) = true =>
               destruct c eqn:?; [discriminate|]
           end.
    destruct (wrong_day cal f g); [discriminate | reflexivity].
Qed.

Lemma filteredGames_same_day_witness :
  In nfl_b (GamesContext.filteredGames toy_calendar sample_games day_filter)
  /\ parseDate toy_calendar (start_time nfl_b) = Some 5%Z.
Proof.
  assert (H : In nfl_b (GamesContext.filteredGames toy_calendar sample_games
                          day_filter))
    by (vm_compute; right; left; reflexivity).
  split; [exact H|].
  destruct (filteredGames_same_day toy_calendar sample_games day_filter nfl_b
              (Some 5%Z) eq_refl (or_introl H)) as [t [td [Ht _]]].
  vm_compute. reflexivity.
Defined.

End GamesContextMoreFacts.

(** ** More on what [get] and [post] return and throw *)

Module ApiMoreFacts.
Import Js Api ApiMore Samples MoreSamples.

Lemma inject_Z_truthy (z : Z) : z <> 0%Z -> truthy (JNum (inject_Z z)) = true.
Proof.
  intros Hz. simpl. apply negb_true_iff, not_true_is_false.
  intros E. apply Qeq_bool_iff in E. unfold Qeq in E. simpl in E. lia.
Qed.

Lemma get_prop_readable (v : JsVal) (k : string) :
  readable v -> get_prop v k = Returned (field v k).
Proof.
  intros [Hn Hu]. unfold field.
  destruct v; try reflexivity; try congruence.
  simpl. now destruct (assoc k fields).
Qed.

Lemma on_error_ApiError (message detail : JsVal) (z : Z) :
  z <> 0%Z ->
  on_error (ApiError message (JNum (inject_Z z)) detail)
  = Thrown (ApiError message (JNum (inject_Z z)) detail).
Proof.
  intros Hz. unfold on_error.
  assert (E : get_prop (ApiError message (JNum (inject_Z z)) detail) "status"
              = Returned (JNum (inject_Z z))) by reflexivity.
  rewrite E. unfold bind. now rewrite (inject_Z_truthy z Hz).
Qed.

(** What the [try]/[catch] of [get] and [post] makes of a non-ok answer. *)
Lemma not_ok_thrown (r : Response) :
  ok r = false -> status r <> 0%Z -> readable (errorData r) ->
  try_catch (handle_response r)
  = Thrown (ApiError
              (or_else (field (errorData r) "detail")
                       (JStr ("HTTP " ++ string_of_Z (status r))%string))
              (JNum (inject_Z (status r)))
              (field (errorData r) "detail")).
Proof.
  intros Hok Hst Hr. unfold handle_response. rewrite Hok. simpl negb. cbv iota.
  assert (E : bind (catch_with (json r) (fun _ => JObj []))
                   (fun errorData => get_prop errorData "detail")
              = Returned (field (errorData r) "detail")).
  { unfold errorData in *. destruct (json r) as [v|e]; simpl.
    - now apply get_prop_readable.
    - reflexivity. }
  rewrite E. simpl try_catch. now apply on_error_ApiError.
Qed.

(** What the [catch] clause makes of a rejected [fetch]. *)
Lemma rejected_thrown (err : JsVal) :
  readable err ->
  on_error err
  = if truthy (field err "status") then Thrown err
    else Thrown (ApiError (JStr network_error_message) (JNum 0) (field err "message")).
Proof.
  intros Hr. unfold on_error. rewrite (get_prop_readable err "status" Hr). simpl.
  destruct (truthy (field err "status")); [reflexivity|].
  now rewrite (get_prop_readable err "message" Hr).
Qed.

Lemma on_error_throws (err : JsVal) : exists e, on_error err = Thrown e.
Proof.
  unfold on_error. destruct (get_prop err "status") as [st|e]; simpl; [|eauto].
  destruct (truthy st); [eauto|].
  destruct (get_prop err "message") as [m|e]; simpl; eauto.
Qed.

Lemma try_fetch_returns (pf : Platform) (req : Request) (v : JsVal) :
  try_catch (try_fetch pf req) = Returned v
  <-> exists r, fetch pf req = Returned r /\ ok r = true /\ json r = Returned v.
Proof.
  unfold try_fetch. destruct (fetch pf req) as [r|e] eqn:Ef.
  - unfold handle_response. destruct (ok r) eqn:Eo; simpl.
    + split; [intros H; exists r; auto|].
      intros [r' [[= <-] [_ H]]]. exact H.
    + split.
      * intros H. exfalso.
        destruct (bind (catch_with (json r) (fun _ => JObj []))
                       (fun errorData => get_prop errorData "detail")) as [d|e];
          simpl in H;
          match type of H with
          | on_error ?x = _ => destruct (on_error_throws x) as [e' He]
          end; congruence.
      * intros [r' [[= <-] [F _]]]. congruence.
  - simpl. split.
    + intros H. destruct (on_error_throws e) as [e' He]. congruence.
    + intros [r [F _]]. discriminate.
Qed.

Lemma get_after_URL (pf : Platform) (baseUrl endpoint u : string)
  (params : option (list (string * string))) :
  new_URL pf (baseUrl ++ endpoint)%string = Returned u ->
  get pf baseUrl endpoint params = try_catch (try_fetch pf (get_request pf u params)).
Proof. intros H. unfold get. rewrite H. reflexivity. Qed.

(** X10.  [get] and [post] return a value only in one case: [fetch]
    answered with an ok response whose body is JSON, and the value is that
    body.  In particular nothing is returned for a non-ok response or when
    [fetch] fails. *)
Theorem get_post_return_only_ok_bodies :
  forall (pf : Platform) (baseUrl endpoint : string)
         (params : option (list (string * string))) (data v : JsVal),
    (get pf baseUrl endpoint params = Returned v
     <-> exists u r,
           new_URL pf (baseUrl ++ endpoint)%string = Returned u
           /\ fetch pf (get_request pf u params) = Returned r
           /\ ok r = true /\ json r = Returned v)
    /\ (post pf baseUrl endpoint data = Returned v
        <-> exists r,
              fetch pf (post_request pf baseUrl endpoint data) = Returned r
              /\ ok r = true /\ json r = Returned v).
Proof.
  intros pf baseUrl endpoint params data v. split.
  - unfold get. destruct (new_URL pf (baseUrl ++ endpoint)%string) as [u|e]; simpl.
    + fold (get_request pf u params). rewrite try_fetch_returns. split.
      * intros [r H]. exists u, r. auto.
      * intros [u' [r [[= <-] H]]]. now exists r.
    + split; [discriminate | intros [u [r [F _]]]; discriminate].
  - unfold post. fold (post_request pf baseUrl endpoint data).
    apply try_fetch_returns.
Qed.

(** X11.  A non-ok response with a non-zero status is reported, by [get]
    and by [post], as an [ApiError] that carries the HTTP status and, as
    its message, the [detail] of the error body when there is one and
    [HTTP <status>] otherwise; a body that is not JSON counts as an empty
    object.  (The body must not be the JSON value [null].) *)
Theorem get_post_report_http_status :
  forall (pf : Platform) (baseUrl endpoint u : string)
         (params : option (list (string * string))) (data : JsVal) (r : Response),
    ok r = false -> status r <> 0%Z -> readable (errorData r) ->
    (new_URL pf (baseUrl ++ endpoint)%string = Returned u ->
     fetch pf (get_request pf u params) = Returned r ->
     get pf baseUrl endpoint params
     = Thrown (ApiError
                 (or_else (field (errorData r) "detail")
                          (JStr ("HTTP " ++ string_of_Z (status r))%string))
                 (JNum (inject_Z (status r)))
                 (field (errorData r) "detail")))
    /\ (fetch pf (post_request pf baseUrl endpoint data) = Returned r ->
        post pf baseUrl endpoint data
        = Thrown (ApiError
                    (or_else (field (errorData r) "detail")
                             (JStr ("HTTP " ++ string_of_Z (status r))%string))
                    (JNum (inject_Z (status r)))
                    (field (errorData r) "detail"))).
Proof.
  intros pf baseUrl endpoint u params data r Hok Hst Hr. split.
  - intros Hu Hf. unfold get. rewrite Hu. simpl.
    fold (get_request pf u params). unfold try_fetch. rewrite Hf.
    now apply not_ok_thrown.
  - intros Hf. unfold post. fold (post_request pf baseUrl endpoint data).
    unfold try_fetch. rewrite Hf. now apply not_ok_thrown.
Qed.

Lemma get_post_report_http_status_witness :
  get (plain_platform bad_gateway) "https://api.upsetiq.com" "/games" None
  = Thrown (ApiError (JStr "HTTP 502") (JNum 502) JUndefined).
Proof.
  refine (proj1 (get_post_report_http_status (plain_platform bad_gateway)
                   "https://api.upsetiq.com" "/games" "https://api.upsetiq.com/games"
                   None JNull bad_gateway eq_refl _ _) eq_refl eq_refl).
  - discriminate.
  - split; discriminate.
Defined.

(** X12.  When [fetch] itself fails with an error object, [get] and [post]
    throw the error unchanged if it has a truthy [status], and otherwise an
    [ApiError] of status 0 with the network message and the message of the
    error as its detail. *)
Theorem get_post_report_fetch_failure :
  forall (pf : Platform) (baseUrl endpoint u : string)
         (params : option (list (string * string))) (data err : JsVal),
    readable err ->
    (new_URL pf (baseUrl ++ endpoint)%string = Returned u ->
     fetch pf (get_request pf u params) = Thrown err ->
     get pf baseUrl endpoint params
     = if truthy (field err "status") then Thrown err
       else Thrown (ApiError (JStr network_error_message) (JNum 0)
                             (field err "message")))
    /\ (fetch pf (post_request pf baseUrl endpoint data) = Thrown err ->
        post pf baseUrl endpoint data
        = if truthy (field err "status") then Thrown err
          else Thrown (ApiError (JStr network_error_message) (JNum 0)
                                (field err "message"))).
Proof.
  intros pf baseUrl endpoint u params data err Hr. split.
  - intros Hu Hf. unfold get. rewrite Hu. simpl.
    fold (get_request pf u params). unfold try_fetch. rewrite Hf.
    now apply rejected_thrown.
  - intros Hf. unfold post. fold (post_request pf baseUrl endpoint data).
    unfold try_fetch. rewrite Hf. now apply rejected_thrown.
Qed.

Lemma get_post_report_fetch_failure_witness :
  post offline_platform "https://api.upsetiq.com" "/alerts/subscribe" JNull
  = Thrown (ApiError (JStr network_error_message) (JNum 0)
                     (JStr "Network request failed")).
Proof.
  refine (proj2 (get_post_report_fetch_failure offline_platform
                   "https://api.upsetiq.com" "/alerts/subscribe" "" None JNull
                   (type_error "Network request failed") _) eq_refl).
  split; discriminate.
Defined.

End ApiMoreFacts.

(** ** The screens: alerts and filters *)

Module ScreensFacts.
Import Js Types GamesContextCommon GamesContextMore Screens AlertsContext
       GamesContextFacts GamesContextMoreFacts Samples MoreSamples.

Lemma find_unique (games : list GameWithPrediction) (g : GameWithPrediction) :
  NoDup (map id games) -> In g games ->
  getGameById games (id g) = Some g.
Proof.
  unfold getGameById. induction games as [|h games IH]; simpl; [tauto|].
  intros Hnd [->|Hin].
  - now rewrite String.eqb_refl.
  - inversion Hnd as [|? ? Hn Hd]; subst.
    destruct (String.eqb (id h) (id g)) eqn:E.
    + apply String.eqb_eq in E. exfalso. apply Hn. rewrite E. now apply in_map.
    + now apply IH.
Qed.

(** X13.  An alert set with the "Alert Me" button of the home screen takes
    the current upset probability of the game as its threshold; when the
    ids of the games are pairwise different, the alerts screen therefore
    shows it as TRIGGERED from the start. *)
Theorem alert_me_is_triggered :
  forall (cal : Calendar) (games : list GameWithPrediction) (f : FilterState)
         (now : Z) (iso gameId : string) (alerts : list Alert)
         (game : GameWithPrediction),
    NoDup (map id games) ->
    find (fun g => String.eqb (id g) gameId)
         (GamesContext.filteredGames cal games f) = Some game ->
    exists a,
      handleAlert now iso (GamesContext.filteredGames cal games f) gameId alerts
        = alerts ++ [a]
      /\ a_game_id a = gameId /\ threshold a = ups game /\ triggered a = false
      /\ renderAlert games a
         = Some (mkAlertCard (riskLevel (ups game)) "TRIGGERED" true).
Proof.
  intros cal games f now iso gameId alerts game Hnd Hf.
  unfold handleAlert. rewrite Hf. unfold addAlert.
  eexists. split; [reflexivity|]. simpl. repeat split.
  apply find_some in Hf. destruct Hf as [Hin Hid].
  apply String.eqb_eq in Hid. apply filter_In in Hin. destruct Hin as [Hin _].
  unfold renderAlert. simpl. rewrite <- Hid, (find_unique games game Hnd Hin).
  assert (E : Qle_bool (ups game) (ups game) = true)
    by (apply Qle_bool_iff, Qle_refl).
  now rewrite E.
Qed.

Lemma alert_me_is_triggered_witness :
  renderAlert sample_games
    (mkAlert "alert-7" "2" "current-user" (ups nfl_b) false "now")
  = Some (mkAlertCard high "TRIGGERED" true).
Proof.
  destruct (alert_me_is_triggered plain_calendar sample_games all_off 7 "now" "2" []
              nfl_b) as [a [Ha [_ [_ [_ Hr]]]]].
  - vm_compute. repeat constructor; simpl; intuition discriminate.
  - vm_compute. reflexivity.
  - vm_compute in Ha. injection Ha as <-. exact Hr.
Defined.

Lemma setSwitch_minUpsPct (sw : Switch) (f : FilterState) (v : bool) :
  minUpsPct (setSwitch sw f v) = Some (shown_minUpsPct f).
Proof. destruct sw; reflexivity. Qed.

(** X14.  Flipping any switch of a sport-specific filter bar, on or off,
    also writes the slider value the screen shows into the filter; when no
    slider value had been set, the games below the shown default of 55
    disappear, although they were shown before if they reached
    [confidenceThreshold]. *)
Theorem switch_applies_shown_minimum :
  forall (sw : Switch) (cal : Calendar) (games : list GameWithPrediction)
         (f : FilterState) (v : bool) (g : GameWithPrediction),
    GamesContext.applicable_min (setSwitch sw f v) = shown_minUpsPct f
    /\ (minUpsPct f = None ->
        GamesContext.applicable_min f = confidenceThreshold f
        /\ (In g (GamesContext.filteredGames cal games (setSwitch sw f v)) ->
            (55 <= ups g)%Q)).
Proof.
  intros sw cal games f v g.
  assert (E : GamesContext.applicable_min (setSwitch sw f v) = shown_minUpsPct f)
    by (unfold GamesContext.applicable_min; now rewrite setSwitch_minUpsPct).
  split; [exact E|]. intros Hn. split.
  - unfold GamesContext.applicable_min. now rewrite Hn.
  - intros Hin. apply filter_In in Hin. destruct Hin as [_ Hk].
    apply keep_sound in Hk. destruct Hk as [_ Hk].
    rewrite E in Hk. unfold shown_minUpsPct in Hk. now rewrite Hn in Hk.
Qed.

Lemma switch_applies_shown_minimum_witness :
  minUpsPct all_off = None
  /\ In nfl_b (GamesContext.filteredGames plain_calendar sample_games
                 (setSwitch PrimeTime all_off false))
  /\ (55 <= ups nfl_b)%Q.
Proof.
  assert (H : In nfl_b (GamesContext.filteredGames plain_calendar sample_games
                          (setSwitch PrimeTime all_off false)))
    by (vm_compute; right; left; reflexivity).
  split; [reflexivity|]. split; [exact H|].
  exact (proj2 (proj2 (switch_applies_shown_minimum PrimeTime plain_calendar
                         sample_games all_off false nfl_b) eq_refl) H).
Defined.

(** *** The alert button of the game detail screen *)

Lemma fold_removeAlert (l alerts : list Alert) :
  fold_left (fun prev alert => removeAlert (a_id alert) prev) l alerts
  = filter (fun a => negb (removed_by l a)) alerts.
Proof.
  revert alerts. induction l as [|b l IH]; intros alerts; simpl.
  - unfold removed_by. simpl. induction alerts as [|a alerts IHa]; simpl; congruence.
  - rewrite IH. unfold removeAlert.
    induction alerts as [|a alerts IHa]; simpl; [reflexivity|].
    unfold removed_by at 2. simpl.
    destruct (String.eqb (a_id a) (a_id b)); simpl.
    + exact IHa.
    + fold (removed_by l a). destruct (removed_by l a); simpl; now rewrite IHa.
Qed.

Lemma removed_by_self (l : list Alert) (a : Alert) : In a l -> removed_by l a = true.
Proof.
  intros H. unfold removed_by. apply existsb_exists. exists a.
  split; [exact H | apply String.eqb_refl].
Qed.

Lemma filter_filter_nil {A : Type} (p q : A -> bool) (l : list A) :
  (forall x, In x l -> p x = true -> q x = false) ->
  filter p (filter q l) = [].
Proof.
  induction l as [|x l IH]; simpl; intros H; [reflexivity|].
  destruct (q x) eqn:Eq; simpl.
  - destruct (p x) eqn:Ep.
    + rewrite (H x (or_introl eq_refl) Ep) in Eq. discriminate.
    + apply IH. intros y Hy. apply H. now right.
  - apply IH. intros y Hy. apply H. now right.
Qed.

Lemma filter_nothing {A : Type} (p : A -> bool) (l : list A) :
  (forall x, In x l -> p x = true) -> filter p l = l.
Proof.
  induction l as [|x l IH]; simpl; intros H; [reflexivity|].
  rewrite (H x (or_introl eq_refl)), IH; auto.
Qed.

(** X15.  The alert button of the game detail screen works as a switch:
    when the game has alerts, pressing it leaves the game without any, and
    keeps every alert whose id is none of theirs; when the game has none,
    pressing it adds one alert at 65, and pressing it again gives back the
    alerts there were, provided the id of the new alert was not in use. *)
Theorem toggleAlert_switch :
  forall (now now' : Z) (iso iso' gameId : string) (alerts : list Alert),
    (getAlertsForGame alerts gameId <> [] ->
     getAlertsForGame (toggleAlert now iso gameId alerts) gameId = []
     /\ forall a, In a alerts ->
          (forall b, In b (getAlertsForGame alerts gameId) -> a_id a <> a_id b) ->
          In a (toggleAlert now iso gameId alerts))
    /\ (getAlertsForGame alerts gameId = [] ->
        getAlertsForGame (toggleAlert now iso gameId alerts) gameId
          = [mkAlert ("alert-" ++ string_of_Z now)%string gameId "current-user"
                     65 false iso]
        /\ ((forall a, In a alerts -> a_id a <> ("alert-" ++ string_of_Z now)%string) ->
            toggleAlert now' iso' gameId (toggleAlert now iso gameId alerts)
            = alerts)).
Proof.
  intros now now' iso iso' gameId alerts. split.
  - intros Hne. unfold toggleAlert.
    destruct (getAlertsForGame alerts gameId) as [|m mine] eqn:Em; [congruence|].
    simpl Nat.ltb. cbv iota. rewrite <- Em, fold_removeAlert. split.
    + apply filter_filter_nil. intros a Ha Hg.
      rewrite removed_by_self; [reflexivity|].
      apply filter_In. now split.
    + intros a Ha Hid. apply filter_In. split; [exact Ha|].
      apply negb_true_iff, not_true_is_false. intros F.
      apply existsb_exists in F. destruct F as [b [Hb E]].
      apply String.eqb_eq in E. exact (Hid b Hb E).
  - intros Hnil.
    assert (Et : toggleAlert now iso gameId alerts = addAlert now iso gameId 65 alerts)
      by (unfold toggleAlert; rewrite Hnil; reflexivity).
    rewrite Et.
    assert (Hnew : getAlertsForGame (addAlert now iso gameId 65 alerts) gameId
                   = [mkAlert ("alert-" ++ string_of_Z now)%string gameId
                              "current-user" 65 false iso]).
    { unfold getAlertsForGame, addAlert in *. rewrite filter_app, Hnil. simpl.
      now rewrite String.eqb_refl. }
    split; [exact Hnew|]. intros Hfresh.
    unfold toggleAlert. rewrite Hnew. simpl Nat.ltb. cbv iota.
    rewrite fold_removeAlert. unfold addAlert. rewrite filter_app.
    rewrite filter_nothing.
    + simpl. unfold removed_by. simpl. rewrite String.eqb_refl. simpl.
      apply app_nil_r.
    + intros a Ha. unfold removed_by. simpl. rewrite orb_false_r.
      apply negb_true_iff, String.eqb_neq. now apply Hfresh.
Qed.

Example toggleAlert_sample :
  toggleAlert 7 "now" "9" [watch_65] = []
  /\ toggleAlert 7 "now" "2" [watch_65]
     = [watch_65; mkAlert "alert-7" "2" "current-user" 65 false "now"].
Proof. vm_compute. split; reflexivity. Qed.

Lemma toggleAlert_switch_witness :
  getAlertsForGame (toggleAlert 7 "now" "9" [watch_65]) "9" = []
  /\ toggleAlert 8 "later" "2" (toggleAlert 7 "now" "2" [watch_65]) = [watch_65].
Proof.
  destruct (toggleAlert_switch 7 8 "now" "later" "9" [watch_65]) as [H9 _].
  destruct (toggleAlert_switch 7 8 "now" "later" "2" [watch_65]) as [_ H2].
  split.
  - apply H9. vm_compute. discriminate.
  - apply (H2 eq_refl).
    intros a [<-|[]]. vm_compute. discriminate.
Defined.

End ScreensFacts.

(** ** Refreshing the games *)

Module RefreshFacts.
Import Js Types GamesApi GamesContextMore Api ApiMore ApiMoreFacts Samples MoreSamples.




Lemma errorMessage_ApiError (message status detail : JsVal) :
  errorMessage (ApiError message status detail) = JStr "Failed to fetch games".
Proof. reflexivity. Qed.

(** X17.  What the server says about a failed request does not reach the
    screen: when the server answers the request for the games with a
    non-ok response, the [ApiError] thrown by the client is not an [Error]
    object, and the error kept by [refreshGames] is the fixed text
    "Failed to fetch games" instead of the [detail] sent. *)
Theorem server_detail_not_shown :
  forall (pf : Platform) (baseUrl u : string) (r : Response)
         (typed : string -> list (string * string) -> Outcome GamesApiResponse)
         (mock : list GameWithPrediction) (s : ContextState),
    ok r = false -> status r <> 0%Z -> readable (errorData r) ->
    new_URL pf (baseUrl ++ "/games")%string = Returned u ->
    fetch pf (get_request pf u (Some [("sport", sport_literal (filter_sport s))]))
      = Returned r ->
    (forall e,
        get pf baseUrl "/games" (Some [("sport", sport_literal (filter_sport s))])
          = Thrown e ->
        typed "/games" [("sport", sport_literal (filter_sport s))] = Thrown e) ->
    cs_error (refreshGames (fetchGames typed) mock s)
    = Some (JStr "Failed to fetch games").
Proof.
  intros pf baseUrl u r typed mock s Hok Hst Hr Hu Hf Htyped.
  assert (Hget : get pf baseUrl "/games"
                     (Some [("sport", sport_literal (filter_sport s))])
                 = Thrown (ApiError
                             (or_else (field (errorData r) "detail")
                                      (JStr ("HTTP " ++ string_of_Z (status r))%string))
                             (JNum (inject_Z (status r)))
                             (field (errorData r) "detail"))).
  { rewrite (get_after_URL _ _ _ u _ Hu). unfold try_fetch. rewrite Hf.
    now apply not_ok_thrown. }
  apply Htyped in Hget.
  unfold refreshGames. simpl. fold (filter_sport s).
  unfold fetchGames. rewrite Hget. reflexivity.
Qed.

Lemma server_detail_not_shown_witness :
  cs_error (refreshGames (fetchGames not_found_client) [] loaded_state)
  = Some (JStr "Failed to fetch games").
Proof.
  refine (server_detail_not_shown (plain_platform not_found)
            "https://api.upsetiq.com" "https://api.upsetiq.com/games" not_found
            not_found_client [] loaded_state eq_refl _ _ eq_refl eq_refl _).
  - discriminate.
  - split; discriminate.
  - intros e He. vm_compute in He. injection He as <-. vm_compute. reflexivity.
Defined.

End RefreshFacts.

(** ** More on [checkAlerts] *)

Module NotificationsMoreFacts.
Import Js Types Notifications NotificationsMore Samples MoreSamples.

Section Device.
Context {W : Type}.
Variable expo : Expo W.

Lemma refusing_requestPermissions (w : W) :
  refusing expo -> fst (requestPermissions expo w) = false.
Proof.
  intros [Hg Hr]. unfold requestPermissions.
  specialize (Hg w). destruct (getPermissionsAsync expo w) as [[st|e] w1]; simpl in *;
    [|reflexivity].
  destruct (String.eqb st "granted") eqn:E.
  - apply String.eqb_eq in E. congruence.
  - simpl. specialize (Hr w1).
    destruct (requestPermissionsAsync expo w1) as [[st2|e2] w2]; simpl in *;
      [|reflexivity].
    apply String.eqb_neq. congruence.
Qed.

Lemma refusing_schedule (alert : Alert) (info : GameInfo) (st : State) :
  refusing expo -> snd (snd (scheduleAlertNotification expo alert info st)) = snd st.
Proof.
  intros H. destruct st as [w log]. unfold scheduleAlertNotification.
  pose proof (refusing_requestPermissions w H) as Hp.
  destruct (requestPermissions expo w) as [has w1]. simpl in Hp. subst has.
  reflexivity.
Qed.

Lemma refusing_check_one (getGameUps : string -> option Q) (st : State) (a : Alert) :
  refusing expo -> snd (check_one expo getGameUps st a) = snd st.
Proof.
  intros H. unfold check_one. destruct (triggered a); [reflexivity|].
  destruct (getGameUps (a_game_id a)) as [u|]; [|reflexivity].
  destruct (reaches (Some u) a); [|reflexivity].
  now apply refusing_schedule.
Qed.

Lemma refusing_checkAlerts (alerts : list Alert) (getGameUps : string -> option Q)
  (st : State) :
  refusing expo -> snd (checkAlerts expo alerts getGameUps st) = snd st.
Proof.
  intros H. unfold checkAlerts. revert st.
  induction alerts as [|a alerts IH]; intros st; simpl; [reflexivity|].
  rewrite IH. now apply refusing_check_one.
Qed.

Lemma accepting_schedule (alert : Alert) (info : GameInfo) (st : State) :
  accepting expo ->
  snd (snd (scheduleAlertNotification expo alert info st))
  = snd st ++ [alert_content expo alert info].
Proof.
  intros [Hg Hs]. destruct st as [w log]. unfold scheduleAlertNotification.
  unfold requestPermissions. specialize (Hg w).
  destruct (getPermissionsAsync expo w) as [o w1]. simpl in Hg. subst o. simpl.
  destruct (Hs (alert_content expo alert info) w1) as [i Hi].
  destruct (scheduleNotificationAsync expo (alert_content expo alert info) w1)
    as [o w2]. simpl in Hi. subst o. reflexivity.
Qed.

Lemma accepting_check_one (getGameUps : string -> option Q) (st : State) (a : Alert) :
  accepting expo ->
  snd (check_one expo getGameUps st a) = snd st ++ notice expo getGameUps a.
Proof.
  intros H. unfold check_one, notice, due.
  destruct (triggered a).
  - destruct (getGameUps (a_game_id a)); simpl; symmetry; apply List.app_nil_r.
  - destruct (getGameUps (a_game_id a)) as [u|];
      [|simpl; symmetry; apply List.app_nil_r].
    cbn [negb andb].
    destruct (reaches (Some u) a); [|symmetry; apply List.app_nil_r].
    now apply accepting_schedule.
Qed.

Lemma accepting_checkAlerts (alerts : list Alert) (getGameUps : string -> option Q)
  (st : State) :
  accepting expo ->
  snd (checkAlerts expo alerts getGameUps st)
  = snd st ++ flat_map (notice expo getGameUps) alerts.
Proof.
  intros H. unfold checkAlerts. revert st.
  induction alerts as [|a alerts IH]; intros st; simpl.
  - symmetry; apply List.app_nil_r.
  - rewrite IH, accepting_check_one by exact H. now rewrite List.app_assoc.
Qed.

End Device.

(** X18.  On a device where the permission is not granted, [checkAlerts]
    sends nothing, whatever the alerts and the scores. *)
Theorem checkAlerts_silent_without_permission :
  forall (W : Type) (expo : Expo W) (alerts : list Alert)
         (getGameUps : string -> option Q) (st : State),
    refusing expo ->
    snd (checkAlerts expo alerts getGameUps st) = snd st.
Proof. intros. now apply refusing_checkAlerts. Qed.

Lemma checkAlerts_silent_without_permission_witness :
  refusing denying_expo
  /\ snd (checkAlerts denying_expo [watch_65] (fun _ => Some 90%Q) (0%nat, [])) = [].
Proof.
  assert (H : refusing denying_expo) by (split; intros w; simpl; discriminate).
  split; [exact H|].
  exact (checkAlerts_silent_without_permission nat denying_expo [watch_65]
           (fun _ => Some 90%Q) (0%nat, []) H).
Defined.

(** X19.  On a device that grants the permission and accepts every
    request, one run of [checkAlerts] sends, in the order of the list, one
    notification for each alert that is not marked triggered and whose
    game has a non-zero score at or above the threshold; so over a
    sequence of scores an alert is notified once for every score at or
    above its threshold, not only for the first. *)
Theorem checkAlerts_notifies_each_due_alert :
  forall (W : Type) (expo : Expo W) (alerts : list Alert)
         (getGameUps : string -> option Q) (alert : Alert) (scores : list Q)
         (st : State),
    accepting expo ->
    snd (checkAlerts expo alerts getGameUps st)
      = snd st ++ flat_map (notice expo getGameUps) alerts
    /\ (triggered alert = false ->
        List.length (snd (evaluate expo [alert] scores st))
        = (List.length (snd st)
           + List.length (filter (fun s => reaches (Some s) alert) scores))%nat).
Proof.
  intros W expo alerts getGameUps alert scores st H. split.
  - now apply accepting_checkAlerts.
  - intros Ht. revert st.
    induction scores as [|s scores IH]; intros st; [simpl; lia|].
    change (evaluate expo [alert] (s :: scores) st)
      with (evaluate expo [alert] scores
              (checkAlerts expo [alert] (fun _ => Some s) st)).
    rewrite IH, accepting_checkAlerts by exact H.
    rewrite length_app. cbn [flat_map filter]. rewrite List.app_nil_r.
    unfold notice, due. rewrite Ht. cbn [negb andb].
    destruct (reaches (Some s) alert); simpl; lia.
Qed.

Lemma checkAlerts_notifies_each_due_alert_witness :
  accepting granting_expo
  /\ List.length (snd (evaluate granting_expo [watch_65] [60; 70; 72; 64; 90]
                          (0%nat, []))) = 3%nat.
Proof.
  assert (H : accepting granting_expo)
    by (split; [reflexivity | intros c w; eexists; reflexivity]).
  split; [exact H|].
  exact (proj2 (checkAlerts_notifies_each_due_alert nat granting_expo []
                  (fun _ => None) watch_65 [60; 70; 72; 64; 90] (0%nat, []) H)
               eq_refl).
Defined.

End NotificationsMoreFacts.

(** ** More on the mock data *)

Module MockDataMoreFacts.
Import Js Types MockData MockDataMore MockDataFacts Samples MoreSamples.

Lemma when_length {A : Type} (c : bool) (x : A) : (List.length (when c x) <= 1)%nat.
Proof. destruct c; simpl; lia. Qed.

Lemma spread_driver_length (toFixed1 : Q -> string) (g : Game) :
  (List.length (spread_driver toFixed1 g) <= 1)%nat.
Proof.
  unfold spread_driver.
  destruct (g_spreadOpen g), (g_spreadCurrent g); simpl; try lia.
  apply when_length.
Qed.

Lemma signal_drivers_length (toFixed1 : Q -> string) (g : Game) (p : Prediction)
  (m : MarketSignal) :
  (List.length (signal_drivers toFixed1 g p m) <= 5)%nat.
Proof.
  unfold signal_drivers. rewrite !length_app.
  pose proof (spread_driver_length toFixed1 g).
  pose proof (when_length (Qle_bool 70 (public_bet_percentage m))
                (mkDriver "Public >= 70% on favorite")).
  pose proof (when_length (flag (g_isPrimeTime g)) (mkDriver "Prime time game")).
  pose proof (when_length (negb (Qle_bool (-10) (line_movement m)))
                (mkDriver "Line movement against favorite")).
  pose proof (when_length (negb (Qle_bool (upset_probability p) 65))
                (mkDriver "Historical anomaly detected")).
  destruct (String.eqb (g_sport g) "NFL"); rewrite ?length_app; simpl; lia.
Qed.

(** X20.  The drivers of a mock game are its signals, in the order they
    are found, followed by as many copies of the generic label as are
    needed to reach three; there are between three and five of them, so
    the cut at six never removes anything. *)
Theorem with_drivers_never_cut :
  forall (toFixed1 : Q -> string) (g : Game) (p : Prediction) (m : MarketSignal),
    drivers (with_drivers toFixed1 g p m)
    = Some (signal_drivers toFixed1 g p m
            ++ repeat (mkDriver fallback_label)
                      (3 - List.length (signal_drivers toFixed1 g p m)))
    /\ (3 <= List.length (signal_drivers toFixed1 g p m
                          ++ repeat (mkDriver fallback_label)
                               (3 - List.length (signal_drivers toFixed1 g p m)))
        <= 5)%nat.
Proof.
  intros toFixed1 g p m.
  pose proof (signal_drivers_length toFixed1 g p m) as Hl.
  assert (Hlen : (3 <= List.length (signal_drivers toFixed1 g p m
                         ++ repeat (mkDriver fallback_label)
                              (3 - List.length (signal_drivers toFixed1 g p m)))
                  <= 5)%nat)
    by (rewrite length_app, repeat_length; lia).
  split; [|exact Hlen].
  unfold with_drivers. cbn [drivers]. rewrite pad_to_three_spec.
  f_equal. apply firstn_all2. lia.
Qed.

(** X21.  [getKeySignals] returns at most three signals: the labels of the
    first three drivers of a game that has drivers, hence fewer than three
    for a game with one or two drivers, and exactly three otherwise. *)
Theorem getKeySignals_length :
  forall (g : GameWithPrediction),
    List.length (getKeySignals g)
    = match drivers g with
      | Some (d :: ds) => Nat.min 3 (S (List.length ds))
      | _ => 3%nat
      end.
Proof.
  intros g. unfold getKeySignals.
  destruct (drivers g) as [[|d ds]|].
  - apply firstn_three_nonempty, pad_to_three_length.
  - rewrite length_map, length_firstn. reflexivity.
  - apply firstn_three_nonempty, pad_to_three_length.
Qed.

Example getKeySignals_one_driver :
  getKeySignals one_driver_game = ["Sharp money on underdog"].
Proof. reflexivity. Qed.

Lemma find_some_id {A : Type} (key : A -> string) (l : list A) (i : string) :
  (exists x, In x l /\ key x = i)
  <-> exists x, find (fun x => String.eqb (key x) i) l = Some x.
Proof.
  split.
  - intros [x [Hin Hk]].
    destruct (find (fun x => String.eqb (key x) i) l) as [y|] eqn:E; [now exists y|].
    exfalso. pose proof (find_none _ _ E x Hin) as F. simpl in F.
    rewrite Hk, String.eqb_refl in F. discriminate.
  - intros [x Hx]. apply find_some in Hx. destruct Hx as [Hin Hk].
    apply String.eqb_eq in Hk. now exists x.
Qed.

Lemma combine_game_spec (toFixed1 : Q -> string) (predictions : list Prediction)
  (signals : list MarketSignal) (g : Game) :
  (has_data predictions signals g ->
   exists x, combine_game toFixed1 predictions signals g = Returned x
             /\ game x = g /\ joined x)
  /\ (~ has_data predictions signals g ->
      combine_game toFixed1 predictions signals g = Thrown (missing_data (g_id g))).
Proof.
  unfold combine_game, has_data. split.
  - intros [Hp Hm].
    apply (find_some_id p_game_id) in Hp. apply (find_some_id m_game_id) in Hm.
    destruct Hp as [p Hp], Hm as [m Hm]. rewrite Hp, Hm.
    eexists. split; [reflexivity|]. split; [reflexivity|].
    apply find_some in Hp, Hm. destruct Hp as [_ Hp], Hm as [_ Hm].
    apply String.eqb_eq in Hp, Hm. unfold joined. simpl. now split.
  - intros Hn.
    destruct (find (fun p => String.eqb (p_game_id p) (g_id g)) predictions)
      as [p|] eqn:Ep; [|reflexivity].
    destruct (find (fun m => String.eqb (m_game_id m) (g_id g)) signals)
      as [m|] eqn:Em; [|reflexivity].
    exfalso. apply Hn. split.
    + apply (find_some_id p_game_id). now exists p.
    + apply (find_some_id m_game_id). now exists m.
Qed.

Lemma combine_game_returns (toFixed1 : Q -> string) (predictions : list Prediction)
  (signals : list MarketSignal) (g : Game) (x : GameWithPrediction) :
  combine_game toFixed1 predictions signals g = Returned x ->
  has_data predictions signals g.
Proof.
  unfold combine_game. intros Ex.
  destruct (find (fun p => String.eqb (p_game_id p) (g_id g)) predictions)
    as [p|] eqn:Ep; [|discriminate].
  destruct (find (fun m => String.eqb (m_game_id m) (g_id g)) signals)
    as [m|] eqn:Em; [|discriminate].
  split; [apply (find_some_id p_game_id); now exists p
         | apply (find_some_id m_game_id); now exists m].
Qed.

(** X22.  The mock games are built when every game has a prediction and a
    market signal of its id, and only then: the result lists the games in
    their order, each joined with a prediction and a market signal of its
    own id; otherwise building them throws. *)
Theorem mockGamesWithPredictions_total_join :
  forall (toFixed1 : Q -> string) (predictions : list Prediction)
         (signals : list MarketSignal) (games : list Game),
    (Forall (has_data predictions signals) games ->
     exists out,
       mockGamesWithPredictions toFixed1 predictions signals games = Returned out
       /\ map game out = games /\ Forall joined out)
    /\ (~ Forall (has_data predictions signals) games ->
        exists e,
          mockGamesWithPredictions toFixed1 predictions signals games = Thrown e).
Proof.
  intros toFixed1 predictions signals games. split.
  - induction 1 as [|g games Hg Hall IH]; simpl.
    + exists []. repeat split. constructor.
    + destruct (proj1 (combine_game_spec toFixed1 predictions signals g) Hg)
        as [x [Ex [Egx Hj]]].
      destruct IH as [out [Eo [Em Hjo]]].
      rewrite Ex, Eo. simpl. exists (x :: out). repeat split.
      * simpl. now rewrite Egx, Em.
      * now constructor.
  - induction games as [|g games IH]; intros Hn; simpl.
    + exfalso. apply Hn. constructor.
    + destruct (combine_game toFixed1 predictions signals g) as [x|e] eqn:Ex;
        simpl; [|eauto].
      assert (Hg : has_data predictions signals g)
        by (eapply combine_game_returns; exact Ex).
      destruct IH as [e He].
      * intros Hall. apply Hn. now constructor.
      * rewrite He. simpl. eauto.
Qed.

Lemma mockGamesWithPredictions_total_join_witness :
  exists out,
    mockGamesWithPredictions plain_fixed [quiet_prediction] [quiet_signal] [quiet_game]
      = Returned out
    /\ map game out = [quiet_game].
Proof.
  destruct (proj1 (mockGamesWithPredictions_total_join plain_fixed
                     [quiet_prediction] [quiet_signal] [quiet_game]))
    as [out [Ho [Hm _]]].
  - repeat constructor.
    + exists quiet_prediction. split; [now left | reflexivity].
    + exists quiet_signal. split; [now left | reflexivity].
  - exists out. split; assumption.
Defined.

End MockDataMoreFacts.

(** ** More on the transformation of an API game *)

Module GamesApiMoreFacts.
Import Js Types GamesApi Samples.

(** X23.  Nothing but the venue is lost in [transformApiGame]: two API
    games with the same transformation and the same venue are the same
    game. *)
Theorem transformApiGame_loses_only_venue :
  forall (g1 g2 : ApiGame),
    transformApiGame g1 = transformApiGame g2 ->
    api_venue g1 = api_venue g2 ->
    g1 = g2.
Proof.
  intros g1 g2 Ht Hv.
  destruct g1 as [i1 s1 f1 u1 t1 oo1 oc1 st1 pt1 so1 sc1 to1 tc1 v1 p1 m1 d1].
  destruct g2 as [i2 s2 f2 u2 t2 oo2 oc2 st2 pt2 so2 sc2 to2 tc2 v2 p2 m2 d2].
  destruct p1, p2, m1, m2.
  unfold transformApiGame in Ht. simpl in *.
  injection Ht. intros. subst. reflexivity.
Qed.

Lemma transformApiGame_loses_only_venue_witness :
  arrowhead_game = arrowhead_game.
Proof.
  exact (transformApiGame_loses_only_venue arrowhead_game arrowhead_game
           eq_refl eq_refl).
Defined.

End GamesApiMoreFacts.

(** ** More on the table [predictions] *)

Module SchemaMoreFacts.
Import Schema SchemaMore MoreSamples.

Lemma round_close (q : Q) :
  (2 * Z.abs (round_half_away q * Z.pos (Qden q) - Qnum q * 100) <= Z.pos (Qden q))%Z.
Proof.
  unfold round_half_away.
  set (n := (Qnum q * 100)%Z). set (d := Z.pos (Qden q)).
  assert (Hd : (0 < d)%Z) by (unfold d; lia).
  pose proof (Z.div_mod (2 * Z.abs n + d) (2 * d) ltac:(lia)) as Hdm.
  pose proof (Z.mod_pos_bound (2 * Z.abs n + d) (2 * d) ltac:(lia)) as Hb.
  set (m := ((2 * Z.abs n + d) / (2 * d))%Z) in *.
  set (r := ((2 * Z.abs n + d) mod (2 * d))%Z) in *.
  destruct (Z.lt_trichotomy n 0) as [Hn|[Hn|Hn]].
  - rewrite Z.sgn_neg by lia. rewrite Z.abs_neq in Hdm by lia. lia.
  - rewrite Hn. simpl. lia.
  - rewrite Z.sgn_pos by lia. rewrite Z.abs_eq in Hdm by lia. lia.
Qed.

Lemma to_decimal_close (q : Q) : (Qabs (to_decimal_5_2 q - q) <= 1 # 200)%Q.
Proof.
  apply Qabs_Qle_condition.
  pose proof (round_close q) as H.
  set (m := round_half_away q) in *.
  destruct q as [num d].
  unfold to_decimal_5_2, Qle, Qminus, Qplus, Qopp. fold m.
  cbn [Qnum Qden] in *.
  rewrite !Pos2Z.inj_mul. split; lia.
Qed.

(** What an accepted insertion did. *)
Lemma insert_prediction_accepted (db db' : Store) (row : NewPrediction) :
  insert_prediction db row = inr db' ->
  exists p,
    np_upset_probability row = Some p
    /\ db' = mkStore (game_ids db)
                     (predictions db
                      ++ [mkPredictionRow (np_game_id row) (to_decimal_5_2 p)
                                          (np_confidence_band row)
                                          (stored_version row)])
    /\ existsb (same_version (np_game_id row) (stored_version row))
               (predictions db) = false
    /\ existsb (String.eqb (np_game_id row)) (game_ids db) = true.
Proof.
  unfold insert_prediction, stored_version. intros H.
  destruct (np_upset_probability row) as [p|]; [|discriminate].
  destruct (fits_5_2 p); simpl in H; [|discriminate].
  destruct (Qle_bool 0 (to_decimal_5_2 p) && Qle_bool (to_decimal_5_2 p) 100);
    simpl in H; [|discriminate].
  destruct (existsb _ (predictions db)) eqn:Eu; [discriminate|].
  destruct (existsb _ (game_ids db)) eqn:Ef; simpl in H; [|discriminate].
  injection H as <-. exists p. repeat split; assumption.
Qed.

Lemma same_version_key (g v : string) (r : PredictionRow) :
  same_version g v r = true <-> version_key r = (g, v).
Proof.
  unfold same_version, version_key. rewrite andb_true_iff, !String.eqb_eq.
  split; [intros [-> ->]; reflexivity | intros H; injection H; auto].
Qed.

Lemma insert_prediction_consistent (db db' : Store) (row : NewPrediction) :
  insert_prediction db row = inr db' -> consistent db -> consistent db'.
Proof.
  intros H [Hnd Hfk].
  destruct (insert_prediction_accepted db db' row H) as [p [_ [-> [Hu Hf]]]].
  split; simpl.
  - rewrite map_app. simpl.
    apply Permutation_NoDup
      with (l := version_key (mkPredictionRow (np_game_id row) (to_decimal_5_2 p)
                                (np_confidence_band row) (stored_version row))
                 :: map version_key (predictions db)).
    + apply Permutation_cons_append.
    + constructor; [|exact Hnd].
      intros Hin. apply in_map_iff in Hin. destruct Hin as [r [Hk Hr]].
      assert (Hex : existsb (same_version (np_game_id row) (stored_version row))
                            (predictions db) = true).
      { apply existsb_exists. exists r. split; [exact Hr|].
        apply same_version_key. exact Hk. }
      congruence.
  - intros r Hr. apply in_app_or in Hr. destruct Hr as [Hr|[<-|[]]].
    + now apply Hfk.
    + simpl. apply existsb_exists in Hf. destruct Hf as [x [Hx Ex]].
      apply String.eqb_eq in Ex. now subst x.
Qed.

Lemma insert_prediction_keeps (db db' : Store) (row : NewPrediction) (r : PredictionRow) :
  insert_prediction db row = inr db' ->
  In r (predictions db) -> In r (predictions db').
Proof.
  intros H Hr.
  destruct (insert_prediction_accepted db db' row H) as [p [_ [-> _]]].
  simpl. apply in_or_app. now left.
Qed.

Lemma insert_all_keeps (rows : list NewPrediction) (db : Store) (r : PredictionRow) :
  In r (predictions db) -> In r (predictions (insert_all db rows)).
Proof.
  revert db. induction rows as [|row rows IH]; intros db Hr; simpl; [exact Hr|].
  apply IH. destruct (insert_prediction db row) as [e|db'] eqn:E; [exact Hr|].
  now apply (insert_prediction_keeps db db' row).
Qed.

Lemma insert_all_consistent (rows : list NewPrediction) (db : Store) :
  consistent db -> consistent (insert_all db rows).
Proof.
  revert db. induction rows as [|row rows IH]; intros db Hc; simpl; [exact Hc|].
  apply IH. destruct (insert_prediction db row) as [e|db'] eqn:E; [exact Hc|].
  now apply (insert_prediction_consistent db db' row).
Qed.

Lemma insert_all_game_ids (rows : list NewPrediction) (db : Store) :
  game_ids (insert_all db rows) = game_ids db.
Proof.
  revert db. induction rows as [|row rows IH]; intros db; simpl; [reflexivity|].
  rewrite IH. destruct (insert_prediction db row) as [e|db'] eqn:E; [reflexivity|].
  destruct (insert_prediction_accepted db db' row E) as [p [_ [-> _]]].
  reflexivity.
Qed.

Lemma NoDup_map_inj {A B : Type} (f : A -> B) (l : list A) (a b : A) :
  NoDup (map f l) -> In a l -> In b l -> f a = f b -> a = b.
Proof.
  induction l as [|x l IH]; simpl; intros Hnd Ha Hb E; [contradiction|].
  inversion Hnd as [|y ys Hx Hl]; subst.
  destruct Ha as [->|Ha], Hb as [->|Hb].
  - reflexivity.
  - exfalso. apply Hx. rewrite E. now apply in_map.
  - exfalso. apply Hx. rewrite <- E. now apply in_map.
  - now apply IH.
Qed.

(** X24.  Insertions into [predictions] keep the constraints that relate
    rows: whatever rows are offered (each within the declared lengths, with
    a model version given or left to the default), and whichever of them
    are refused, no two stored rows share the pair of game id and model
    version, every stored row refers to a game of [games], and [games] is
    left as it was. *)
Theorem insert_all_keeps_constraints :
  forall (db : Store) (rows : list NewPrediction),
    forallb within_lengths rows = true ->
    consistent db ->
    consistent (insert_all db rows)
    /\ game_ids (insert_all db rows) = game_ids db.
Proof.
  intros db rows _ Hc. split.
  - now apply insert_all_consistent.
  - apply insert_all_game_ids.
Qed.

Lemma insert_all_keeps_constraints_witness :
  consistent one_game_store
  /\ consistent (insert_all one_game_store [halfway_row; halfway_row])
  /\ game_ids (insert_all one_game_store [halfway_row; halfway_row]) = ["9"].
Proof.
  assert (Hc : consistent one_game_store).
  { split; simpl; [constructor | intros r []]. }
  split; [exact Hc|].
  exact (insert_all_keeps_constraints one_game_store [halfway_row; halfway_row]
           eq_refl Hc).
Defined.

(** X25.  An accepted insertion of a row within the declared lengths
    appends exactly one row; the row carries the game id offered, which is
    the id of a game of [games], the model version offered or the default,
    and an upset probability within half a hundredth of the one offered. *)
Theorem insert_prediction_stores_rounded :
  forall (db db' : Store) (row : NewPrediction),
    within_lengths row = true ->
    insert_prediction db row = inr db' ->
    exists p r,
      np_upset_probability row = Some p
      /\ predictions db' = predictions db ++ [r]
      /\ pr_game_id r = np_game_id row
      /\ pr_model_version r = stored_version row
      /\ In (pr_game_id r) (game_ids db)
      /\ (Qabs (pr_upset_probability r - p) <= 1 # 200)%Q.
Proof.
  intros db db' row _ H.
  destruct (insert_prediction_accepted db db' row H) as [p [Hp [-> [_ Hf]]]].
  exists p. eexists. split; [exact Hp|]. split; [reflexivity|]. simpl.
  split; [reflexivity|]. split; [reflexivity|]. split.
  - apply existsb_exists in Hf. destruct Hf as [x [Hx Ex]].
    apply String.eqb_eq in Ex. now subst x.
  - apply to_decimal_close.
Qed.

Lemma insert_prediction_stores_rounded_witness :
  insert_prediction one_game_store halfway_row
    = inr (mkStore ["9"] [halfway_stored])
  /\ exists p r,
       np_upset_probability halfway_row = Some p
       /\ [halfway_stored] = [] ++ [r]
       /\ (Qabs (pr_upset_probability r - p) <= 1 # 200)%Q.
Proof.
  assert (H : insert_prediction one_game_store halfway_row
              = inr (mkStore ["9"] [halfway_stored])) by reflexivity.
  split; [exact H|].
  destruct (insert_prediction_stores_rounded one_game_store _ halfway_row eq_refl H)
    as [p [r [Hp [Hr [_ [_ [_ Hq]]]]]]].
  exists p, r. repeat split; assumption.
Defined.

(** X26.  An insertion never replaces a stored prediction: after any
    sequence of insertions (of rows within the declared lengths, with a
    model version given or left to the default) a row that was stored is
    still stored, and it is the only row under its pair of game id and
    model version. *)
Theorem insert_never_replaces :
  forall (db : Store) (rows : list NewPrediction) (r : PredictionRow),
    forallb within_lengths rows = true ->
    consistent db ->
    In r (predictions db) ->
    In r (predictions (insert_all db rows))
    /\ forall r', In r' (predictions (insert_all db rows)) ->
                  version_key r' = version_key r -> r' = r.
Proof.
  intros db rows r _ Hc Hr.
  assert (Hk : In r (predictions (insert_all db rows)))
    by now apply insert_all_keeps.
  split; [exact Hk|].
  intros r' Hr' E.
  destruct (insert_all_consistent rows db Hc) as [Hnd _].
  exact (NoDup_map_inj version_key _ r' r Hnd Hr' Hk E).
Qed.

Lemma insert_never_replaces_witness :
  In halfway_stored
     (predictions (insert_all (mkStore ["9"] [halfway_stored])
                              [mkNewPrediction "9" (Some 80) None None])).
Proof.
  refine (proj1 (insert_never_replaces (mkStore ["9"] [halfway_stored])
                   [mkNewPrediction "9" (Some 80) None None] halfway_stored
                   eq_refl _ _)).
  - split; simpl.
    + constructor; [intros [] | constructor].
    + intros r [<-|[]]. simpl. now left.
  - simpl. now left.
Defined.

End SchemaMoreFacts.

(** ** More on [AlertsContext] *)

Module AlertsContextMoreFacts.
Import Js Types AlertsContext.

(** X27.  The id of an alert is made of [Date.now()] alone, so two alerts
    added within the same millisecond share their id, and [removeAlert]
    with that id removes both, whatever their games and thresholds: what
    is left is what [removeAlert] leaves of the alerts there were before
    the two. *)
Theorem same_millisecond_alerts_removed_together :
  forall (now : Z) (iso1 iso2 g1 g2 : string) (t1 t2 : AlertThreshold)
         (prev : list Alert),
    removeAlert ("alert-" ++ string_of_Z now)%string
      (addAlert now iso2 g2 t2 (addAlert now iso1 g1 t1 prev))
    = removeAlert ("alert-" ++ string_of_Z now)%string prev.
Proof.
  intros now iso1 iso2 g1 g2 t1 t2 prev.
  unfold removeAlert, addAlert. rewrite !filter_app. simpl.
  rewrite String.eqb_refl. simpl. now rewrite !List.app_nil_r.
Qed.

End AlertsContextMoreFacts.
